(** * The on1OS installer wizard (on1os-installer/gui.py)

    A shallow embedding of the wizard of [gui.py]: the configuration
    dictionary, the step cursor, the validation of the partition and users
    screens, the worker that serialises the record and launches the backend,
    and the callbacks it hands to the Tk main loop.  Rendering (labels, grid
    placement, the header progress bar) is left out; everything that reads or
    writes [self.config], [self.current_step] or a widget that is read back
    later is kept.

    The installation engine itself ([backend.sh]) is not part of the sources;
    the part of it one property needs is modelled from the specification in
    [Module Engine]. *)

From Stdlib Require Import List String Ascii Bool NArith ZArith Lia.
Import ListNotations.

Local Open Scope string_scope.
Local Open Scope list_scope.
Local Open Scope N_scope.

(* ------------------------------------------------------------------ *)
(** ** Python values *)

Module Py.

(** A Python [str] is a sequence of code points. *)
Definition pystr := list N.

(** A literal of the source text. *)
Definition str (s : string) : pystr :=
  map N_of_ascii (list_ascii_of_string s).

Fixpoint eqb (a b : pystr) : bool :=
  match a, b with
  | [], [] => true
  | x :: a', y :: b' => (x =? y) && eqb a' b'
  | _, _ => false
  end.

(** [bool(s)] for a string: the empty string is false. *)
Definition nonempty (s : pystr) : bool :=
  match s with [] => false | _ :: _ => true end.

(** [c.isspace()] *)
Definition isspace (c : N) : bool :=
  ((9 <=? c) && (c <=? 13)) || ((28 <=? c) && (c <=? 32)) ||
  (c =? 133) || (c =? 160) || (c =? 5760) ||
  ((8192 <=? c) && (c <=? 8202)) || (c =? 8232) || (c =? 8233) ||
  (c =? 8239) || (c =? 8287) || (c =? 12288).

Fixpoint lstrip (s : pystr) : pystr :=
  match s with
  | c :: s' => if isspace c then lstrip s' else s
  | [] => []
  end.

(** [s.strip()] *)
Definition strip (s : pystr) : pystr := rev (lstrip (rev (lstrip s))).

(** [s.split()]: the maximal runs of non-blank characters.  [cur] is the run
    being read, most recent character first. *)
Fixpoint split_from (cur s : pystr) : list pystr :=
  match s with
  | [] => match cur with [] => [] | _ => [rev cur] end
  | c :: s' =>
      if isspace c
      then match cur with
           | [] => split_from [] s'
           | _ => rev cur :: split_from [] s'
           end
      else split_from (c :: cur) s'
  end.

Definition split (s : pystr) : list pystr := split_from [] s.

(** [s.split(sep)] for a separator of one character: empty fields are kept. *)
Fixpoint split_char_from (sep : N) (cur s : pystr) : list pystr :=
  match s with
  | [] => [rev cur]
  | c :: s' =>
      if c =? sep then rev cur :: split_char_from sep [] s'
      else split_char_from sep (c :: cur) s'
  end.

Definition split_char (sep : N) (s : pystr) : list pystr :=
  split_char_from sep [] s.

Fixpoint startswith (p s : pystr) : bool :=
  match p, s with
  | [], _ => true
  | x :: p', y :: s' => (x =? y) && startswith p' s'
  | _ :: _, [] => false
  end.

(** [p in s] *)
Fixpoint contains (p s : pystr) : bool :=
  startswith p s ||
  match s with
  | [] => false
  | _ :: s' => contains p s'
  end.

(** [s.split(sep, 1)[1]] when [sep in s]: what follows the first [sep]. *)
Fixpoint after_first (sep s : pystr) : option pystr :=
  if startswith sep s then Some (skipn (List.length sep) s)
  else match s with
       | [] => None
       | _ :: s' => after_first sep s'
       end.

(** The values the configuration dictionary holds. *)
Inductive value :=
| PNone
| PBool (b : bool)
| PStr (s : pystr).

(** [bool(v)] *)
Definition truthy (v : value) : bool :=
  match v with
  | PNone => false
  | PBool b => b
  | PStr s => nonempty s
  end.

(** A [dict] with string keys, in insertion order. *)
Definition dict := list (string * value).

Fixpoint get (k : string) (d : dict) : option value :=
  match d with
  | [] => None
  | (k', v) :: d' => if String.eqb k k' then Some v else get k d'
  end.

(** [d.get(k)]: [None] for a missing key. *)
Definition get_or_none (k : string) (d : dict) : value :=
  match get k d with Some v => v | None => PNone end.

(** [d[k] = v]: an existing key keeps its place. *)
Fixpoint set (k : string) (v : value) (d : dict) : dict :=
  match d with
  | [] => [(k, v)]
  | (k', v') :: d' =>
      if String.eqb k k' then (k, v) :: d' else (k', v') :: set k v d'
  end.

Definition keys (d : dict) : list string := map fst d.

End Py.

(* ------------------------------------------------------------------ *)
(** ** The two patterns given to [re.match] *)

Module Re.

Import Py.

(** A character class is a list of inclusive ranges. *)
Definition class := list (N * N).

Definition in_class (cl : class) (c : N) : bool :=
  existsb (fun r => (fst r <=? c) && (c <=? snd r)) cl.

(** The pattern items the source uses: [^], [$], one character of a class,
    and a class under [*] or [+]. *)
Inductive item :=
| Bol
| Eol
| One (cl : class)
| Star (cl : class)
| Plus (cl : class).

Definition pattern := list item.

(** [$] without [re.MULTILINE]: at the end of the string, and also just
    before a newline that is the last character. *)
Definition at_eol (s : pystr) : bool :=
  match s with
  | [] => true
  | [c] => c =? 10
  | _ => false
  end.

(** Backtracking match of [p] at the current position; [bos] tells whether
    the position is the beginning of the string.  A starred class takes as
    many characters as it can and gives them back one by one. *)
Fixpoint match_here (p : pattern) (bos : bool) (s : pystr) {struct p} : bool :=
  match p with
  | [] => true
  | it :: p' =>
      let rest := match_here p' in
      let star (cl : class) :=
        fix star (bos : bool) (s : pystr) {struct s} : bool :=
          match s with
          | c :: s' => (in_class cl c && star false s') || rest bos s
          | [] => rest bos s
          end in
      match it with
      | Bol => bos && rest bos s
      | Eol => at_eol s && rest bos s
      | One cl =>
          match s with
          | c :: s' => in_class cl c && rest false s'
          | [] => false
          end
      | Star cl => star cl bos s
      | Plus cl =>
          match s with
          | c :: s' => in_class cl c && star cl false s'
          | [] => false
          end
      end
  end.

(** [bool(re.match(p, s))]: the match is anchored at position 0 and need not
    reach the end of [s]. *)
Definition re_match (p : pattern) (s : pystr) : bool := match_here p true s.

Definition lower : class := [(97, 122)].
Definition lower_digit : class := [(97, 122); (48, 57)].
Definition alnum_hyphen : class := [(97, 122); (65, 90); (48, 57); (45, 45)].

(** [r'^[a-z][a-z0-9]*$'] *)
Definition username_re : pattern := [Bol; One lower; Star lower_digit; Eol].

(** [r'^[a-zA-Z0-9-]+$'] *)
Definition hostname_re : pattern := [Bol; Plus alnum_hyphen; Eol].

End Re.

(* ------------------------------------------------------------------ *)
(** ** [json.dump(obj, f, indent=2)] for a flat dictionary *)

Module Json.

Import Py.

Definition hex_digit (n : N) : N := if n <? 10 then 48 + n else 87 + n.

(** ['{0:04x}'.format(n)] for [n < 0x10000] *)
Definition hex4 (n : N) : pystr :=
  [hex_digit ((n / 4096) mod 16); hex_digit ((n / 256) mod 16);
   hex_digit ((n / 16) mod 16); hex_digit (n mod 16)].

Definition u_escape (n : N) : pystr := 92 :: 117 :: hex4 n.

(** One character under [ensure_ascii=True]: the quote, the backslash and
    everything outside [' '..'~'] are escaped. *)
Definition escape_char (c : N) : pystr :=
  if c =? 34 then [92; 34]
  else if c =? 92 then [92; 92]
  else if c =? 10 then [92; 110]
  else if c =? 13 then [92; 114]
  else if c =? 9 then [92; 116]
  else if c =? 8 then [92; 98]
  else if c =? 12 then [92; 102]
  else if (32 <=? c) && (c <=? 126) then [c]
  else if c <? 65536 then u_escape c
  else let n := c - 65536 in
       u_escape (N.lor 55296 (N.land (N.shiftr n 10) 1023)) ++
       u_escape (N.lor 56320 (N.land n 1023)).

Definition dump_str (s : pystr) : pystr :=
  34 :: flat_map escape_char s ++ [34].

Definition dump_value (v : value) : pystr :=
  match v with
  | PNone => str "null"
  | PBool true => str "true"
  | PBool false => str "false"
  | PStr s => dump_str s
  end.

(** One member: the key, [": "], the value. *)
Definition member (kv : string * value) : pystr :=
  dump_str (str (fst kv)) ++ str ": " ++ dump_value (snd kv).

Fixpoint join (sep : pystr) (l : list pystr) : pystr :=
  match l with
  | [] => []
  | [x] => x
  | x :: l' => x ++ sep ++ join sep l'
  end.

Definition dumps_indent2 (d : dict) : pystr :=
  match d with
  | [] => str "{}"
  | _ => str "{" ++ [10; 32; 32] ++ join [44; 10; 32; 32] (map member d)
         ++ [10] ++ str "}"
  end.

End Json.

(* ------------------------------------------------------------------ *)
(** ** The wizard: [class On1OSInstaller] *)

Module Wizard.

Import Py Re.

(** The entry widgets of the users screen, by the text each one holds. *)
Record entries := {
  root_pass_entry : pystr;
  root_pass_confirm : pystr;
  fullname_entry : pystr;
  username_entry : pystr;
  user_pass_entry : pystr;
  user_pass_confirm : pystr;
  hostname_entry : pystr
}.

Inductive field :=
| RootPass | RootConfirm | Fullname | Username | UserPass | UserConfirm
| Hostname.

Definition type_into (f : field) (t : pystr) (e : entries) : entries :=
  match f with
  | RootPass =>
      {| root_pass_entry := t; root_pass_confirm := root_pass_confirm e;
         fullname_entry := fullname_entry e;
         username_entry := username_entry e;
         user_pass_entry := user_pass_entry e;
         user_pass_confirm := user_pass_confirm e;
         hostname_entry := hostname_entry e |}
  | RootConfirm =>
      {| root_pass_entry := root_pass_entry e; root_pass_confirm := t;
         fullname_entry := fullname_entry e;
         username_entry := username_entry e;
         user_pass_entry := user_pass_entry e;
         user_pass_confirm := user_pass_confirm e;
         hostname_entry := hostname_entry e |}
  | Fullname =>
      {| root_pass_entry := root_pass_entry e;
         root_pass_confirm := root_pass_confirm e; fullname_entry := t;
         username_entry := username_entry e;
         user_pass_entry := user_pass_entry e;
         user_pass_confirm := user_pass_confirm e;
         hostname_entry := hostname_entry e |}
  | Username =>
      {| root_pass_entry := root_pass_entry e;
         root_pass_confirm := root_pass_confirm e;
         fullname_entry := fullname_entry e; username_entry := t;
         user_pass_entry := user_pass_entry e;
         user_pass_confirm := user_pass_confirm e;
         hostname_entry := hostname_entry e |}
  | UserPass =>
      {| root_pass_entry := root_pass_entry e;
         root_pass_confirm := root_pass_confirm e;
         fullname_entry := fullname_entry e;
         username_entry := username_entry e; user_pass_entry := t;
         user_pass_confirm := user_pass_confirm e;
         hostname_entry := hostname_entry e |}
  | UserConfirm =>
      {| root_pass_entry := root_pass_entry e;
         root_pass_confirm := root_pass_confirm e;
         fullname_entry := fullname_entry e;
         username_entry := username_entry e;
         user_pass_entry := user_pass_entry e; user_pass_confirm := t;
         hostname_entry := hostname_entry e |}
  | Hostname =>
      {| root_pass_entry := root_pass_entry e;
         root_pass_confirm := root_pass_confirm e;
         fullname_entry := fullname_entry e;
         username_entry := username_entry e;
         user_pass_entry := user_pass_entry e;
         user_pass_confirm := user_pass_confirm e; hostname_entry := t |}
  end.

(** What the Next button is bound to. *)
Inductive command :=
| CmdNextStep               (* self.next_step *)
| CmdReboot.                (* lambda: os.system('reboot') *)

(** The attributes of the installer object that are read back later. *)
Record wizard := {
  config : dict;
  current_step : Z;
  users : option entries;       (* None: users_step has not run yet *)
  disk_values : list pystr;     (* values of the disk combobox *)
  back_enabled : bool;
  next_enabled : bool;
  next_text : string;
  next_command : command;
  install_status : option pystr;   (* text of the install screen's label *)
  install_progress : bool          (* the indeterminate bar is running *)
}.

Definition with_config (c : dict) (w : wizard) : wizard :=
  {| config := c; current_step := current_step w; users := users w;
     disk_values := disk_values w; back_enabled := back_enabled w;
     next_enabled := next_enabled w; next_text := next_text w;
     next_command := next_command w; install_status := install_status w;
     install_progress := install_progress w |}.

Definition with_step (n : Z) (w : wizard) : wizard :=
  {| config := config w; current_step := n; users := users w;
     disk_values := disk_values w; back_enabled := back_enabled w;
     next_enabled := next_enabled w; next_text := next_text w;
     next_command := next_command w; install_status := install_status w;
     install_progress := install_progress w |}.

Definition with_users (u : option entries) (w : wizard) : wizard :=
  {| config := config w; current_step := current_step w; users := u;
     disk_values := disk_values w; back_enabled := back_enabled w;
     next_enabled := next_enabled w; next_text := next_text w;
     next_command := next_command w; install_status := install_status w;
     install_progress := install_progress w |}.

Definition with_disk_values (l : list pystr) (w : wizard) : wizard :=
  {| config := config w; current_step := current_step w; users := users w;
     disk_values := l; back_enabled := back_enabled w;
     next_enabled := next_enabled w; next_text := next_text w;
     next_command := next_command w; install_status := install_status w;
     install_progress := install_progress w |}.

Definition with_buttons (b n : bool) (t : string) (c : command) (w : wizard)
  : wizard :=
  {| config := config w; current_step := current_step w; users := users w;
     disk_values := disk_values w; back_enabled := b; next_enabled := n;
     next_text := t; next_command := c; install_status := install_status w;
     install_progress := install_progress w |}.

Definition with_install (s : option pystr) (p : bool) (w : wizard) : wizard :=
  {| config := config w; current_step := current_step w; users := users w;
     disk_values := disk_values w; back_enabled := back_enabled w;
     next_enabled := next_enabled w; next_text := next_text w;
     next_command := next_command w; install_status := s;
     install_progress := p |}.

(** What a callback does besides changing the object. *)
Inductive effect :=
| ShowError (title message : pystr)     (* messagebox.showerror *)
| ShowInfo (title message : pystr)      (* messagebox.showinfo *)
| AskQuit                               (* quit_installer's askokcancel *)
| StartWorker (cfg : dict)              (* Thread(perform_installation) *)
| Reboot                                (* os.system('reboot') *)
| Traceback (exc : string).             (* an exception left the callback *)

(** The screens, in the order of [self.steps]. *)
Inductive screen :=
| Welcome | Language | Keyboard | Network | Timezone | Partition | Desktop
| Drivers | Users | Summary | Install.

Definition steps : list screen :=
  [Welcome; Language; Keyboard; Network; Timezone; Partition; Desktop;
   Drivers; Users; Summary; Install].

(** [len(self.steps)] *)
Definition len_steps : Z := Z.of_nat (List.length steps).

(** [l[i]] with Python's negative indices; [None] is [IndexError]. *)
Definition index {A} (l : list A) (i : Z) : option A :=
  let n := Z.of_nat (List.length l) in
  if (i <? 0)%Z
  then if (i + n <? 0)%Z then None else nth_error l (Z.to_nat (i + n))
  else nth_error l (Z.to_nat i).

Definition initial_config : dict :=
  [ ("target_disk", PNone);
    ("filesystem", PStr (str "ext4"));
    ("desktop_environment", PStr (str "xfce"));
    ("root_password", PStr []);
    ("username", PStr []);
    ("user_password", PStr []);
    ("user_fullname", PStr []);
    ("hostname", PStr (str "on1os"));
    ("language", PStr (str "en_US"));
    ("keyboard", PStr (str "us"));
    ("timezone", PStr (str "UTC"));
    ("mirror_country", PStr (str "global"));
    ("install_nvidia", PBool false);
    ("install_nonfree", PBool false) ].

(** [update_config] *)
Definition update_config (key : string) (v : value) (w : wizard) : wizard :=
  with_config (set key v (config w)) w.

(** The catalogs of the selection screens (the codes; the display names
    matter only for the mirror, which is looked up by name). *)
Definition languages : list pystr :=
  map str ["en_US"; "en_GB"; "es_ES"; "fr_FR"; "de_DE"; "pt_BR"; "it_IT";
           "ja_JP"; "zh_CN"; "ru_RU"].

Definition keyboards : list pystr :=
  map str ["us"; "gb"; "es"; "fr"; "de"; "pt"; "it"; "jp"; "ru"].

Definition mirrors : list (pystr * pystr) :=
  map (fun p => (str (fst p), str (snd p)))
      [("Global (deb.debian.org)", "global"); ("United States", "us");
       ("United Kingdom", "uk"); ("Germany", "de"); ("France", "fr");
       ("Japan", "jp"); ("Australia", "au"); ("Brazil", "br")].

Definition timezones : list pystr :=
  map str ["UTC"; "America/New_York"; "America/Chicago"; "America/Denver";
           "America/Los_Angeles"; "Europe/London"; "Europe/Paris";
           "Europe/Berlin"; "Asia/Tokyo"; "Asia/Shanghai";
           "Australia/Sydney"].

Definition desktops : list pystr :=
  map str ["xfce"; "gnome"; "kde"; "openbox"].

Definition filesystems : list pystr := map str ["ext4"; "btrfs"; "xfs"].

(** The loop over the lines of [lsblk -ndo NAME,SIZE,TYPE]. *)
Definition disk_of_line (line : pystr) : list pystr :=
  if nonempty line && contains (str "disk") line
  then match split line with
       | name :: size :: _ :: _ =>
           [str "/dev/" ++ name ++ str " (" ++ size ++ str ")"]
       | _ => []
       end
  else [].

(** The disks offered by [partition_step]; [None] stands for the
    subprocess raising. *)
Definition available_disks (lsblk : option pystr) : list pystr :=
  match lsblk with
  | Some stdout => flat_map disk_of_line (split_char 10 (strip stdout))
  | None => [str "/dev/sda (Unknown size)"]
  end.

Definition partition_step (lsblk : option pystr) (w : wizard) : wizard :=
  with_disk_values (available_disks lsblk) w.

(** What [Entry.insert] shows for a value. *)
Definition text_of (v : value) : pystr :=
  match v with
  | PStr s => s
  | PNone => str "None"
  | PBool true => str "True"
  | PBool false => str "False"
  end.

Definition blank_entries (host : pystr) : entries :=
  {| root_pass_entry := []; root_pass_confirm := []; fullname_entry := [];
     username_entry := []; user_pass_entry := []; user_pass_confirm := [];
     hostname_entry := host |}.

(** New, empty entries; the hostname one is filled from the record. *)
Definition users_step (w : wizard) : wizard * list effect :=
  match get "hostname" (config w) with
  | Some v => (with_users (Some (blank_entries (text_of v))) w, [])
  | None => (with_users (Some (blank_entries [])) w, [Traceback "KeyError"])
  end.

(** The thread starts on the record as it is: no widget of the install
    screen writes to it. *)
Definition install_step (w : wizard) : wizard * list effect :=
  let w1 := with_install (Some (str "Preparing installation...")) true w in
  let w2 := with_buttons false false (next_text w1) (next_command w1) w1 in
  (w2, [StartWorker (config w2)]).

(** The assignments of [summary_step], in its order. *)
Definition collect_users (e : entries) (c : dict) : dict :=
  let c := set "root_password" (PStr (root_pass_entry e)) c in
  let c := set "username" (PStr (username_entry e)) c in
  let c := set "user_password" (PStr (user_pass_entry e)) c in
  let c := set "user_fullname" (PStr (fullname_entry e)) c in
  set "hostname" (PStr (hostname_entry e)) c.

Section Toolkit.

(** [summary_step] reads the users screen's entries after [clear_content]
    has destroyed them.  Tk answers [Entry.get] on a destroyed widget with
    [TclError]; with [false] the object still answers with its last text.
    Every result below holds for both. *)
Variable stale_get_fails : bool.

Definition summary_step (w : wizard) : wizard * list effect :=
  match users w with
  | Some e =>
      if stale_get_fails then (w, [Traceback "TclError"])
      else (with_config (collect_users e (config w)) w, [])
  | None => (w, [])
  end.

Definition render (sc : screen) (lsblk : option pystr) (w : wizard)
  : wizard * list effect :=
  match sc with
  | Partition => (partition_step lsblk w, [])
  | Users => users_step w
  | Summary => summary_step w
  | Install => install_step w
  | Welcome | Language | Keyboard | Network | Timezone | Desktop | Drivers =>
      (w, [])
  end.

Definition show_step (lsblk : option pystr) (w : wizard)
  : wizard * list effect :=
  let w1 := with_buttons (0 <? current_step w)%Z (next_enabled w)
                         (next_text w) (next_command w) w in
  let w2 :=
    if (current_step w1 =? len_steps - 1)%Z
    then with_buttons (back_enabled w1) (next_enabled w1) "Restart"
                      CmdReboot w1
    else if (current_step w1 =? len_steps - 2)%Z
    then with_buttons (back_enabled w1) (next_enabled w1) "Install"
                      (next_command w1) w1
    else with_buttons (back_enabled w1) (next_enabled w1) "Next"
                      CmdNextStep w1 in
  match index steps (current_step w2) with
  | Some sc => render sc lsblk w2
  | None => (w2, [Traceback "IndexError"])
  end.

Definition error (message : string) : effect :=
  ShowError (str "Error") (str message).

(** The checks of the users screen, in the order of the source; the first
    one that fails gives the message. *)
Definition check_users (e : entries) : option string :=
  if negb (nonempty (root_pass_entry e))
  then Some "Root password is required."
  else if negb (eqb (root_pass_entry e) (root_pass_confirm e))
  then Some "Root passwords do not match."
  else if negb (nonempty (username_entry e))
  then Some "Username is required."
  else if negb (re_match username_re (username_entry e))
  then Some "Username must start with a letter and contain only lowercase letters and numbers."
  else if negb (nonempty (user_pass_entry e))
  then Some "User password is required."
  else if negb (eqb (user_pass_entry e) (user_pass_confirm e))
  then Some "User passwords do not match."
  else if negb (nonempty (hostname_entry e))
  then Some "Computer name is required."
  else if negb (re_match hostname_re (hostname_entry e))
  then Some "Computer name can only contain letters, numbers, and hyphens."
  else None.

Definition store_users (e : entries) (w : wizard) : wizard :=
  let w := update_config "root_password" (PStr (root_pass_entry e)) w in
  let w := update_config "user_password" (PStr (user_pass_entry e)) w in
  let w := update_config "username" (PStr (username_entry e)) w in
  let w := update_config "hostname" (PStr (hostname_entry e)) w in
  update_config "user_fullname" (PStr (fullname_entry e)) w.

Definition validate_current_step (w : wizard)
  : bool * wizard * list effect :=
  if (current_step w =? 5)%Z then
    if negb (truthy (get_or_none "target_disk" (config w)))
    then (false, w, [error "Please select a target disk."])
    else (true, w, [])
  else if (current_step w =? 8)%Z then
    match users w with
    | Some e =>
        match check_users e with
        | Some message => (false, w, [error message])
        | None => (true, store_users e w, [])
        end
    | None => (true, w, [])
    end
  else (true, w, []).

(** The body shared by the two validating branches of [next_step]. *)
Definition advance (lsblk : option pystr) (w : wizard)
  : wizard * list effect :=
  let '(ok, w1, fx) := validate_current_step w in
  if ok
  then let '(w2, fx2) :=
         show_step lsblk (with_step (current_step w1 + 1)%Z w1) in
       (w2, fx ++ fx2)
  else (w1, fx).

Definition next_step (lsblk : option pystr) (w : wizard)
  : wizard * list effect :=
  if (current_step w =? len_steps - 2)%Z then advance lsblk w
  else if (current_step w =? len_steps - 1)%Z then (w, [])
  else advance lsblk w.

Definition prev_step (lsblk : option pystr) (w : wizard)
  : wizard * list effect :=
  if (current_step w >? 0)%Z
  then show_step lsblk (with_step (current_step w - 1)%Z w)
  else (w, []).

(** The handlers bound to the selection widgets. *)
Definition choose (key : string) (values : list pystr) (i : nat) (w : wizard)
  : wizard :=
  match nth_error values i with
  | Some v => update_config key (PStr v) w
  | None => w
  end.

(** [[code for name, code in mirrors if name == var][0]] *)
Definition mirror_code (name : pystr) : option pystr :=
  match filter (fun p => eqb (fst p) name) mirrors with
  | p :: _ => Some (snd p)
  | [] => None
  end.

Definition on_mirror_selected (i : nat) (w : wizard) : wizard * list effect :=
  match nth_error (map fst mirrors) i with
  | Some name =>
      match mirror_code name with
      | Some code => (update_config "mirror_country" (PStr code) w, [])
      | None => (w, [Traceback "IndexError"])
      end
  | None => (w, [])
  end.

(** [update_config('target_disk', self.disk_var.get().split()[0])] *)
Definition on_disk_selected (i : nat) (w : wizard) : wizard * list effect :=
  match nth_error (disk_values w) i with
  | Some v =>
      match split v with
      | dev :: _ => (update_config "target_disk" (PStr dev) w, [])
      | [] => (w, [Traceback "IndexError"])
      end
  | None => (w, [])
  end.

(** A check button flips its variable, then stores it. *)
Definition toggle (key : string) (w : wizard) : wizard :=
  update_config key
    (PBool (negb (truthy (get_or_none key (config w))))) w.

Definition on_typed (f : field) (t : pystr) (w : wizard) : wizard :=
  match users w with
  | Some e => with_users (Some (type_into f t e)) w
  | None => w
  end.

(** What the user, and the machine through [lsblk], can do.  A widget only
    exists while its screen is shown.  [Next] and [Back] call the methods
    themselves; [ClickNext] and [ClickBack] go through the buttons, which may
    be disabled or rebound; [ClickQuit] asks whether to leave. *)
Inductive event :=
| Next (lsblk : option pystr)
| Back (lsblk : option pystr)
| ClickNext (lsblk : option pystr)
| ClickBack (lsblk : option pystr)
| SelectLanguage (i : nat)
| SelectKeyboard (i : nat)
| SelectMirror (i : nat)
| SelectTimezone (i : nat)
| SelectDisk (i : nat)
| SelectFilesystem (i : nat)
| SelectDesktop (i : nat)
| ToggleNvidia
| ToggleNonfree
| Type_ (f : field) (t : pystr)
| ClickQuit.

Definition on_screen (n : Z) (w : wizard) (r : wizard * list effect)
  : wizard * list effect :=
  if (current_step w =? n)%Z then r else (w, []).

Definition step (w : wizard) (ev : event) : wizard * list effect :=
  match ev with
  | Next lsblk => next_step lsblk w
  | Back lsblk => prev_step lsblk w
  | ClickNext lsblk =>
      if next_enabled w
      then match next_command w with
           | CmdNextStep => next_step lsblk w
           | CmdReboot => (w, [Reboot])
           end
      else (w, [])
  | ClickBack lsblk =>
      if back_enabled w then prev_step lsblk w else (w, [])
  | SelectLanguage i => on_screen 1 w (choose "language" languages i w, [])
  | SelectKeyboard i => on_screen 2 w (choose "keyboard" keyboards i w, [])
  | SelectMirror i => on_screen 3 w (on_mirror_selected i w)
  | SelectTimezone i => on_screen 4 w (choose "timezone" timezones i w, [])
  | SelectDisk i => on_screen 5 w (on_disk_selected i w)
  | SelectFilesystem i =>
      on_screen 5 w (choose "filesystem" filesystems i w, [])
  | SelectDesktop i =>
      on_screen 6 w (choose "desktop_environment" desktops i w, [])
  | ToggleNvidia => on_screen 7 w (toggle "install_nvidia" w, [])
  | ToggleNonfree => on_screen 7 w (toggle "install_nonfree" w, [])
  | Type_ f t => on_screen 8 w (on_typed f t w, [])
  | ClickQuit => (w, [AskQuit])
  end.

Fixpoint run (w : wizard) (evs : list event) : wizard :=
  match evs with
  | [] => w
  | ev :: evs' => run (fst (step w ev)) evs'
  end.

(** Everything the callbacks did along the way, oldest first. *)
Fixpoint effects (w : wizard) (evs : list event) : list effect :=
  match evs with
  | [] => []
  | ev :: evs' => snd (step w ev) ++ effects (fst (step w ev)) evs'
  end.

(** [__init__] followed by [setup_ui], which shows the first screen. *)
Definition init : wizard :=
  fst (show_step None
         {| config := initial_config; current_step := 0%Z; users := None;
            disk_values := []; back_enabled := true; next_enabled := true;
            next_text := "Next"; next_command := CmdNextStep;
            install_status := None; install_progress := false |}).

(** The wizard after the events [evs], from the start. *)
Definition reached (evs : list event) : wizard := run init evs.

End Toolkit.

End Wizard.

(* ------------------------------------------------------------------ *)
(** ** The worker thread and the callbacks it schedules *)

Module Install.

Import Py Json Wizard.

Definition backend_script : pystr :=
  str "/usr/local/share/on1os-installer/backend.sh".

Definition config_file : pystr := str "/tmp/on1os-install-config.json".

(** The files of the machine: the content found under a path. *)
Definition files := pystr -> option pystr.

Definition no_files : files := fun _ => None.

Definition write (path content : pystr) (f : files) : files :=
  fun q => if eqb q path then Some content else f q.

(** A backend process that exits, as the monitoring loop sees it: the loop
    ends when [poll()] answers, so a run is a finite list of turns. *)
Record process := {
  output : list pystr;           (* readline() on each turn of the loop *)
  monitor_error : option pystr;  (* str(e) if poll/readline raised then *)
  returncode : Z;
  unread : pystr;                (* process.communicate()[0] *)
  touches : files -> files       (* what the script did to the files *)
}.

(** What the worker meets outside the program. *)
Record machine := {
  backend_present : bool;        (* os.path.exists(backend_script) *)
  write_error : option pystr;    (* str(e) if open(config_file) raised *)
  launch : pystr + process       (* inl: str(e) of the exception of Popen *)
}.

(** The callables handed to [self.root.after(0, ...)].  The last one is the
    lambda of the [except] clause: it names [e], which Python looks up when
    the lambda is called; [during] is [str(e)] while the clause runs. *)
Inductive thunk :=
| SetStatus (text : pystr)
| Complete
| ErrorWith (message : pystr)
| ErrorWithE (during : pystr).

Inductive action :=
| WriteFile (path content : pystr)
| Popen (argv : list pystr) (p : process)
| After (t : thunk).

(** One turn of the monitoring loop. *)
Definition status_update (line : pystr) : list action :=
  if nonempty line && contains (str "] ") line
  then match after_first (str "] ") line with
       | Some rest => [After (SetStatus (strip rest))]
       | None => []
       end
  else [].

(** The monitoring loop and the test of the exit code.  [process.stdout] is
    the pipe object, which is never false, so the text of the failure is
    what [communicate] returns. *)
Definition monitor (p : process) : list action :=
  flat_map status_update (output p) ++
  match monitor_error p with
  | Some message => [After (ErrorWithE message)]
  | None =>
      if (returncode p =? 0)%Z then [After Complete]
      else [After (ErrorWith (unread p))]
  end.

Definition perform_installation (m : machine) (cfg : dict) : list action :=
  if negb (backend_present m)
  then [After (ErrorWith (str "Backend script not found: "
                          ++ backend_script))]
  else
    match write_error m with
    | Some message => [After (ErrorWithE message)]
    | None =>
        WriteFile config_file (dumps_indent2 cfg)
        :: After (SetStatus (str "Starting installation..."))
        :: match launch m with
           | inl message => [After (ErrorWithE message)]
           | inr p => Popen [backend_script] p :: monitor p
           end
    end.

(** The text of the exception the [try] block raises on [m], if it raises. *)
Definition raised (m : machine) : option pystr :=
  match write_error m, launch m with
  | Some message, _ => Some message
  | None, inl message => Some message
  | None, inr p => monitor_error p
  end.

(** The files once the worker has returned and the backend has exited. *)
Fixpoint files_after (acts : list action) (f : files) : files :=
  match acts with
  | [] => f
  | WriteFile path content :: acts' => files_after acts' (write path content f)
  | Popen _ p :: acts' => files_after acts' (touches p f)
  | After _ :: acts' => files_after acts' f
  end.

(** Every argument list given to a process. *)
Fixpoint argument_lists (acts : list action) : list (list pystr) :=
  match acts with
  | [] => []
  | Popen argv _ :: acts' => argv :: argument_lists acts'
  | _ :: acts' => argument_lists acts'
  end.

Fixpoint scheduled (acts : list action) : list thunk :=
  match acts with
  | [] => []
  | After t :: acts' => t :: scheduled acts'
  | _ :: acts' => scheduled acts'
  end.

Definition installation_complete (w : wizard) : wizard * list effect :=
  (with_install (Some (str "Installation completed successfully!")) false w,
   [ShowInfo (str "Installation Complete")
             (str "on1OS has been installed successfully!" ++ [10; 10]
              ++ str "Please reboot your computer.");
    AskQuit]).

Definition installation_error (error_msg : pystr) (w : wizard)
  : wizard * list effect :=
  let w1 := with_install (Some (str "Installation failed!")) false w in
  (with_buttons true true (next_text w1) (next_command w1) w1,
   [ShowError (str "Installation Error")
              (str "Installation failed with error:" ++ [10] ++ error_msg)]).

(** The main loop calls one scheduled callable.  The worker and the main
    loop are two threads: [clause_left] tells whether the worker has left
    its [except] clause by the time the main loop makes the call.  Leaving
    the clause unbinds [e], and it is all the worker has left to do once
    [after] has returned. *)
Definition dispatch (clause_left : bool) (t : thunk) (w : wizard)
  : wizard * list effect :=
  match t with
  | SetStatus text =>
      (with_install (Some text) (install_progress w) w, [])
  | Complete => installation_complete w
  | ErrorWith message => installation_error message w
  | ErrorWithE during =>
      if clause_left then (w, [Traceback "NameError"])
      else installation_error during w
  end.

Fixpoint mainloop (clause_left : bool) (ts : list thunk) (w : wizard)
  : wizard * list effect :=
  match ts with
  | [] => (w, [])
  | t :: ts' =>
      let '(w1, fx1) := dispatch clause_left t w in
      let '(w2, fx2) := mainloop clause_left ts' w1 in
      (w2, fx1 ++ fx2)
  end.

(** A whole run on the install screen [w], under either order of the two
    threads at the end of the [except] clause. *)
Definition installation_run (clause_left : bool) (m : machine) (w : wizard)
  : wizard * list effect :=
  mainloop clause_left (scheduled (perform_installation m (config w))) w.

(** What the user has been told when the run is over. *)
Inductive report :=
| Succeeded
| FailedWith (text : pystr)
| Nothing.

Fixpoint report_of (fx : list effect) : report :=
  match fx with
  | [] => Nothing
  | ShowInfo _ _ :: _ => Succeeded
  | ShowError _ message :: _ => FailedWith message
  | _ :: fx' => report_of fx'
  end.

End Install.

(* ------------------------------------------------------------------ *)
(** ** The engine's disk preparation *)

Module Engine.

Import Py.

(** Modelled from the spec: the installation engine ([backend.sh]) is
    missing from the sources.  This is the Configuration Record of its
    section 3, with the field names written there. *)
Record configuration := {
  target_disk : pystr;
  filesystem : pystr;
  desktop_environment : pystr;
  locale : pystr;
  keyboard_layout : pystr;
  timezone : pystr;
  mirror_region : pystr;
  hostname : pystr;
  username : pystr;
  root_password : pystr;
  user_password : pystr;
  user_fullname : pystr;
  install_nvidia : bool;
  install_nonfree : bool
}.

(** Modelled from the spec: the stages of a run (section 2). *)
Inductive stage :=
| DiskPreparation | SystemDeployment | SystemConfiguration | Bootloader.

(** Modelled from the spec: the error taxonomy (section 7). *)
Inductive error_kind :=
| ConfigurationInvalid | PreconditionFailed | ToolExecutionFailed
| ResourceBusy.

(** Modelled from the spec: the calls to external tools that the stages
    make (section 4); the first two destroy data. *)
Inductive operation :=
| WritePartitionTable (device : pystr)
| FormatPartition (device fs : pystr)
| MountWorkRoot (device : pystr)
| CopyLiveSystem
| ConfigureSystem
| InstallBootloader (device : pystr).

(** Modelled from the spec: the terminal states of an Installation Run
    (section 3). *)
Inductive outcome :=
| Completed
| Failed (st : stage) (kind : error_kind) (cause : pystr).

(** Modelled from the spec: the machine the engine runs on, as far as
    sections 4.1 and 7 speak of it; [tool] gives the diagnostic text of a
    call that returns non-zero. *)
Record host := {
  block_devices : list pystr;
  live_device : pystr;
  busy_devices : list pystr;
  tool : operation -> option pystr
}.

(** Modelled from the spec: membership of a device or filesystem name. *)
Definition mem (x : pystr) (l : list pystr) : bool := existsb (eqb x) l.

(** Modelled from the spec: the calls run in order and the first that
    fails ends them (section 7, [ToolExecutionFailed]). *)
Fixpoint run_tools (h : host) (ops : list operation)
  : list operation * option pystr :=
  match ops with
  | [] => ([], None)
  | op :: ops' =>
      match tool h op with
      | Some diagnostic => ([op], Some diagnostic)
      | None => let '(done, r) := run_tools h ops' in (op :: done, r)
      end
  end.

(** Modelled from the spec: Disk Preparation (section 4.1), missing from
    the sources.  The preconditions (the device exists and is not the one
    hosting the live medium) are checked first, then exclusivity, then the
    filesystem; only then do the tools run. *)
Definition disk_preparation (h : host) (c : configuration)
  : list operation * option (error_kind * pystr) :=
  if negb (mem (target_disk c) (block_devices h))
  then ([], Some (PreconditionFailed, str "device missing"))
  else if eqb (target_disk c) (live_device h)
  then ([], Some (PreconditionFailed, str "device is the live medium"))
  else if mem (target_disk c) (busy_devices h)
  then ([], Some (ResourceBusy, str "device in use"))
  else if negb (mem (filesystem c) (map str ["ext4"; "btrfs"; "xfs"]))
  then ([], Some (ToolExecutionFailed, str "unsupported filesystem"))
  else
    let '(done, r) :=
      run_tools h [WritePartitionTable (target_disk c);
                   FormatPartition (target_disk c) (filesystem c);
                   MountWorkRoot (target_disk c)] in
    (done, option_map (fun d => (ToolExecutionFailed, d)) r).

(** Modelled from the spec: a stage that only calls tools (sections 4.2
    to 4.4). *)
Definition tool_stage (h : host) (ops : list operation)
  : list operation * option (error_kind * pystr) :=
  let '(done, r) := run_tools h ops in
  (done, option_map (fun d => (ToolExecutionFailed, d)) r).

(** Modelled from the spec: the Execution Supervisor (section 4.5), missing
    from the sources.  The stages run in order and the first failure ends
    the run. *)
Fixpoint supervise
  (stages : list (stage * (list operation * option (error_kind * pystr))))
  : list operation * outcome :=
  match stages with
  | [] => ([], Completed)
  | (st, (done, Some (kind, cause))) :: _ => (done, Failed st kind cause)
  | (_, (done, None)) :: stages' =>
      let '(done', o) := supervise stages' in (done ++ done', o)
  end.

(** Modelled from the spec: a whole run of the engine (section 4.5). *)
Definition run_engine (h : host) (c : configuration)
  : list operation * outcome :=
  supervise
    [(DiskPreparation, disk_preparation h c);
     (SystemDeployment, tool_stage h [CopyLiveSystem]);
     (SystemConfiguration, tool_stage h [ConfigureSystem]);
     (Bootloader, tool_stage h [InstallBootloader (target_disk c)])].

End Engine.

(* ------------------------------------------------------------------ *)
(** ** The patterns as full matches *)

Module Claimed.

Import Py Re.

(** The pattern [[a-z][a-z0-9]*] taken as a match of the whole string. *)
Definition username_fullmatch (s : pystr) : bool :=
  match s with
  | c :: r => in_class lower c && forallb (in_class lower_digit) r
  | [] => false
  end.

(** The pattern [[A-Za-z0-9-]+] taken as a match of the whole string. *)
Definition hostname_fullmatch (s : pystr) : bool :=
  nonempty s && forallb (in_class alnum_hyphen) s.

(** A record as the backend is to get it: a disk is chosen, both passwords
    are non-empty, and the user name and the computer name match their
    patterns in full.  (That a password equals its confirmation is said of
    the entries; the record holds no confirmation.) *)
Definition validated (c : dict) : Prop :=
  exists d r p u h,
    get "target_disk" c = Some (PStr d) /\ d <> []
    /\ get "root_password" c = Some (PStr r) /\ r <> []
    /\ get "user_password" c = Some (PStr p) /\ p <> []
    /\ get "username" c = Some (PStr u) /\ username_fullmatch u = true
    /\ get "hostname" c = Some (PStr h) /\ hostname_fullmatch h = true.

End Claimed.

(* ------------------------------------------------------------------ *)
(** ** What holds of the states the wizard can reach *)

Module Reach.

Import Py Re Wizard.

(** A target disk has been chosen. *)
Definition has_disk (c : dict) : Prop :=
  exists d, get "target_disk" c = Some (PStr d) /\ d <> [].

(** The record holds what the entries of the users screen hold. *)
Definition recorded (e : entries) (c : dict) : Prop :=
  get "root_password" c = Some (PStr (root_pass_entry e)) /\
  get "user_password" c = Some (PStr (user_pass_entry e)) /\
  get "username" c = Some (PStr (username_entry e)) /\
  get "hostname" c = Some (PStr (hostname_entry e)) /\
  get "user_fullname" c = Some (PStr (fullname_entry e)).

(** The entries pass every check of the users screen. *)
Definition passes (e : entries) : Prop :=
  root_pass_entry e <> [] /\ root_pass_entry e = root_pass_confirm e /\
  re_match username_re (username_entry e) = true /\
  user_pass_entry e <> [] /\ user_pass_entry e = user_pass_confirm e /\
  re_match hostname_re (hostname_entry e) = true.

(** The part of the invariant that speaks of the record alone. *)
Definition well_formed (c : dict) : Prop :=
  keys c = keys initial_config /\
  (exists fs, get "filesystem" c = Some (PStr fs) /\ In fs filesystems) /\
  (get "target_disk" c = Some PNone \/ has_disk c).

Definition consistent (w : wizard) : Prop :=
  well_formed (config w) /\
  (0 <= current_step w <= 10)%Z /\
  (5 < current_step w -> has_disk (config w))%Z /\
  (8 <= current_step w -> users w <> None)%Z /\
  (9 <= current_step w ->
   exists e, users w = Some e /\ check_users e = None
             /\ recorded e (config w))%Z.

(** A string without blanks, as the fields of [split] are. *)
Definition solid (s : pystr) : Prop :=
  forallb (fun c => negb (isspace c)) s = true.

(** The keys the users and summary screens write. *)
Definition account_keys : list string :=
  ["root_password"; "user_password"; "username"; "hostname";
   "user_fullname"].

End Reach.

(* ------------------------------------------------------------------ *)
(** ** Sample sessions *)

Module Sample.

Import Py Wizard Install.

(** Five times Next: from the welcome screen to the partition screen, on a
    machine where [lsblk] cannot be run. *)
Definition to_partition : list event :=
  [Next None; Next None; Next None; Next None; Next None].

(** Choosing the only disk offered, then on to the users screen. *)
Definition to_users : list event :=
  to_partition ++ [SelectDisk 0; Next None; Next None; Next None].

(** Filling the users screen for the account [name] with the passwords
    [root_pw] and [user_pw]; the computer name is left as proposed. *)
Definition fill_accounts (name root_pw user_pw : pystr) : list event :=
  [Type_ RootPass root_pw; Type_ RootConfirm root_pw;
   Type_ Username name;
   Type_ UserPass user_pw; Type_ UserConfirm user_pw].

(** Up to the summary screen, where Next reads Install. *)
Definition to_summary (name root_pw user_pw : pystr) : list event :=
  to_users ++ fill_accounts name root_pw user_pw ++ [Next None].

(** The users screen filled for the account [a], before Next is pressed,
    and its entries. *)
Definition named_screen : wizard :=
  reached true (to_users ++ fill_accounts (str "a") (str "r00t")
                                          (str "s3cret")).

Definition named_entries : entries :=
  {| root_pass_entry := str "r00t"; root_pass_confirm := str "r00t";
     fullname_entry := []; username_entry := str "a";
     user_pass_entry := str "s3cret"; user_pass_confirm := str "s3cret";
     hostname_entry := str "on1os" |}.

(** The same name with the newline that pasted text may end with. *)
Definition pasted_name : pystr := str "a" ++ [10].

(** Passwords made of shell metacharacters. *)
Definition root_secret : pystr := str "$(reboot); rm -rf / #".
Definition user_secret : pystr := str "p w'*?|&`x`".

(** The record the worker is started with in a session that uses them. *)
Definition secret_record : dict :=
  config (fst (step true
                 (reached true (to_summary (str "alice") root_secret
                                           user_secret))
                 (Next None))).

(** The install screen of that session. *)
Definition install_screen : wizard :=
  fst (step true
         (reached true (to_summary (str "alice") root_secret user_secret))
         (Next None)).

(** A backend that prints two log lines and exits with 0, leaving the files
    alone. *)
Definition quiet_backend : process :=
  {| output := [str "[12:00:01] Partitioning disk" ++ [10];
                str "[12:04:17] Installing bootloader" ++ [10]];
     monitor_error := None; returncode := 0%Z; unread := [];
     touches := fun f => f |}.

Definition working_machine : machine :=
  {| backend_present := true; write_error := None;
     launch := inr quiet_backend |}.

(** The backend script is there but cannot be executed: [Popen] raises
    [PermissionError]. *)
Definition unlaunchable_machine : machine :=
  {| backend_present := true; write_error := None;
     launch := inl (str "[Errno 13] Permission denied") |}.

(** The configuration file when the run is over, on a machine that had no
    files before. *)
Definition left_behind (m : machine) (cfg : dict) : option pystr :=
  files_after (perform_installation m cfg) no_files config_file.

(** A machine booted from a stick, [/dev/sdb], next to its disk. *)
Definition live_usb_host : Engine.host :=
  {| Engine.block_devices := [str "/dev/sda"; str "/dev/sdb"];
     Engine.live_device := str "/dev/sdb";
     Engine.busy_devices := [str "/dev/sdb"];
     Engine.tool := fun _ => None |}.

(** What [lsblk -ndo NAME,SIZE,TYPE] prints there. *)
Definition live_usb_lsblk : pystr :=
  str "sda   500G disk" ++ [10] ++ str "sdb    16G disk" ++ [10]
  ++ str "sr0  1024M rom" ++ [10].

(** A session on that machine in which the user picks the second disk
    offered, fills the users screen and presses Next up to the summary. *)
Definition stick_session : list event :=
  [Next None; Next None; Next None; Next None; Next (Some live_usb_lsblk);
   SelectDisk 1; Next None; Next None; Next None]
  ++ fill_accounts (str "alice") (str "r00t") (str "s3cret")
  ++ [Next None].

(** The record the worker is started with at the end of that session. *)
Definition stick_record : dict :=
  config (fst (step true (reached true stick_session) (Next None))).

Definition request (target : pystr) : Engine.configuration :=
  {| Engine.target_disk := target; Engine.filesystem := str "ext4";
     Engine.desktop_environment := str "xfce";
     Engine.locale := str "en_US"; Engine.keyboard_layout := str "us";
     Engine.timezone := str "UTC"; Engine.mirror_region := str "global";
     Engine.hostname := str "on1os"; Engine.username := str "alice";
     Engine.root_password := str "r00t";
     Engine.user_password := str "s3cret"; Engine.user_fullname := [];
     Engine.install_nvidia := false; Engine.install_nonfree := false |}.

End Sample.

(* ------------------------------------------------------------------ *)
(** ** The text of the summary screen *)

Module Summary.

Import Py Wizard.



End Summary.

(* ------------------------------------------------------------------ *)
(** ** The wizard and the worker's callables together *)

Module Session.

Import Py Wizard Install.

(** What happens to the installer object: an event of the user, or the main
    loop calling a callable that a worker scheduled. *)
Inductive happening :=
| User (ev : event)
| Callback (clause_left : bool) (t : thunk).

Section Toolkit.

Variable stale_get_fails : bool.

Definition happen (w : wizard) (h : happening) : wizard * list effect :=
  match h with
  | User ev => step stale_get_fails w ev
  | Callback clause_left t => dispatch clause_left t w
  end.

Fixpoint unfold_session (w : wizard) (hs : list happening) : wizard :=
  match hs with
  | [] => w
  | h :: hs' => unfold_session (fst (happen w h)) hs'
  end.

(** The installer object after [hs], from the start. *)
Definition after (hs : list happening) : wizard :=
  unfold_session (init stale_get_fails) hs.

End Toolkit.

End Session.

(* ------------------------------------------------------------------ *)
(** ** How the record may change *)

Module Changes.

Import Py Re Wizard.

(** The record after the five assignments that follow a successful check of
    the users screen. *)
Definition stored_accounts (e : entries) (c : dict) : dict :=
  set "user_fullname" (PStr (fullname_entry e))
    (set "hostname" (PStr (hostname_entry e))
       (set "username" (PStr (username_entry e))
          (set "user_password" (PStr (user_pass_entry e))
             (set "root_password" (PStr (root_pass_entry e)) c)))).

(** The keys of the selection widgets, each with the values it offers. *)
Definition catalogs : list (string * list pystr) :=
  [("language", languages); ("keyboard", keyboards);
   ("mirror_country", map snd mirrors); ("timezone", timezones);
   ("filesystem", filesystems); ("desktop_environment", desktops)].

Definition flags : list string := ["install_nvidia"; "install_nonfree"].

(** The ways one event may change the record. *)
Inductive change (c : dict) : dict -> Prop :=
| Unchanged : change c c
| Chosen (k : string) (values : list pystr) (v : pystr) :
    In (k, values) catalogs -> In v values ->
    change c (set k (PStr v) c)
| DiskChosen (d : pystr) :
    d <> [] -> change c (set "target_disk" (PStr d) c)
| Toggled (k : string) (b : bool) :
    In k flags -> change c (set k (PBool b) c)
| AccountsStored (e : entries) :
    check_users e = None -> change c (stored_accounts e c).

(** Every catalog field holds a value of its catalog and both flags hold a
    boolean. *)
Definition catalogued (c : dict) : Prop :=
  (forall k values, In (k, values) catalogs ->
                    exists v, get k c = Some (PStr v) /\ In v values)
  /\ (forall k, In k flags -> exists b, get k c = Some (PBool b)).

(** The account fields are those of [__init__], or together those of
    entries that passed the checks of the users screen. *)
Definition accounts_coherent (c : dict) : Prop :=
  (get "root_password" c = Some (PStr [])
   /\ get "user_password" c = Some (PStr [])
   /\ get "username" c = Some (PStr [])
   /\ get "hostname" c = Some (PStr (str "on1os"))
   /\ get "user_fullname" c = Some (PStr []))
  \/ exists e, check_users e = None /\ Reach.recorded e c.

(** The text of the Next button on each screen. *)
Definition label (n : Z) : string :=
  if (n =? 10)%Z then "Restart" else if (n =? 9)%Z then "Install"
  else "Next".

(** The Next button as [show_step] leaves it. *)
Definition button_shown (w : wizard) : Prop :=
  next_text w = label (current_step w)
  /\ ((current_step w <= 8)%Z -> next_command w = CmdNextStep)
  /\ (current_step w = 10%Z -> next_command w = CmdReboot).

(** The buttons as [show_step] sets them before it draws the screen. *)
Definition buttons_for (w : wizard) : wizard :=
  with_buttons (0 <? current_step w)%Z (next_enabled w)
               (label (current_step w))
               (if (current_step w =? 10)%Z then CmdReboot
                else if (current_step w =? 9)%Z then next_command w
                else CmdNextStep) w.

(** An entry of the disk selector: a device path made of a non-empty name
    without blanks, a blank, and a size in brackets. *)
Definition offered_form (v : pystr) : Prop :=
  exists name size,
    name <> [] /\ Reach.solid name
    /\ v = str "/dev/" ++ name ++ str " (" ++ size ++ str ")".

(** An event on a machine where [lsblk] runs and lists nothing that
    [partition_step] takes for a disk. *)
Definition finds_no_disk (ev : event) : Prop :=
  match ev with
  | Next l | Back l | ClickNext l | ClickBack l => available_disks l = []
  | _ => True
  end.

(** A character that needs no escape in a JSON string, or the newline of
    the indentation. *)
Definition plain (c : N) : bool := ((32 <=? c) && (c <=? 126)) || (c =? 10).

(** A callable that ends a run, unlike a change of the status text. *)
Definition is_outcome (t : Install.thunk) : bool :=
  match t with
  | Install.SetStatus _ => false
  | _ => true
  end.

End Changes.

(* ------------------------------------------------------------------ *)
(** ** What [lsblk -ndo NAME,SIZE,TYPE] prints *)

Module Lsblk.

Import Py Wizard.

(** One row: the three fields, and how many blanks more than one stand
    before the second and the third. *)
Record row := {
  row_name : pystr;
  row_size : pystr;
  row_type : pystr;
  gap_size : nat;
  gap_type : nat
}.

Definition blanks (n : nat) : pystr := repeat 32 (S n).

Definition line_of (r : row) : pystr :=
  row_name r ++ blanks (gap_size r) ++ row_size r
  ++ blanks (gap_type r) ++ row_type r.

(** The output: every row on a line of its own. *)
Definition printed (rows : list row) : pystr :=
  flat_map (fun r => line_of r ++ [10]) rows.

(** A field is not empty and holds no blank. *)
Definition field (s : pystr) : Prop := s <> [] /\ Reach.solid s.

Definition proper (r : row) : Prop :=
  field (row_name r) /\ field (row_size r) /\ field (row_type r).

(** The letters [disk] stand somewhere on the line of the row. *)
Definition mentions_disk (r : row) : bool :=
  contains (str "disk") (line_of r).

(** The entry of the selector made of a row. *)
Definition entry_of (r : row) : pystr :=
  str "/dev/" ++ row_name r ++ str " (" ++ row_size r ++ str ")".

End Lsblk.

(* ------------------------------------------------------------------ *)
(** ** Sample sessions with the worker's callables *)

Module Trial.

Import Py Wizard Install Session.

(** Up to the partition screen, where [lsblk] cannot be run. *)
Definition at_partition : list happening := map User Sample.to_partition.

(** With the only disk offered, up to the drivers screen. *)
Definition at_drivers : list happening :=
  map User (Sample.to_partition ++ [SelectDisk 0; Next None; Next None]).

(** Up to the summary screen, for the account [alice]. *)
Definition at_summary : list happening :=
  map User (Sample.to_summary (str "alice") (str "r00t") (str "s3cret")).

(** On to the install screen. *)
Definition at_install : list happening := at_summary ++ [User (Next None)].

(** What [lsblk] prints on a machine with an optical drive only. *)
Definition drive_only : pystr := str "sr0  1024M rom" ++ [10].

(** A user who tries to get on there. *)
Definition stuck : list event :=
  [Next (Some drive_only); Next (Some drive_only); Next (Some drive_only);
   Next (Some drive_only); Next (Some drive_only); SelectDisk 0;
   ClickNext (Some drive_only); SelectFilesystem 1;
   Next (Some drive_only)].

(** A backend that stops with exit code 1 after one log line. *)
Definition failing_backend : process :=
  {| output := [str "[12:00:01] Partitioning disk" ++ [10]];
     monitor_error := None; returncode := 1%Z;
     unread := str "mkfs.ext4: cannot open /dev/sda1" ++ [10];
     touches := fun f => f |}.

Definition failing_machine : machine :=
  {| backend_present := true; write_error := None;
     launch := inr failing_backend |}.

(** The users screen filled for the account [a]. *)
Definition filled : list event :=
  Sample.to_users
  ++ Sample.fill_accounts (str "a") (str "r00t") (str "s3cret").

(** The rows of a machine with two disks and an optical drive, and with a
    USB stick that was labelled [mydisk] by its maker and is listed as a
    partition. *)
Definition some_rows : list Lsblk.row :=
  [ {| Lsblk.row_name := str "sda"; Lsblk.row_size := str "500G";
       Lsblk.row_type := str "disk"; Lsblk.gap_size := 2;
       Lsblk.gap_type := 0 |};
    {| Lsblk.row_name := str "sr0"; Lsblk.row_size := str "1024M";
       Lsblk.row_type := str "rom"; Lsblk.gap_size := 1;
       Lsblk.gap_type := 0 |};
    {| Lsblk.row_name := str "mydisk"; Lsblk.row_size := str "16G";
       Lsblk.row_type := str "part"; Lsblk.gap_size := 0;
       Lsblk.gap_type := 0 |};
    {| Lsblk.row_name := str "nvme0n1"; Lsblk.row_size := str "1T";
       Lsblk.row_type := str "disk"; Lsblk.gap_size := 0;
       Lsblk.gap_type := 3 |} ].

End Trial.
(* ------------------------------------------------------------------ *)
(** * Properties *)

Import Py Re Json Wizard.

(** ** Strings and dictionaries *)

Lemma eqb_refl (s : pystr) : eqb s s = true.
Proof.
  induction s as [|c s IH]; simpl; [reflexivity|].
  now rewrite N.eqb_refl.
Qed.

Lemma eqb_eq (a b : pystr) : eqb a b = true <-> a = b.
Proof.
  split; [|intros ->; apply eqb_refl].
  revert b; induction a as [|x a IH]; intros [|y b]; simpl; try easy.
  intros H; apply andb_prop in H; destruct H as [Hx Hab].
  apply N.eqb_eq in Hx; subst; f_equal; auto.
Qed.

Lemma nonempty_true (s : pystr) : nonempty s = true <-> s <> [].
Proof. destruct s; simpl; split; congruence. Qed.

(** The fields that [split] returns are never empty. *)
Lemma split_from_fields (s cur : pystr) (t : pystr) :
  In t (split_from cur s) -> t <> [].
Proof.
  revert cur; induction s as [|c s IH]; intros cur; simpl.
  - destruct cur as [|x cur]; simpl; [tauto|].
    intros [<-|[]] H. apply (f_equal (@List.length N)) in H.
    rewrite length_app in H; simpl in H; lia.
  - destruct (isspace c).
    + destruct cur as [|x cur]; [apply IH|].
      intros [<-|H]; [|now apply IH in H].
      intros H. apply (f_equal (@List.length N)) in H.
      simpl in H; rewrite length_app in H; simpl in H; lia.
    + apply IH.
Qed.

Lemma split_head (v dev : pystr) (l : list pystr) :
  split v = dev :: l -> dev <> [].
Proof.
  intros H; apply (split_from_fields v []); unfold split in H.
  rewrite H; now left.
Qed.

Lemma get_set_same (k : string) (v : value) (d : dict) :
  get k (set k v d) = Some v.
Proof.
  induction d as [|[k' v'] d IH]; simpl.
  - now rewrite String.eqb_refl.
  - destruct (String.eqb k k') eqn:E; simpl; rewrite ?String.eqb_refl, ?E; auto.
Qed.

Lemma get_set_other (k k' : string) (v : value) (d : dict) :
  k <> k' -> get k' (set k v d) = get k' d.
Proof.
  intros Hk; induction d as [|[k0 v0] d IH]; simpl.
  - destruct (String.eqb k' k) eqn:E; [|easy].
    apply String.eqb_eq in E; congruence.
  - destruct (String.eqb k k0) eqn:E; simpl.
    + apply String.eqb_eq in E; subst k0.
      destruct (String.eqb k' k) eqn:E'; [|easy].
      apply String.eqb_eq in E'; congruence.
    + now rewrite IH.
Qed.

(** Assigning to a key the dictionary has keeps the keys and their order. *)
Lemma keys_set (k : string) (v : value) (d : dict) :
  In k (keys d) -> keys (set k v d) = keys d.
Proof.
  induction d as [|[k' v'] d IH]; simpl; [tauto|].
  destruct (String.eqb k k') eqn:E; simpl.
  - apply String.eqb_eq in E; now subst.
  - intros [->|H]; [now rewrite String.eqb_refl in E|now rewrite IH].
Qed.

(** ** What [re.match] accepts *)

Import Claimed.

Lemma at_eol_spec (s : pystr) : at_eol s = true <-> s = [] \/ s = [10].
Proof.
  destruct s as [|c [|d s]]; simpl.
  - tauto.
  - rewrite N.eqb_eq. split; [intros ->; now right|].
    intros [|H]; [discriminate|congruence].
  - split; [|intros [|]]; discriminate.
Qed.

(** A starred class followed by [$]: some characters of the class, then the
    end of the string or its last newline. *)
Lemma star_eol (cl : class) (s : pystr) (bos : bool) :
  match_here [Star cl; Eol] bos s = true <->
  exists body tail, s = body ++ tail /\ forallb (in_class cl) body = true
                    /\ at_eol tail = true.
Proof.
  revert bos; induction s as [|c s IH]; intros bos.
  - simpl. split; [intros _; exists [], []; auto|reflexivity].
  - change (match_here [Star cl; Eol] bos (c :: s))
      with ((in_class cl c && match_here [Star cl; Eol] false s)
            || (at_eol (c :: s) && true)).
    rewrite orb_true_iff, !andb_true_iff, IH. split.
    + intros [[Hc (body & tail & -> & Hb & Ht)]|[H _]].
      * exists (c :: body), tail; simpl; rewrite Hc, Hb; auto.
      * exists [], (c :: s); auto.
    + intros ([|x body] & tail & E & Hb & Ht); simpl in E.
      * subst tail; right; auto.
      * injection E as -> ->. simpl in Hb; apply andb_prop in Hb.
        left; split; [tauto|]. exists body, tail; tauto.
Qed.

Lemma username_re_spec (s : pystr) :
  re_match username_re s = true <->
  exists c body tail, s = c :: body ++ tail /\ in_class lower c = true
    /\ forallb (in_class lower_digit) body = true /\ (tail = [] \/ tail = [10]).
Proof.
  unfold re_match, username_re.
  destruct s as [|c s].
  - simpl. split; [discriminate|intros (c & b & t & E & _); discriminate].
  - change (match_here [Bol; One lower; Star lower_digit; Eol] true (c :: s))
      with (true && (in_class lower c
                     && match_here [Star lower_digit; Eol] false s)).
    rewrite andb_true_l, andb_true_iff, star_eol. split.
    + intros [Hc (body & tail & -> & Hb & Ht)].
      exists c, body, tail. rewrite <- at_eol_spec. auto.
    + intros (c' & body & tail & E & Hc & Hb & Ht). injection E as <- ->.
      split; [assumption|]. exists body, tail. rewrite at_eol_spec. auto.
Qed.

Lemma hostname_re_spec (s : pystr) :
  re_match hostname_re s = true <->
  exists c body tail, s = c :: body ++ tail
    /\ forallb (in_class alnum_hyphen) (c :: body) = true
    /\ (tail = [] \/ tail = [10]).
Proof.
  unfold re_match, hostname_re.
  destruct s as [|c s].
  - simpl. split; [discriminate|intros (c & b & t & E & _); discriminate].
  - change (match_here [Bol; Plus alnum_hyphen; Eol] true (c :: s))
      with (true && (in_class alnum_hyphen c
                     && match_here [Star alnum_hyphen; Eol] false s)).
    rewrite andb_true_l, andb_true_iff, star_eol. split.
    + intros [Hc (body & tail & -> & Hb & Ht)].
      exists c, body, tail. cbn [forallb]. rewrite Hc, Hb, <- at_eol_spec. auto.
    + intros (c' & body & tail & E & Hb & Ht). injection E as <- ->.
      cbn [forallb] in Hb. apply andb_prop in Hb.
      split; [tauto|]. exists body, tail. rewrite at_eol_spec. tauto.
Qed.

(** [re.match] with [^...$] accepts the full matches and, besides them, a
    full match followed by one newline. *)
Lemma username_re_fullmatch (s : pystr) :
  re_match username_re s = true <->
  username_fullmatch s = true
  \/ exists s', s = s' ++ [10] /\ username_fullmatch s' = true.
Proof.
  rewrite username_re_spec. unfold username_fullmatch. split.
  - intros (c & body & tail & -> & Hc & Hb & [->| ->]).
    + left. rewrite app_nil_r. now rewrite Hc, Hb.
    + right. exists (c :: body). now rewrite Hc, Hb.
  - intros [H|(s' & -> & H)].
    + destruct s as [|c r]; [discriminate|].
      apply andb_prop in H. exists c, r, []. rewrite app_nil_r. tauto.
    + destruct s' as [|c r]; [discriminate|].
      apply andb_prop in H. exists c, r, [10]. tauto.
Qed.

Lemma hostname_re_fullmatch (s : pystr) :
  re_match hostname_re s = true <->
  hostname_fullmatch s = true
  \/ exists s', s = s' ++ [10] /\ hostname_fullmatch s' = true.
Proof.
  rewrite hostname_re_spec. unfold hostname_fullmatch. split.
  - intros (c & body & tail & -> & Hb & [->| ->]).
    + left. rewrite app_nil_r. now rewrite Hb.
    + right. exists (c :: body). now rewrite Hb.
  - intros [H|(s' & -> & H)].
    + destruct s as [|c r]; [discriminate|].
      exists c, r, []. rewrite app_nil_r. cbn [nonempty andb] in H. tauto.
    + destruct s' as [|c r]; [discriminate|].
      exists c, r, [10]. cbn [nonempty andb] in H. tauto.
Qed.

(** ** The record under assignment *)

Import Reach.

Lemma initial_keys (k : string) :
  In k (keys initial_config) <->
  In k ["target_disk"; "filesystem"; "desktop_environment"; "root_password";
        "username"; "user_password"; "user_fullname"; "hostname"; "language";
        "keyboard"; "timezone"; "mirror_country"; "install_nvidia";
        "install_nonfree"].
Proof. reflexivity. Qed.

Lemma has_disk_set (k : string) (v : value) (c : dict) :
  k <> "target_disk" -> has_disk c -> has_disk (set k v c).
Proof.
  intros Hk (d & Hd & Hne). exists d. now rewrite get_set_other.
Qed.

Lemma has_disk_chosen (d : pystr) (c : dict) :
  d <> [] -> has_disk (set "target_disk" (PStr d) c).
Proof. intros Hd. exists d. now rewrite get_set_same. Qed.

Lemma well_formed_set (k : string) (v : value) (c : dict) :
  In k (keys initial_config) -> k <> "filesystem" -> k <> "target_disk" ->
  well_formed c -> well_formed (set k v c).
Proof.
  intros Hin Hfs Htd (Hk & Hf & Hd). repeat split.
  - rewrite keys_set; [assumption|now rewrite Hk].
  - now rewrite get_set_other.
  - rewrite get_set_other by assumption.
    destruct Hd as [Hd|Hd]; [now left|right; now apply has_disk_set].
Qed.

Lemma well_formed_filesystem (fs : pystr) (c : dict) :
  In fs filesystems -> well_formed c ->
  well_formed (set "filesystem" (PStr fs) c).
Proof.
  intros Hin (Hk & Hf & Hd). repeat split.
  - rewrite keys_set; [assumption|rewrite Hk; simpl; tauto].
  - exists fs. now rewrite get_set_same.
  - rewrite get_set_other by discriminate.
    destruct Hd as [Hd|Hd]; [now left|right; now apply has_disk_set].
Qed.

Lemma well_formed_disk (d : pystr) (c : dict) :
  d <> [] -> well_formed c -> well_formed (set "target_disk" (PStr d) c).
Proof.
  intros Hne (Hk & Hf & Hd). repeat split.
  - rewrite keys_set; [assumption|rewrite Hk; simpl; tauto].
  - now rewrite get_set_other by discriminate.
  - right. now apply has_disk_chosen.
Qed.

(** The record after the five assignments of [validate_current_step]. *)
Lemma config_store_users (e : entries) (w : wizard) :
  config (store_users e w) =
  set "user_fullname" (PStr (fullname_entry e))
    (set "hostname" (PStr (hostname_entry e))
       (set "username" (PStr (username_entry e))
          (set "user_password" (PStr (user_pass_entry e))
             (set "root_password" (PStr (root_pass_entry e)) (config w))))).
Proof. reflexivity. Qed.

Ltac other_key := rewrite get_set_other by discriminate.

Lemma recorded_store_users (e : entries) (w : wizard) :
  recorded e (config (store_users e w)).
Proof.
  rewrite config_store_users. unfold recorded.
  repeat split; repeat (rewrite get_set_same || other_key); reflexivity.
Qed.

Lemma recorded_collect_users (e : entries) (c : dict) :
  recorded e (collect_users e c).
Proof.
  unfold recorded, collect_users.
  repeat split; repeat (rewrite get_set_same || other_key); reflexivity.
Qed.

Lemma well_formed_accounts (k1 k2 k3 k4 k5 : string) (v1 v2 v3 v4 v5 : value)
      (c : dict) :
  incl [k1; k2; k3; k4; k5] account_keys -> well_formed c ->
  well_formed (set k5 v5 (set k4 v4 (set k3 v3 (set k2 v2 (set k1 v1 c))))).
Proof.
  intros Hk Hc.
  assert (Hone : forall k v c', In k account_keys -> well_formed c' ->
                                well_formed (set k v c')).
  { intros k v c' Hin. simpl in Hin.
    apply well_formed_set; decompose [or] Hin; subst;
      try discriminate; try tauto; simpl; tauto. }
  repeat apply Hone; try assumption; apply Hk; simpl; tauto.
Qed.

Lemma has_disk_accounts (k1 k2 k3 k4 k5 : string) (v1 v2 v3 v4 v5 : value)
      (c : dict) :
  incl [k1; k2; k3; k4; k5] account_keys -> has_disk c ->
  has_disk (set k5 v5 (set k4 v4 (set k3 v3 (set k2 v2 (set k1 v1 c))))).
Proof.
  intros Hk Hc.
  assert (Hone : forall k v c', In k account_keys -> has_disk c' ->
                                has_disk (set k v c')).
  { intros k v c' Hin. simpl in Hin.
    apply has_disk_set; decompose [or] Hin; subst; try discriminate; tauto. }
  repeat apply Hone; try assumption; apply Hk; simpl; tauto.
Qed.

Lemma account_keys_store : incl
  ["root_password"; "user_password"; "username"; "hostname"; "user_fullname"]
  account_keys.
Proof. intros k H; exact H. Qed.

Lemma account_keys_collect : incl
  ["root_password"; "username"; "user_password"; "user_fullname"; "hostname"]
  account_keys.
Proof. intros k H; simpl in *; tauto. Qed.

(** ** One screen, one step *)

Section Navigation.

Variable stale : bool.

Ltac break_if :=
  match goal with
  | |- context [if ?b then _ else _] => destruct b eqn:?
  end.

(** Which screen an in-range cursor shows. *)
Lemma screen_at (n : Z) :
  (0 <= n <= 10)%Z ->
  index steps n =
  Some (if (n =? 5)%Z then Partition else if (n =? 8)%Z then Users
        else if (n =? 9)%Z then Summary else if (n =? 10)%Z then Install
        else if (n =? 0)%Z then Welcome else if (n =? 1)%Z then Language
        else if (n =? 2)%Z then Keyboard else if (n =? 3)%Z then Network
        else if (n =? 4)%Z then Timezone else if (n =? 6)%Z then Desktop
        else Drivers).
Proof.
  intros Hn.
  assert (E : n = Z.of_nat (Z.to_nat n)) by lia.
  assert (Hk : (Z.to_nat n < 11)%nat) by lia.
  revert E Hk. generalize (Z.to_nat n). intros k -> Hk.
  do 11 (destruct k as [|k]; [reflexivity|]). lia.
Qed.

Lemma render_step (sc : screen) (l : option pystr) (w : wizard) :
  current_step (fst (render stale sc l w)) = current_step w.
Proof.
  destruct sc; simpl; try reflexivity.
  - unfold users_step; destruct (get "hostname" (config w)); reflexivity.
  - unfold summary_step; destruct (users w); [destruct stale|]; reflexivity.
Qed.

Lemma show_step_step (l : option pystr) (w : wizard) :
  current_step (fst (show_step stale l w)) = current_step w.
Proof.
  unfold show_step.
  match goal with
  | |- context [index steps ?n] => destruct (index steps n)
  end.
  - rewrite render_step. repeat break_if; reflexivity.
  - repeat break_if; reflexivity.
Qed.

(** The record changes on the summary screen only. *)
Lemma show_step_config (l : option pystr) (w : wizard) :
  (0 <= current_step w <= 10)%Z ->
  config (fst (show_step stale l w)) =
  if (current_step w =? 9)%Z
  then match users w with
       | Some e => if stale then config w else collect_users e (config w)
       | None => config w
       end
  else config w.
Proof.
  intros Hn. unfold show_step.
  set (w1 := with_buttons _ _ _ _ w).
  set (w2 := if (current_step w1 =? len_steps - 1)%Z then _ else _).
  assert (Hs : current_step w2 = current_step w)
    by (subst w2 w1; repeat break_if; reflexivity).
  assert (Hc : config w2 = config w)
    by (subst w2 w1; repeat break_if; reflexivity).
  assert (Hu : users w2 = users w)
    by (subst w2 w1; repeat break_if; reflexivity).
  rewrite Hs, screen_at by assumption.
  destruct (current_step w =? 9)%Z eqn:E9.
  - replace (current_step w =? 5)%Z with false by lia.
    replace (current_step w =? 8)%Z with false by lia.
    simpl. unfold summary_step. rewrite Hu.
    destruct (users w); [destruct stale|]; simpl; congruence.
  - repeat break_if; simpl; try assumption.
    unfold users_step; destruct (get "hostname" (config w2)); assumption.
Qed.

(** The entries change on the users screen only, where they are made anew. *)
Lemma show_step_users (l : option pystr) (w : wizard) :
  (0 <= current_step w <= 10)%Z ->
  if (current_step w =? 8)%Z
  then users (fst (show_step stale l w)) <> None
  else users (fst (show_step stale l w)) = users w.
Proof.
  intros Hn. unfold show_step.
  set (w1 := with_buttons _ _ _ _ w).
  set (w2 := if (current_step w1 =? len_steps - 1)%Z then _ else _).
  assert (Hs : current_step w2 = current_step w)
    by (subst w2 w1; repeat break_if; reflexivity).
  assert (Hu : users w2 = users w)
    by (subst w2 w1; repeat break_if; reflexivity).
  rewrite Hs, screen_at by assumption.
  destruct (current_step w =? 8)%Z eqn:E8.
  - replace (current_step w =? 5)%Z with false by lia. simpl.
    unfold users_step; destruct (get "hostname" (config w2)); discriminate.
  - repeat break_if; simpl; try assumption; try discriminate.
    unfold summary_step.
    destruct (users w2) eqn:Eu; [destruct stale|]; simpl; congruence.
Qed.

(** The worker is started by the install screen, with the record as it is. *)
Lemma show_step_worker (l : option pystr) (w : wizard) (cfg : dict) :
  (0 <= current_step w <= 10)%Z ->
  In (StartWorker cfg) (snd (show_step stale l w)) ->
  current_step w = 10%Z /\ cfg = config w.
Proof.
  intros Hn. unfold show_step.
  set (w1 := with_buttons _ _ _ _ w).
  set (w2 := if (current_step w1 =? len_steps - 1)%Z then _ else _).
  assert (Hs : current_step w2 = current_step w)
    by (subst w2 w1; repeat break_if; reflexivity).
  assert (Hc : config w2 = config w)
    by (subst w2 w1; repeat break_if; reflexivity).
  rewrite Hs, screen_at by assumption.
  repeat break_if; simpl; try tauto.
  - unfold users_step; destruct (get "hostname" (config w2)); simpl;
      intuition discriminate.
  - unfold summary_step; destruct (users w2); [destruct stale|]; simpl;
      intuition discriminate.
  - intros [H|[]]. injection H as <-. split; [lia|assumption].
Qed.

(** ** Validation *)

Lemma validate_ok (w w1 : wizard) (fx : list effect) :
  validate_current_step w = (true, w1, fx) ->
  fx = [] /\ current_step w1 = current_step w /\ users w1 = users w /\
  (current_step w = 5%Z ->
   truthy (get_or_none "target_disk" (config w)) = true) /\
  ((config w1 = config w /\ (current_step w = 8%Z -> users w = None)) \/
   (current_step w = 8%Z /\
    exists e, users w = Some e /\ check_users e = None
              /\ config w1 = config (store_users e w))).
Proof.
  unfold validate_current_step.
  destruct (current_step w =? 5)%Z eqn:E5.
  - destruct (truthy _) eqn:Et; simpl; intros H; inversion H; subst.
    do 3 (split; [simpl; congruence|]). split; [auto|].
    left; split; [reflexivity|lia].
  - destruct (current_step w =? 8)%Z eqn:E8.
    + destruct (users w) as [e|] eqn:Eu.
      * destruct (check_users e) eqn:Ec; intros H; inversion H; subst.
        do 3 (split; [simpl; congruence|]). split; [lia|].
        right. split; [lia|]. exists e. auto.
      * intros H; inversion H; subst.
        do 3 (split; [simpl; congruence|]). split; [lia|]. left; auto.
    + intros H; inversion H; subst.
      do 3 (split; [simpl; congruence|]). split; [lia|].
      left. split; [reflexivity|lia].
Qed.

Lemma validate_fail (w w1 : wizard) (fx : list effect) :
  validate_current_step w = (false, w1, fx) ->
  w1 = w /\ exists message, fx = [error message].
Proof.
  unfold validate_current_step.
  destruct (current_step w =? 5)%Z.
  - destruct (truthy _); intros H; inversion H; subst. eauto.
  - destruct (current_step w =? 8)%Z; [|discriminate].
    destruct (users w) as [e|]; [|discriminate].
    destruct (check_users e); intros H; inversion H; subst. eauto.
Qed.

Lemma truthy_disk (c : dict) :
  get "target_disk" c = Some PNone \/ has_disk c ->
  truthy (get_or_none "target_disk" c) = true -> has_disk c.
Proof.
  unfold get_or_none. intros [H|H]; [|tauto].
  rewrite H. discriminate.
Qed.

(** ** The invariant *)

Lemma advance_consistent (l : option pystr) (w : wizard) :
  (current_step w <> 10)%Z -> consistent w ->
  consistent (fst (advance stale l w)).
Proof.
  intros Hlast Hw. pose proof Hw as (Hc & Hn & H5 & H8 & H9).
  unfold advance.
  destruct (validate_current_step w) as [[[|] w1] fx] eqn:Ev.
  2: { apply validate_fail in Ev. destruct Ev as [-> _]. exact Hw. }
  apply validate_ok in Ev. destruct Ev as (-> & Hs1 & Hu1 & Ht & Hcfg).
  set (w' := with_step (current_step w1 + 1)%Z w1).
  assert (Hn' : (0 <= current_step w' <= 10)%Z) by (simpl; lia).
  pose proof (show_step_step l w') as Hs.
  pose proof (show_step_config l w' Hn') as Hcf.
  pose proof (show_step_users l w' Hn') as Hus.
  destruct (show_step stale l w') as [w2 fx2].
  change (current_step w') with (current_step w1 + 1)%Z in Hs, Hcf, Hus.
  change (config w') with (config w1) in Hcf.
  change (users w') with (users w1) in Hcf, Hus.
  clearbody w'. cbn [fst snd] in *.
  (* the record of [w1] *)
  assert (Hc1 : well_formed (config w1)).
  { destruct Hcfg as [[-> _]|(_ & e & _ & _ & ->)]; [assumption|].
    rewrite config_store_users.
    apply well_formed_accounts; [apply account_keys_store|assumption]. }
  assert (Hd1 : has_disk (config w) -> has_disk (config w1)).
  { destruct Hcfg as [[-> _]|(_ & e & _ & _ & ->)]; [tauto|].
    rewrite config_store_users.
    apply has_disk_accounts, account_keys_store. }
  assert (Hd15 : (5 <= current_step w)%Z -> has_disk (config w1)).
  { intros H. apply Hd1.
    destruct (Z.eq_dec (current_step w) 5) as [E|E].
    - destruct Hc as (_ & _ & Hd). now apply truthy_disk; [|apply Ht].
    - apply H5; lia. }
  (* the record of [w2] *)
  assert (Hc2 : well_formed (config w2)).
  { rewrite Hcf. destruct (_ =? 9)%Z; [|assumption].
    destruct (users w1); [destruct stale|]; try assumption.
    apply well_formed_accounts; [apply account_keys_collect|assumption]. }
  assert (Hd2 : has_disk (config w1) -> has_disk (config w2)).
  { rewrite Hcf. destruct (_ =? 9)%Z; [|tauto].
    destruct (users w1); [destruct stale|]; try tauto.
    apply has_disk_accounts, account_keys_collect. }
  unfold consistent. rewrite Hs.
  refine (conj Hc2 (conj _ (conj _ (conj _ _)))).
  - lia.
  - intros H. apply Hd2, Hd15. lia.
  - intros H. destruct (current_step w1 + 1 =? 8)%Z eqn:E8.
    + assumption.
    + rewrite Hus, Hu1. apply H8. lia.
  - intros H.
    replace (current_step w1 + 1 =? 8)%Z with false in Hus by lia.
    rewrite Hus, Hu1.
    destruct (Z.eq_dec (current_step w) 8) as [E|E].
    + destruct Hcfg as [[_ Hnone]|(_ & e & Hue & Hck & Hce)].
      * exfalso. apply H8; [lia|auto].
      * exists e. do 2 (split; [assumption|]).
        rewrite Hcf. replace (current_step w1 + 1 =? 9)%Z with true by lia.
        rewrite Hu1, Hue. destruct stale.
        -- rewrite Hce. apply recorded_store_users.
        -- apply recorded_collect_users.
    + destruct H9 as (e & Hue & Hck & Hre); [lia|].
      exists e. do 2 (split; [assumption|]).
      rewrite Hcf. replace (current_step w1 + 1 =? 9)%Z with false by lia.
      destruct Hcfg as [[-> _]|(E8 & _)]; [assumption|lia].
Qed.

Lemma prev_step_consistent (l : option pystr) (w : wizard) :
  consistent w -> consistent (fst (prev_step stale l w)).
Proof.
  intros Hw. pose proof Hw as (Hc & Hn & H5 & H8 & H9).
  unfold prev_step. destruct (current_step w >? 0)%Z eqn:Epos; [|exact Hw].
  set (w' := with_step (current_step w - 1)%Z w).
  assert (Hn' : (0 <= current_step w' <= 10)%Z) by (simpl; lia).
  pose proof (show_step_step l w') as Hs.
  pose proof (show_step_config l w' Hn') as Hcf.
  pose proof (show_step_users l w' Hn') as Hus.
  destruct (show_step stale l w') as [w2 fx2].
  change (current_step w') with (current_step w - 1)%Z in Hs, Hcf, Hus.
  change (config w') with (config w) in Hcf.
  change (users w') with (users w) in Hcf, Hus.
  clearbody w'. cbn [fst snd] in *.
  assert (Hc2 : well_formed (config w2)).
  { rewrite Hcf. destruct (_ =? 9)%Z; [|assumption].
    destruct (users w); [destruct stale|]; try assumption.
    apply well_formed_accounts; [apply account_keys_collect|assumption]. }
  assert (Hd2 : has_disk (config w) -> has_disk (config w2)).
  { rewrite Hcf. destruct (_ =? 9)%Z; [|tauto].
    destruct (users w); [destruct stale|]; try tauto.
    apply has_disk_accounts, account_keys_collect. }
  unfold consistent. rewrite Hs.
  refine (conj Hc2 (conj _ (conj _ (conj _ _)))).
  - lia.
  - intros H. apply Hd2, H5. lia.
  - intros H. destruct (current_step w - 1 =? 8)%Z eqn:E8.
    + assumption.
    + rewrite Hus. apply H8. lia.
  - intros H.
    replace (current_step w - 1 =? 8)%Z with false in Hus by lia.
    destruct H9 as (e & Hue & Hck & Hre); [lia|].
    exists e. rewrite Hus. do 2 (split; [assumption|]).
    rewrite Hcf, Hue. destruct (_ =? 9)%Z; [destruct stale|]; try assumption.
    apply recorded_collect_users.
Qed.

Lemma next_step_consistent (l : option pystr) (w : wizard) :
  consistent w -> consistent (fst (next_step stale l w)).
Proof.
  intros Hw. unfold next_step.
  destruct (current_step w =? len_steps - 2)%Z eqn:E9.
  - apply advance_consistent; [|assumption].
    change len_steps with 11%Z in E9. lia.
  - destruct (current_step w =? len_steps - 1)%Z eqn:E10; [exact Hw|].
    apply advance_consistent; [|assumption].
    change len_steps with 11%Z in E10. lia.
Qed.

(** A selection widget of a screen before the summary stores a value. *)
Lemma update_consistent (k : string) (v : value) (w : wizard) :
  In k (keys initial_config) -> k <> "filesystem" -> k <> "target_disk" ->
  (current_step w < 9)%Z ->
  consistent w -> consistent (update_config k v w).
Proof.
  intros Hk Hfs Htd Hlt (Hc & Hn & H5 & H8 & H9).
  unfold consistent, update_config; simpl.
  refine (conj _ (conj Hn (conj _ (conj H8 _)))).
  - now apply well_formed_set.
  - intros H. now apply has_disk_set; [|apply H5].
  - lia.
Qed.

Lemma choose_consistent (k : string) (values : list pystr) (i : nat)
      (w : wizard) :
  In k (keys initial_config) -> k <> "filesystem" -> k <> "target_disk" ->
  (current_step w < 9)%Z ->
  consistent w -> consistent (choose k values i w).
Proof.
  intros. unfold choose. destruct (nth_error values i); [|assumption].
  now apply update_consistent.
Qed.

Lemma filesystem_consistent (i : nat) (w : wizard) :
  (current_step w < 9)%Z ->
  consistent w -> consistent (choose "filesystem" filesystems i w).
Proof.
  intros Hlt Hw. unfold choose.
  destruct (nth_error filesystems i) as [fs|] eqn:E; [|assumption].
  apply nth_error_In in E.
  destruct Hw as (Hc & Hn & H5 & H8 & H9).
  unfold consistent, update_config; simpl.
  refine (conj _ (conj Hn (conj _ (conj H8 _)))).
  - now apply well_formed_filesystem.
  - intros H. now apply has_disk_set; [|apply H5].
  - lia.
Qed.

Lemma disk_consistent (i : nat) (w : wizard) :
  (current_step w < 9)%Z ->
  consistent w -> consistent (fst (on_disk_selected i w)).
Proof.
  intros Hlt Hw. unfold on_disk_selected.
  destruct (nth_error (disk_values w) i) as [v|]; [|assumption].
  destruct (split v) as [|dev rest] eqn:E; [assumption|].
  apply split_head in E.
  destruct Hw as (Hc & Hn & H5 & H8 & H9).
  unfold consistent, update_config; simpl.
  refine (conj _ (conj Hn (conj _ (conj H8 _)))).
  - now apply well_formed_disk.
  - intros _. now apply has_disk_chosen.
  - lia.
Qed.

Lemma typed_consistent (f : field) (t : pystr) (w : wizard) :
  (current_step w < 9)%Z ->
  consistent w -> consistent (on_typed f t w).
Proof.
  intros Hlt (Hc & Hn & H5 & H8 & H9). unfold on_typed.
  destruct (users w) as [e|] eqn:Eu.
  - unfold consistent; simpl.
    refine (conj Hc (conj Hn (conj H5 (conj _ _)))); [discriminate|lia].
  - unfold consistent. rewrite Eu. tauto.
Qed.

Ltac known_key :=
  first [ discriminate | apply initial_keys; simpl; tauto ].

Theorem step_consistent (w : wizard) (ev : event) :
  consistent w -> consistent (fst (step stale w ev)).
Proof.
  intros Hw. destruct ev; simpl;
    try apply next_step_consistent; try apply prev_step_consistent;
    try assumption.
  - destruct (next_enabled w); [|assumption].
    destruct (next_command w); [|assumption].
    now apply next_step_consistent.
  - destruct (back_enabled w); [|assumption].
    now apply prev_step_consistent.
  - unfold on_screen. destruct (_ =? 1)%Z eqn:E; [|assumption].
    apply choose_consistent; try known_key; try assumption; lia.
  - unfold on_screen. destruct (_ =? 2)%Z eqn:E; [|assumption].
    apply choose_consistent; try known_key; try assumption; lia.
  - unfold on_screen. destruct (_ =? 3)%Z eqn:E; [|assumption].
    unfold on_mirror_selected.
    destruct (nth_error _ i); [|assumption].
    destruct (mirror_code _); [|assumption].
    apply update_consistent; try known_key; try assumption; lia.
  - unfold on_screen. destruct (_ =? 4)%Z eqn:E; [|assumption].
    apply choose_consistent; try known_key; try assumption; lia.
  - unfold on_screen. destruct (_ =? 5)%Z eqn:E; [|assumption].
    apply disk_consistent; [lia|assumption].
  - unfold on_screen. destruct (_ =? 5)%Z eqn:E; [|assumption].
    apply filesystem_consistent; [lia|assumption].
  - unfold on_screen. destruct (_ =? 6)%Z eqn:E; [|assumption].
    apply choose_consistent; try known_key; try assumption; lia.
  - unfold on_screen. destruct (_ =? 7)%Z eqn:E; [|assumption].
    apply update_consistent; try known_key; try assumption; lia.
  - unfold on_screen. destruct (_ =? 7)%Z eqn:E; [|assumption].
    apply update_consistent; try known_key; try assumption; lia.
  - unfold on_screen. destruct (_ =? 8)%Z eqn:E; [|assumption].
    apply typed_consistent; [lia|assumption].
Qed.

Lemma init_consistent : consistent (init stale).
Proof.
  unfold consistent. simpl. repeat split; try lia; try discriminate.
  - exists (str "ext4"). split; [reflexivity|now left].
  - now left.
Qed.

Theorem run_consistent (evs : list event) (w : wizard) :
  consistent w -> consistent (run stale w evs).
Proof.
  revert w; induction evs as [|ev evs IH]; intros w Hw; simpl.
  - assumption.
  - apply IH, step_consistent, Hw.
Qed.

Corollary reachable_consistent (evs : list event) :
  consistent (reached stale evs).
Proof. apply run_consistent, init_consistent. Qed.

End Navigation.

(** ** The checks of the users screen *)

Section Claims.

Variable stale : bool.

Lemma check_users_passes (e : entries) :
  check_users e = None <-> passes e.
Proof.
  unfold check_users, passes. split.
  - repeat match goal with
           | |- context [if negb ?b then _ else _] =>
               destruct b eqn:?; simpl; [|discriminate]
           end.
    intros _.
    repeat match goal with
           | H : eqb _ _ = true |- _ => apply eqb_eq in H
           | H : nonempty _ = true |- _ => apply nonempty_true in H
           end.
    tauto.
  - intros (H1 & H2 & H3 & H4 & H5 & H6).
    apply nonempty_true in H1, H4. apply eqb_eq in H2, H5.
    assert (H3' : nonempty (username_entry e) = true)
      by (apply nonempty_true; intros E; rewrite E in H3; discriminate).
    assert (H6' : nonempty (hostname_entry e) = true)
      by (apply nonempty_true; intros E; rewrite E in H6; discriminate).
    now rewrite H1, H2, H3, H4, H5, H6, H3', H6'.
Qed.

(** On the users screen the validation succeeds exactly when the entries
    pass, and then stores them. *)
Lemma validate_users (w : wizard) (e : entries) :
  current_step w = 8%Z -> users w = Some e ->
  (fst (fst (validate_current_step w)) = true <-> passes e) /\
  (passes e ->
   validate_current_step w = (true, store_users e w, [])).
Proof.
  intros Hs Hu. unfold validate_current_step. rewrite Hs, Hu. simpl.
  rewrite <- check_users_passes.
  destruct (check_users e); simpl; split; try easy.
Qed.

(** ** Reaching the install screen *)

Lemma advance_worker (l : option pystr) (w : wizard) (cfg : dict) :
  consistent w -> (current_step w <> 10)%Z ->
  In (StartWorker cfg) (snd (advance stale l w)) ->
  current_step (fst (advance stale l w)) = 10%Z
  /\ cfg = config (fst (advance stale l w)).
Proof.
  intros (_ & Hn & _) Hlast. unfold advance.
  destruct (validate_current_step w) as [[[|] w1] fx] eqn:Ev.
  - apply validate_ok in Ev. destruct Ev as (-> & Hs1 & _).
    set (w' := with_step (current_step w1 + 1)%Z w1).
    assert (Hn' : (0 <= current_step w' <= 10)%Z) by (simpl; lia).
    pose proof (show_step_step stale l w') as Hs.
    pose proof (show_step_config stale l w' Hn') as Hcf.
    pose proof (show_step_worker stale l w' cfg Hn') as Hwk.
    destruct (show_step stale l w') as [w2 fx2]. cbn [fst snd app] in *.
    intros H. apply Hwk in H. destruct H as [H10 ->].
    rewrite Hs, Hcf. replace (current_step w' =? 9)%Z with false by lia.
    auto.
  - apply validate_fail in Ev. destruct Ev as [-> (m & ->)].
    simpl. intros [H|[]]. discriminate.
Qed.

Lemma step_worker (w : wizard) (ev : event) (cfg : dict) :
  consistent w ->
  In (StartWorker cfg) (snd (step stale w ev)) ->
  current_step (fst (step stale w ev)) = 10%Z
  /\ cfg = config (fst (step stale w ev)).
Proof.
  intros Hw.
  assert (Hnext : forall l, In (StartWorker cfg) (snd (next_step stale l w)) ->
            current_step (fst (next_step stale l w)) = 10%Z
            /\ cfg = config (fst (next_step stale l w))).
  { intros l. unfold next_step. change len_steps with 11%Z.
    destruct (current_step w =? 11 - 2)%Z eqn:E9.
    - apply advance_worker; [assumption|lia].
    - destruct (current_step w =? 11 - 1)%Z eqn:E10; [intros []|].
      apply advance_worker; [assumption|lia]. }
  assert (Hprev : forall l, In (StartWorker cfg) (snd (prev_step stale l w)) ->
            current_step (fst (prev_step stale l w)) = 10%Z
            /\ cfg = config (fst (prev_step stale l w))).
  { intros l. unfold prev_step. destruct Hw as (_ & Hn & _).
    destruct (current_step w >? 0)%Z eqn:E; [|intros []].
    intros H. apply show_step_worker in H; simpl in *; lia. }
  destruct ev; simpl; auto.
  - destruct (next_enabled w); [|intros []].
    destruct (next_command w); [auto|]. intros [H|[]]; discriminate.
  - destruct (back_enabled w); [auto|intros []].
  - unfold on_screen; destruct (_ =? 1)%Z; intros [].
  - unfold on_screen; destruct (_ =? 2)%Z; intros [].
  - unfold on_screen, on_mirror_selected; destruct (_ =? 3)%Z; [|intros []].
    destruct (nth_error _ i); [|intros []].
    destruct (mirror_code _); [intros []|intros [H|[]]; discriminate].
  - unfold on_screen; destruct (_ =? 4)%Z; intros [].
  - unfold on_screen, on_disk_selected; destruct (_ =? 5)%Z; [|intros []].
    destruct (nth_error _ i); [|intros []].
    destruct (split _); [intros [H|[]]; discriminate|intros []].
  - unfold on_screen; destruct (_ =? 5)%Z; intros [].
  - unfold on_screen; destruct (_ =? 6)%Z; intros [].
  - unfold on_screen; destruct (_ =? 7)%Z; intros [].
  - unfold on_screen; destruct (_ =? 7)%Z; intros [].
  - unfold on_screen; destruct (_ =? 8)%Z; intros [].
  - intros [H|[]]; discriminate.
Qed.

(** On the install screen a disk is chosen and the record holds entries
    that passed the checks of the users screen. *)
Lemma install_screen_validated (w : wizard) :
  consistent w -> current_step w = 10%Z ->
  has_disk (config w)
  /\ exists e, users w = Some e /\ passes e /\ recorded e (config w).
Proof.
  intros (_ & _ & H5 & _ & H9) Hs. split; [apply H5; lia|].
  destruct H9 as (e & Hu & Hck & Hre); [lia|].
  exists e. rewrite <- check_users_passes. auto.
Qed.

(** Along a whole session, every record a worker was started with holds a
    chosen disk and account fields that passed the checks. *)
Lemma session_workers_validated (evs : list event) (w : wizard) (cfg : dict) :
  consistent w ->
  In (StartWorker cfg) (effects stale w evs) ->
  has_disk cfg /\ exists e, passes e /\ recorded e cfg.
Proof.
  revert w; induction evs as [|ev evs IH]; intros w Hw; simpl; [tauto|].
  rewrite in_app_iff. intros [H|H].
  - destruct (step_worker w ev cfg Hw H) as [H10 ->].
    apply (step_consistent stale w ev) in Hw.
    destruct (install_screen_validated _ Hw H10) as (Hd & e & _ & Hp & Hr).
    eauto.
  - apply (IH (fst (step stale w ev))); [|assumption].
    now apply step_consistent.
Qed.

Lemma newline_breaks_username (s : pystr) :
  Claimed.username_fullmatch (s ++ [10]) = false.
Proof.
  destruct s as [|c r]; [reflexivity|]. simpl.
  rewrite forallb_app. simpl. now rewrite !andb_false_r.
Qed.

(** C5.  The users screen is meant to accept a user name only when it
    matches [[a-z][a-z0-9]*] in full (its own message says "only lowercase
    letters and numbers").  The test is [re.match] with [$], which also
    matches before a final newline: when the entries pass with a name that
    is a full match, they still pass once a newline is typed after the
    name, which is then no full match, and the validation returns [True]
    and stores the name with its newline. *)
Theorem final_newline_is_accepted (w : wizard) (e : entries) :
  current_step w = 8%Z -> users w = Some e -> passes e ->
  Claimed.username_fullmatch (username_entry e) = true ->
  Claimed.username_fullmatch (username_entry e ++ [10]) = false
  /\ validate_current_step (on_typed Username (username_entry e ++ [10]) w)
     = (true,
        store_users (type_into Username (username_entry e ++ [10]) e)
                    (on_typed Username (username_entry e ++ [10]) w),
        [])
  /\ get "username"
       (config (store_users
                  (type_into Username (username_entry e ++ [10]) e)
                  (on_typed Username (username_entry e ++ [10]) w)))
     = Some (PStr (username_entry e ++ [10])).
Proof.
  intros Hs Hu Hp Hfull.
  split; [apply newline_breaks_username|]. split.
  - apply validate_users.
    + unfold on_typed. now rewrite Hu.
    + unfold on_typed. now rewrite Hu.
    + destruct Hp as (H1 & H2 & H3 & H4 & H5 & H6).
      unfold passes. simpl. repeat split; try assumption.
      apply username_re_fullmatch. right. now exists (username_entry e).
  - rewrite config_store_users.
    repeat (rewrite get_set_same || rewrite get_set_other by discriminate).
    reflexivity.
Qed.

(** X22.  What the users screen accepts, said with full matches: the
    passwords are as required, and the user name and the computer name are
    full matches or full matches followed by one newline. *)
Lemma users_screen_accepts (w : wizard) (e : entries) :
  current_step w = 8%Z -> users w = Some e ->
  fst (fst (validate_current_step w)) = true <->
  root_pass_entry e <> [] /\ root_pass_entry e = root_pass_confirm e /\
  (Claimed.username_fullmatch (username_entry e) = true
   \/ exists s, username_entry e = s ++ [10]
                /\ Claimed.username_fullmatch s = true) /\
  user_pass_entry e <> [] /\ user_pass_entry e = user_pass_confirm e /\
  (Claimed.hostname_fullmatch (hostname_entry e) = true
   \/ exists s, hostname_entry e = s ++ [10]
                /\ Claimed.hostname_fullmatch s = true).
Proof.
  intros Hs Hu. rewrite (proj1 (validate_users w e Hs Hu)).
  unfold passes. now rewrite username_re_fullmatch, hostname_re_fullmatch.
Qed.

(** ** The partition screen *)

(** C7.  With no target disk in the record, Next on the partition screen
    shows the error and changes nothing, the cursor included; and no state
    the wizard reaches is past the partition screen without a non-empty
    target disk. *)
Theorem next_without_disk_stays (l : option pystr) (w : wizard) :
  current_step w = 5%Z ->
  truthy (get_or_none "target_disk" (config w)) = false ->
  next_step stale l w = (w, [error "Please select a target disk."])
  /\ forall evs, (5 < current_step (reached stale evs))%Z ->
                 has_disk (config (reached stale evs)).
Proof.
  intros Hs Ht. split.
  - unfold next_step, advance, validate_current_step.
    rewrite Hs, Ht. reflexivity.
  - intros evs.
    now destruct (reachable_consistent stale evs) as (_ & _ & H5 & _).
Qed.

(** C8.  The filesystem of the record starts as [ext4], and in every state
    the wizard reaches it is one of [ext4], [btrfs], [xfs]. *)
Theorem filesystem_in_closed_set (evs : list event) :
  get "filesystem" (config (init stale)) = Some (PStr (str "ext4"))
  /\ exists fs,
       get "filesystem" (config (reached stale evs)) = Some (PStr fs)
       /\ (fs = str "ext4" \/ fs = str "btrfs" \/ fs = str "xfs").
Proof.
  split; [reflexivity|].
  destruct (reachable_consistent stale evs)
    as ((_ & (fs & Hfs & Hin) & _) & _).
  exists fs. split; [assumption|].
  simpl in Hin. intuition auto.
Qed.

(** C9.  In every state the wizard reaches the cursor is between 0 and
    [len(steps) - 1], which is 10; [prev_step] lowers it only when it is
    positive, and [next_step] does nothing on the last step. *)
Theorem cursor_within_steps (evs : list event) :
  (0 <= current_step (reached stale evs) <= len_steps - 1)%Z
  /\ (len_steps - 1 = 10)%Z
  /\ (forall l w,
        current_step (fst (prev_step stale l w)) =
        if (current_step w >? 0)%Z then (current_step w - 1)%Z
        else current_step w)
  /\ (forall l w,
        next_step stale l (with_step (len_steps - 1) w) =
        (with_step (len_steps - 1) w, [])).
Proof.
  split; [|split; [reflexivity|split]].
  - destruct (reachable_consistent stale evs) as (_ & Hn & _).
    change len_steps with 11%Z. lia.
  - intros l w. unfold prev_step.
    destruct (current_step w >? 0)%Z; [|reflexivity].
    now rewrite show_step_step.
  - intros l w. reflexivity.
Qed.

(** C10.  When [lsblk] raises, the partition screen offers the single choice
    ["/dev/sda (Unknown size)"], and selecting it stores ["/dev/sda"] as the
    target disk. *)
Theorem lsblk_failure_offers_sda (w : wizard) :
  disk_values (partition_step None w) = [str "/dev/sda (Unknown size)"]
  /\ get "target_disk"
       (config (fst (on_disk_selected 0 (partition_step None w))))
     = Some (PStr (str "/dev/sda"))
  /\ disk_values (reached stale Sample.to_partition)
     = [str "/dev/sda (Unknown size)"]
  /\ get "target_disk"
       (config (fst (step stale (reached stale Sample.to_partition)
                          (SelectDisk 0))))
     = Some (PStr (str "/dev/sda")).
Proof.
  split; [reflexivity|]. split.
  - unfold on_disk_selected. simpl. apply get_set_same.
  - destruct stale; split; vm_compute; reflexivity.
Qed.

End Claims.

(** ** What the partition screen offers *)

Lemma solid_app (a b : pystr) : solid a -> solid b -> solid (a ++ b).
Proof. unfold solid. rewrite forallb_app. now intros -> ->. Qed.

Lemma solid_rev (a : pystr) : solid a -> solid (rev a).
Proof.
  unfold solid. rewrite !forallb_forall. intros H c Hc.
  apply H. now apply in_rev.
Qed.

Lemma split_from_solid (s cur t : pystr) :
  solid cur -> In t (split_from cur s) -> solid t.
Proof.
  revert cur; induction s as [|c s IH]; intros cur Hcur; simpl.
  - destruct cur; [intros []|]. intros [<-|[]]. now apply solid_rev.
  - destruct (isspace c) eqn:Ec.
    + destruct cur as [|x cur]; [now apply IH|].
      intros [<-|H]; [now apply solid_rev|]. now apply (IH []).
    + apply IH. unfold solid in *. simpl. now rewrite Ec.
Qed.

(** The fields of [split] hold no blank. *)
Lemma split_solid (s t : pystr) : In t (split s) -> solid t.
Proof. now apply split_from_solid. Qed.

Lemma split_from_run (a cur s : pystr) :
  solid a -> split_from cur (a ++ s) = split_from (rev a ++ cur) s.
Proof.
  revert cur; induction a as [|x a IH]; intros cur Ha; [reflexivity|].
  unfold solid in Ha. simpl in Ha. apply andb_prop in Ha.
  destruct Ha as [Hx Ha]. apply negb_true_iff in Hx.
  simpl. rewrite Hx, IH by exact Ha. now rewrite <- app_assoc.
Qed.

(** A run without blanks followed by a blank is the first field. *)
Lemma split_first (a s : pystr) (c : N) :
  solid a -> a <> [] -> isspace c = true ->
  split (a ++ c :: s) = a :: split s.
Proof.
  intros Ha Hne Hc. unfold split. rewrite split_from_run by exact Ha.
  simpl. rewrite Hc, app_nil_r.
  destruct (rev a) as [|x r] eqn:Er.
  - apply (f_equal (@rev N)) in Er. rewrite rev_involutive in Er.
    now destruct Hne.
  - now rewrite <- Er, rev_involutive.
Qed.

(** Every line of [lsblk] that mentions [disk] and has three fields is
    offered, under the name of its first field. *)
Lemma disk_lines_are_offered (stdout line name size ty : pystr)
      (rest : list pystr) :
  In line (split_char 10 (strip stdout)) ->
  contains (str "disk") line = true ->
  split line = name :: size :: ty :: rest ->
  In (str "/dev/" ++ name ++ str " (" ++ size ++ str ")")
     (available_disks (Some stdout)).
Proof.
  intros Hin Hd Hs. simpl. apply in_flat_map. exists line.
  split; [assumption|]. unfold disk_of_line. rewrite Hd, Hs.
  destruct line; [discriminate|]. now left.
Qed.

(** Selecting an offered disk stores the device of its line, as it is. *)
Lemma offered_disk_is_stored (w : wizard) (i : nat) (line name size : pystr)
      (rest : list pystr) :
  split line = name :: rest ->
  nth_error (disk_values w) i
  = Some (str "/dev/" ++ name ++ str " (" ++ size ++ str ")") ->
  get "target_disk" (config (fst (on_disk_selected i w)))
  = Some (PStr (str "/dev/" ++ name)).
Proof.
  intros Hs Hn. unfold on_disk_selected. rewrite Hn.
  assert (Hname : solid name)
    by (apply (split_solid line); rewrite Hs; now left).
  replace (str "/dev/" ++ name ++ str " (" ++ size ++ str ")")
    with ((str "/dev/" ++ name) ++ 32 :: (40 :: size ++ str ")"))
    by (now rewrite <- app_assoc).
  rewrite split_first; try reflexivity.
  - simpl. apply get_set_same.
  - apply solid_app; [reflexivity|assumption].
  - discriminate.
Qed.

(** ** The worker *)

Import Install.

Lemma monitor_only_schedules (p q : process) (argv : list pystr) :
  ~ In (Popen argv q) (monitor p).
Proof.
  unfold monitor. rewrite in_app_iff. intros [H|H].
  - apply in_flat_map in H. destruct H as (line & _ & H).
    unfold status_update in H.
    destruct (_ && _); [|exact H].
    destruct (after_first _ _); [|exact H].
    destruct H as [H|[]]; discriminate.
  - destruct (monitor_error p); [destruct H as [H|[]]; discriminate|].
    destruct (_ =? _)%Z; destruct H as [H|[]]; discriminate.
Qed.

(** A process is started with the script's path as its whole argument list,
    and only after the record has been written to the configuration file. *)
Lemma launch_follows_write (m : machine) (cfg : dict)
      (argv : list pystr) (p : process) :
  In (Popen argv p) (perform_installation m cfg) ->
  argv = [backend_script]
  /\ perform_installation m cfg =
     WriteFile config_file (dumps_indent2 cfg)
     :: After (SetStatus (str "Starting installation..."))
     :: Popen argv p :: monitor p.
Proof.
  unfold perform_installation.
  destruct (backend_present m); simpl.
  2: { intros [H|[]]; discriminate. }
  destruct (write_error m); simpl.
  1: { intros [H|[]]; discriminate. }
  destruct (launch m) as [message|q]; simpl.
  - intros [H|[H|[H|[]]]]; discriminate.
  - intros [H|[H|[H|H]]]; try discriminate.
    + injection H as <- <-. auto.
    + now apply monitor_only_schedules in H.
Qed.

Lemma scheduled_app (a b : list action) :
  scheduled (a ++ b) = scheduled a ++ scheduled b.
Proof.
  induction a as [|[path content|argv p|t] a IH]; simpl;
    try assumption; [reflexivity|now rewrite IH].
Qed.

Lemma arguments_of_monitor (p : process) : argument_lists (monitor p) = [].
Proof.
  assert (H : forall acts, (forall argv q, ~ In (Popen argv q) acts) ->
                           argument_lists acts = []).
  { induction acts as [|[path content|argv0 p0|t] acts IH]; intros Hno;
      simpl;
      try (apply IH; intros argv q Hin; apply (Hno argv q); now right);
      try reflexivity.
    exfalso. apply (Hno argv0 p0). now left. }
  apply H. intros argv q. apply monitor_only_schedules.
Qed.

(** What the worker passes to processes and what it schedules depend on the
    machine, not on the record. *)
Lemma worker_outputs_ignore_record (m : machine) (cfg cfg' : dict) :
  argument_lists (perform_installation m cfg)
  = argument_lists (perform_installation m cfg')
  /\ scheduled (perform_installation m cfg)
     = scheduled (perform_installation m cfg').
Proof.
  unfold perform_installation.
  destruct (backend_present m), (write_error m), (launch m); auto.
Qed.

Lemma files_of_monitor (p : process) (f : files) :
  files_after (monitor p) f = f.
Proof.
  assert (H : forall acts, (forall a, In a acts -> exists t, a = After t) ->
                           files_after acts f = f).
  { induction acts as [|a acts IH]; intros Hall; [reflexivity|].
    destruct (Hall a (or_introl eq_refl)) as (t & ->). simpl.
    apply IH. intros b Hb. apply Hall. now right. }
  apply H. intros a. unfold monitor. rewrite in_app_iff. intros [Ha|Ha].
  - apply in_flat_map in Ha. destruct Ha as (line & _ & Ha).
    unfold status_update in Ha.
    destruct (_ && _); [|destruct Ha].
    destruct (after_first _ _); [|destruct Ha].
    destruct Ha as [<-|[]]. eauto.
  - destruct (monitor_error p); [destruct Ha as [<-|[]]; eauto|].
    destruct (_ =? _)%Z; destruct Ha as [<-|[]]; eauto.
Qed.

(** ** The document *)

Lemma contains_unfold (p s : pystr) :
  contains p s =
  startswith p s || match s with [] => false | _ :: s' => contains p s' end.
Proof. destruct s; reflexivity. Qed.

Lemma startswith_app (p b : pystr) : startswith p (p ++ b) = true.
Proof.
  induction p as [|c p IH]; simpl; [reflexivity|].
  now rewrite N.eqb_refl.
Qed.

Lemma contains_app (a p b : pystr) : contains p (a ++ p ++ b) = true.
Proof.
  induction a as [|c a IH]; simpl app.
  - rewrite contains_unfold, startswith_app. reflexivity.
  - rewrite contains_unfold, IH. apply orb_true_r.
Qed.

Lemma join_holds (sep x : pystr) (l : list pystr) :
  In x l -> exists a b, join sep l = a ++ x ++ b.
Proof.
  induction l as [|y l IH]; [intros []|].
  intros [->|Hin].
  - destruct l as [|z l]; simpl.
    + exists [], []. now rewrite app_nil_r.
    + now exists [], (sep ++ join sep (z :: l)).
  - destruct (IH Hin) as (a & b & E).
    destruct l as [|z l]; [destruct Hin|].
    exists (y ++ sep ++ a), b.
    change (join sep (y :: z :: l)) with (y ++ sep ++ join sep (z :: l)).
    rewrite E. now rewrite <- !app_assoc.
Qed.

Lemma get_In (k : string) (v : value) (d : dict) :
  get k d = Some v -> In (k, v) d.
Proof.
  induction d as [|[k' v'] d IH]; simpl; [discriminate|].
  destruct (String.eqb k k') eqn:E.
  - apply String.eqb_eq in E. intros H. injection H as ->. subst. now left.
  - intros H. right. auto.
Qed.

(** Every string of the record is in the document, in its JSON form. *)
Lemma document_holds_values (k : string) (s : pystr) (d : dict) :
  get k d = Some (PStr s) ->
  contains (dump_str s) (dumps_indent2 d) = true.
Proof.
  intros H. apply get_In in H.
  assert (Hm : In (member (k, PStr s)) (map member d)) by now apply in_map.
  destruct (join_holds [44; 10; 32; 32] _ _ Hm) as (a & b & E).
  destruct d as [|kv d]; [destruct H|].
  unfold dumps_indent2. rewrite E.
  unfold member; cbn [fst snd dump_value].
  set (key := dump_str (str k) ++ str ": ").
  replace (str "{" ++ [10; 32; 32]
           ++ (a ++ (dump_str (str k) ++ str ": " ++ dump_str s) ++ b)
           ++ [10] ++ str "}")
    with ((str "{" ++ [10; 32; 32] ++ a ++ key)
          ++ dump_str s ++ (b ++ [10] ++ str "}")).
  - apply contains_app.
  - subst key. now rewrite <- !app_assoc.
Qed.

(** ** The record on its way to the backend *)

(** C6, as the code has it.  When a step of the wizard starts the worker
    and the worker starts a process, the worker began by writing the
    record, as one JSON document, to the configuration file, and the
    process is the backend script without arguments.  The fields of the
    document are the fourteen keys of the record; the locale, the keyboard
    layout and the mirror are under [language], [keyboard] and
    [mirror_country]. *)
Theorem record_written_before_launch
        (stale : bool) (evs : list event) (ev : event) (cfg : dict)
        (m : machine) (argv : list pystr) (p : process) :
  In (StartWorker cfg) (snd (step stale (reached stale evs) ev)) ->
  In (Popen argv p) (perform_installation m cfg) ->
  perform_installation m cfg =
    WriteFile config_file (dumps_indent2 cfg)
    :: After (SetStatus (str "Starting installation..."))
    :: Popen [backend_script] p :: monitor p
  /\ keys cfg =
     ["target_disk"; "filesystem"; "desktop_environment"; "root_password";
      "username"; "user_password"; "user_fullname"; "hostname"; "language";
      "keyboard"; "timezone"; "mirror_country"; "install_nvidia";
      "install_nonfree"].
Proof.
  intros Hw Hp. split.
  - destruct (launch_follows_write m cfg argv p Hp) as [-> E]. exact E.
  - pose proof (reachable_consistent stale evs) as Hc.
    destruct (step_worker stale _ ev cfg Hc Hw) as [_ ->].
    apply (step_consistent stale _ ev) in Hc.
    now destruct Hc as ((Hk & _) & _).
Qed.

(** C6, as stated, fails: the document of a session that reaches the
    backend has no field named [locale], [keyboard_layout] or
    [mirror_region], neither among its keys nor anywhere in its text. *)
Lemma document_lacks_spec_names :
  In (StartWorker Sample.secret_record)
     (snd (step true
             (reached true (Sample.to_summary (str "alice")
                              Sample.root_secret Sample.user_secret))
             (Next None)))
  /\ In (WriteFile config_file (dumps_indent2 Sample.secret_record))
        (perform_installation Sample.working_machine Sample.secret_record)
  /\ ~ In "locale" (keys Sample.secret_record)
  /\ ~ In "keyboard_layout" (keys Sample.secret_record)
  /\ ~ In "mirror_region" (keys Sample.secret_record)
  /\ contains (str "locale") (dumps_indent2 Sample.secret_record) = false
  /\ contains (str "keyboard_layout") (dumps_indent2 Sample.secret_record)
     = false
  /\ contains (str "mirror_region") (dumps_indent2 Sample.secret_record)
     = false.
Proof.
  split; [vm_compute; left; reflexivity|].
  split; [left; reflexivity|].
  repeat split; try (vm_compute; reflexivity);
    vm_compute; intuition discriminate.
Qed.

(** ** The passwords *)

(** C2, as the code has it.  For every record, so for every pair of
    passwords: every process is started with the script's path as its only
    argument; the argument lists and the callables scheduled for the status
    label are the same for any other record; the record, both passwords
    included, is written in clear to the configuration file; and the worker
    never removes that file: when the launch fails it is still there, and
    otherwise its fate is the backend's. *)
Theorem passwords_go_through_the_file
        (m : machine) (cfg cfg' : dict) (f : files) :
  (forall argv, In argv (argument_lists (perform_installation m cfg)) ->
                argv = [backend_script])
  /\ argument_lists (perform_installation m cfg)
     = argument_lists (perform_installation m cfg')
  /\ scheduled (perform_installation m cfg)
     = scheduled (perform_installation m cfg')
  /\ files_after (perform_installation m cfg) f config_file =
     (if backend_present m
      then match write_error m, launch m with
           | None, inl _ => Some (dumps_indent2 cfg)
           | None, inr p =>
               touches p (write config_file (dumps_indent2 cfg) f)
                       config_file
           | Some _, _ => f config_file
           end
      else f config_file)
  /\ (forall k s, get k cfg = Some (PStr s) ->
                  contains (dump_str s) (dumps_indent2 cfg) = true).
Proof.
  split; [|split; [|split; [|split]]].
  - unfold perform_installation.
    destruct (backend_present m), (write_error m), (launch m); simpl;
      try tauto.
    rewrite arguments_of_monitor. intros argv [<-|[]]. reflexivity.
  - apply worker_outputs_ignore_record.
  - apply worker_outputs_ignore_record.
  - unfold perform_installation.
    destruct (backend_present m), (write_error m), (launch m);
      cbn [negb files_after]; try reflexivity.
    now rewrite files_of_monitor.
  - intros k s. apply document_holds_values.
Qed.

(** C2, as stated, fails: with passwords made of shell metacharacters and a
    backend script that cannot be executed, the run ends with the
    configuration file in place, and both passwords are in it; so it does
    after a run of a backend that leaves the file alone. *)
Lemma credentials_left_behind :
  get "root_password" Sample.secret_record = Some (PStr Sample.root_secret)
  /\ get "user_password" Sample.secret_record
     = Some (PStr Sample.user_secret)
  /\ Sample.left_behind Sample.unlaunchable_machine Sample.secret_record
     = Some (dumps_indent2 Sample.secret_record)
  /\ Sample.left_behind Sample.working_machine Sample.secret_record
     = Some (dumps_indent2 Sample.secret_record)
  /\ contains (dump_str Sample.root_secret)
              (dumps_indent2 Sample.secret_record) = true
  /\ contains (dump_str Sample.user_secret)
              (dumps_indent2 Sample.secret_record) = true.
Proof. repeat split; vm_compute; reflexivity. Qed.

(** ** The end of a run *)

Lemma with_install_same (w : wizard) :
  with_install (install_status w) (install_progress w) w = w.
Proof. now destruct w. Qed.

(** The status callables only change the text of the label. *)
Lemma statuses_are_silent (cl : bool) (lines : list pystr)
      (rest : list thunk) (w : wizard) :
  exists s,
    mainloop cl (scheduled (flat_map status_update lines) ++ rest) w
    = mainloop cl rest (with_install s (install_progress w) w).
Proof.
  revert w; induction lines as [|line lines IH]; intros w; simpl.
  - exists (install_status w). now rewrite with_install_same.
  - rewrite scheduled_app, <- app_assoc. unfold status_update at 1.
    destruct (_ && _); [|apply IH].
    destruct (after_first _ _) as [s|]; [|apply IH].
    simpl.
    destruct (IH (with_install (Some (strip s)) (install_progress w) w))
      as (s' & ->).
    exists s'. simpl.
    now destruct (mainloop cl rest _).
Qed.

(** X23.  When nothing raises, the user is told exactly one thing: success
    if the backend exited with 0, and otherwise a failure with the output
    that was still unread; a missing script is a failure of its own. *)
Lemma quiet_run_reports (cl : bool) (m : machine) (w : wizard) :
  write_error m = None ->
  (forall message, launch m <> inl message) ->
  (forall p, launch m = inr p -> monitor_error p = None) ->
  report_of (snd (installation_run cl m w)) =
  if backend_present m
  then match launch m with
       | inr p =>
           if (returncode p =? 0)%Z then Succeeded
           else FailedWith (str "Installation failed with error:" ++ [10]
                            ++ unread p)
       | inl _ => Nothing
       end
  else FailedWith (str "Installation failed with error:" ++ [10]
                   ++ str "Backend script not found: " ++ backend_script).
Proof.
  intros Hw Hl Hm. unfold installation_run, perform_installation.
  destruct (backend_present m); [|reflexivity].
  rewrite Hw. destruct (launch m) as [message|p] eqn:El.
  - now destruct (Hl message).
  - cbn [negb scheduled]. unfold monitor. rewrite (Hm p eq_refl).
    rewrite scheduled_app.
    cbn [mainloop dispatch].
    set (w1 := with_install _ _ w).
    destruct (statuses_are_silent cl (output p)
                (scheduled (if (returncode p =? 0)%Z then [After Complete]
                            else [After (ErrorWith (unread p))])) w1)
      as (s & E).
    rewrite E. destruct (returncode p =? 0)%Z; reflexivity.
Qed.

(** C4.  A run is meant to end with a success or a failure report.  When
    the [try] block raises, the [except] clause schedules a callable that
    names [e], and once the worker has left the clause [e] is unbound.
    Called then, the callable raises [NameError]: the user is told nothing,
    and only the text of the label has changed, so that the bar keeps
    running and the buttons stay disabled. *)
Theorem raised_exception_goes_unreported (m : machine) (w : wizard) :
  backend_present m = true -> raised m <> None ->
  snd (installation_run true m w) = [Traceback "NameError"]
  /\ report_of (snd (installation_run true m w)) = Nothing
  /\ exists s, fst (installation_run true m w)
               = with_install s (install_progress w) w.
Proof.
  intros Hb H. unfold installation_run, perform_installation. rewrite Hb.
  unfold raised in H. cbn [negb].
  destruct (write_error m) as [message|] eqn:Ew.
  { simpl. repeat split. exists (install_status w).
    now rewrite with_install_same. }
  destruct (launch m) as [message|p].
  { simpl. repeat split. eauto. }
  cbn [scheduled]. unfold monitor.
  destruct (monitor_error p) as [message|]; [|congruence].
  rewrite scheduled_app. cbn [mainloop dispatch].
  set (w1 := with_install _ _ w).
  destruct (statuses_are_silent true (output p)
              (scheduled [After (ErrorWithE message)]) w1)
    as (s & E).
  rewrite E. simpl. repeat split. now exists s.
Qed.

(** X24.  When the main loop calls the callable of the [except] clause
    while the clause is still running, the failure is reported with the
    text of the exception. *)
Lemma timely_call_reports (m : machine) (w : wizard) (message : pystr) :
  backend_present m = true -> raised m = Some message ->
  report_of (snd (installation_run false m w))
  = FailedWith (str "Installation failed with error:" ++ [10] ++ message).
Proof.
  intros Hb H. unfold installation_run, perform_installation. rewrite Hb.
  unfold raised in H. cbn [negb].
  destruct (write_error m) as [message'|] eqn:Ew.
  { injection H as ->. reflexivity. }
  destruct (launch m) as [message'|p].
  { injection H as ->. reflexivity. }
  cbn [scheduled]. unfold monitor. rewrite H.
  rewrite scheduled_app. cbn [mainloop dispatch].
  set (w1 := with_install _ _ w).
  destruct (statuses_are_silent false (output p)
              (scheduled [After (ErrorWithE message)]) w1)
    as (s & E).
  rewrite E. reflexivity.
Qed.

(** On a machine where the script cannot be executed, from the install
    screen: the label still reads ["Starting installation..."], the bar
    runs and both buttons are disabled. *)
Example unlaunchable_run_hangs :
  install_status (fst (installation_run true Sample.unlaunchable_machine
                                        Sample.install_screen))
  = Some (str "Starting installation...")
  /\ install_progress (fst (installation_run true
                              Sample.unlaunchable_machine
                              Sample.install_screen)) = true
  /\ back_enabled (fst (installation_run true Sample.unlaunchable_machine
                                         Sample.install_screen)) = false
  /\ next_enabled (fst (installation_run true Sample.unlaunchable_machine
                                         Sample.install_screen)) = false.
Proof. repeat split; vm_compute; reflexivity. Qed.

(** ** The engine *)

(** On the same machine the engine, as modelled, installs on the disk. *)
Example engine_installs_on_the_disk :
  Engine.run_engine Sample.live_usb_host (Sample.request (str "/dev/sda"))
  = ([Engine.WritePartitionTable (str "/dev/sda");
      Engine.FormatPartition (str "/dev/sda") (str "ext4");
      Engine.MountWorkRoot (str "/dev/sda");
      Engine.CopyLiveSystem; Engine.ConfigureSystem;
      Engine.InstallBootloader (str "/dev/sda")],
     Engine.Completed).
Proof. vm_compute. reflexivity. Qed.

(** C3, as the code and the specification have it.  When the target disk
    is the device that hosts the live medium, the run of the engine fails
    in Disk Preparation with [PreconditionFailed], and no tool has been
    called: nothing was written to a partition table and nothing was
    formatted.  The wizard has no guard of its own: every line of [lsblk]
    that mentions [disk] and has three fields is offered, whatever device
    it names, and selecting it stores that device as the target disk. *)
Theorem live_medium_offered_then_refused
        (h : Engine.host) (c : Engine.configuration) :
  Engine.target_disk c = Engine.live_device h ->
  (fst (Engine.run_engine h c) = []
   /\ exists cause,
        snd (Engine.run_engine h c)
        = Engine.Failed Engine.DiskPreparation Engine.PreconditionFailed
                        cause)
  /\ forall stdout line name size ty rest,
       In line (split_char 10 (strip stdout)) ->
       contains (str "disk") line = true ->
       split line = name :: size :: ty :: rest ->
       In (str "/dev/" ++ name ++ str " (" ++ size ++ str ")")
          (available_disks (Some stdout))
       /\ forall w i,
            nth_error (disk_values w) i
            = Some (str "/dev/" ++ name ++ str " (" ++ size ++ str ")") ->
            get "target_disk" (config (fst (on_disk_selected i w)))
            = Some (PStr (str "/dev/" ++ name)).
Proof.
  intros H. split.
  - unfold Engine.run_engine, Engine.disk_preparation.
    rewrite H, eqb_refl.
    destruct (negb _); simpl; eauto.
  - intros stdout line name size ty rest Hin Hd Hs. split.
    + now apply (disk_lines_are_offered stdout line name size ty rest).
    + intros w i Hn.
      now apply (offered_disk_is_stored w i line name size
                                        (size :: ty :: rest)).
Qed.

(** C3, as stated, fails on the wizard: on a machine booted from the stick
    [/dev/sdb], the partition screen offers the stick next to the disk, and
    a session that selects it goes on to start the worker with the stick as
    the target disk. *)
Lemma live_medium_is_offered :
  Engine.live_device Sample.live_usb_host = str "/dev/sdb"
  /\ available_disks (Some Sample.live_usb_lsblk)
     = [str "/dev/sda (500G)"; str "/dev/sdb (16G)"]
  /\ In (StartWorker Sample.stick_record)
        (snd (step true (reached true Sample.stick_session) (Next None)))
  /\ get "target_disk" Sample.stick_record
     = Some (PStr (Engine.live_device Sample.live_usb_host)).
Proof.
  split; [reflexivity|]. split; [vm_compute; reflexivity|].
  split; [vm_compute; left; reflexivity|vm_compute; reflexivity].
Qed.

(* ------------------------------------------------------------------ *)
(** * Further properties *)

Import Summary Session Changes.

(** ** Assignments to the record *)

Lemma set_same (k : string) (v : value) (d : dict) :
  get k d = Some v -> set k v d = d.
Proof.
  induction d as [|[k' v'] d IH]; simpl; [discriminate|].
  destruct (String.eqb k k') eqn:E.
  - apply String.eqb_eq in E. intros H. injection H as ->. now subst.
  - intros H. now rewrite IH.
Qed.

(** The assignments of [summary_step] change nothing in a record that
    already holds the entries. *)
Lemma collect_recorded (e : entries) (c : dict) :
  Reach.recorded e c -> collect_users e c = c.
Proof.
  intros (H1 & H2 & H3 & H4 & H5). unfold collect_users.
  now rewrite (set_same _ _ _ H1), (set_same _ _ _ H3), (set_same _ _ _ H2),
    (set_same _ _ _ H5), (set_same _ _ _ H4).
Qed.

Lemma stored_accounts_config (e : entries) (w : wizard) :
  config (store_users e w) = stored_accounts e (config w).
Proof. reflexivity. Qed.

Lemma recorded_stored (e : entries) (c : dict) :
  Reach.recorded e (stored_accounts e c).
Proof.
  unfold Reach.recorded, stored_accounts.
  repeat split;
    repeat (rewrite get_set_same || rewrite get_set_other by discriminate);
    reflexivity.
Qed.

(** ** Callables of the worker between the events of the user *)

Lemma dispatch_frame (cl : bool) (t : thunk) (w : wizard) :
  config (fst (dispatch cl t w)) = config w
  /\ current_step (fst (dispatch cl t w)) = current_step w
  /\ users (fst (dispatch cl t w)) = users w
  /\ disk_values (fst (dispatch cl t w)) = disk_values w
  /\ next_text (fst (dispatch cl t w)) = next_text w
  /\ next_command (fst (dispatch cl t w)) = next_command w.
Proof. destruct t, cl; repeat split. Qed.

Section Record.

Variable stale : bool.

Lemma happen_consistent (w : wizard) (h : happening) :
  Reach.consistent w -> Reach.consistent (fst (happen stale w h)).
Proof.
  destruct h as [ev|cl t]; simpl; [apply step_consistent|].
  destruct (dispatch_frame cl t w) as (Hc & Hs & Hu & _).
  unfold Reach.consistent. now rewrite Hc, Hs, Hu.
Qed.

Lemma session_consistent (hs : list happening) :
  Reach.consistent (after stale hs).
Proof.
  unfold after. generalize (init_consistent stale).
  generalize (init stale).
  induction hs as [|h hs IH]; intros w Hw; simpl; [assumption|].
  apply IH, happen_consistent, Hw.
Qed.


Lemma prev_step_record (l : option pystr) (w : wizard) :
  Reach.consistent w -> config (fst (prev_step stale l w)) = config w.
Proof.
  intros (Hc & Hn & H5 & H8 & H9).
  unfold prev_step. destruct (current_step w >? 0)%Z eqn:E; [|reflexivity].
  rewrite show_step_config by (simpl; lia). simpl.
  destruct (current_step w - 1 =? 9)%Z eqn:E9; [|reflexivity].
  destruct H9 as (e & -> & _ & Hr); [lia|].
  destruct stale; [reflexivity|]. now apply collect_recorded.
Qed.

(** X2.  [prev_step] never changes the record, in any state of a session:
    going back to the summary collects the entries again, and they are the
    ones the record already holds. *)
Theorem back_keeps_record (hs : list happening) (l : option pystr) :
  config (fst (prev_step stale l (after stale hs)))
  = config (after stale hs).
Proof. apply prev_step_record, session_consistent. Qed.

Lemma advance_record (l : option pystr) (w : wizard) :
  Reach.consistent w -> current_step w <> 10%Z ->
  (config (fst (advance stale l w)) = config w)
  \/ (current_step w = 8%Z
      /\ exists e, users w = Some e /\ check_users e = None
                   /\ current_step (fst (advance stale l w)) = 9%Z
                   /\ config (fst (advance stale l w))
                      = stored_accounts e (config w)).
Proof.
  intros (Hc & Hn & H5 & H8 & H9) Hlast. unfold advance.
  destruct (validate_current_step w) as [[[|] w1] fx] eqn:Ev.
  2: { apply validate_fail in Ev. destruct Ev as [-> _]. now left. }
  apply validate_ok in Ev. destruct Ev as (-> & Hs1 & Hu1 & Ht & Hcfg).
  set (w' := with_step (current_step w1 + 1)%Z w1).
  assert (Hn' : (0 <= current_step w' <= 10)%Z) by (simpl; lia).
  pose proof (show_step_step stale l w') as Hs.
  pose proof (show_step_config stale l w' Hn') as Hcf.
  destruct (show_step stale l w') as [w2 fx2].
  change (current_step w') with (current_step w1 + 1)%Z in Hs, Hcf.
  change (config w') with (config w1) in Hcf.
  change (users w') with (users w1) in Hcf.
  clearbody w'. cbn [fst snd] in *.
  destruct Hcfg as [[Hsame Hnone]|(E8 & e & Hue & Hck & Hst)].
  - left. rewrite Hcf, Hsame.
    destruct (current_step w1 + 1 =? 9)%Z eqn:E9; [|reflexivity].
    exfalso. apply H8; [lia|]. apply Hnone. lia.
  - right. split; [assumption|]. exists e. do 2 (split; [assumption|]).
    split; [lia|].
    rewrite Hcf. replace (current_step w1 + 1 =? 9)%Z with true by lia.
    rewrite Hu1, Hue, Hst, stored_accounts_config.
    destruct stale; [reflexivity|].
    apply collect_recorded, recorded_stored.
Qed.

Lemma next_step_record (l : option pystr) (w : wizard) :
  Reach.consistent w ->
  (config (fst (next_step stale l w)) = config w)
  \/ (current_step w = 8%Z
      /\ exists e, users w = Some e /\ check_users e = None
                   /\ current_step (fst (next_step stale l w)) = 9%Z
                   /\ config (fst (next_step stale l w))
                      = stored_accounts e (config w)).
Proof.
  intros Hw. unfold next_step. change len_steps with 11%Z.
  destruct (current_step w =? 11 - 2)%Z eqn:E9;
    [apply advance_record; [assumption|lia]|].
  destruct (current_step w =? 11 - 1)%Z eqn:E10; [now left|].
  apply advance_record; [assumption|lia].
Qed.


Lemma mirror_code_listed (name code : pystr) :
  mirror_code name = Some code -> In code (map snd mirrors).
Proof.
  unfold mirror_code.
  destruct (filter (fun p => eqb (fst p) name) mirrors) as [|p r] eqn:E;
    [discriminate|].
  intros H. injection H as <-. apply in_map.
  apply (proj1 (filter_In (fun p => eqb (fst p) name) p mirrors)).
  rewrite E. now left.
Qed.

Ltac listed := simpl; tauto.

Lemma step_changes (w : wizard) (ev : event) :
  Reach.consistent w ->
  change (config w) (config (fst (step stale w ev))).
Proof.
  intros Hw.
  assert (Hnext : forall l,
             change (config w) (config (fst (next_step stale l w)))).
  { intros l. destruct (next_step_record l w Hw)
      as [->|(_ & e & _ & Hck & _ & ->)]; now constructor. }
  assert (Hprev : forall l,
             change (config w) (config (fst (prev_step stale l w)))).
  { intros l. rewrite prev_step_record by assumption. constructor. }
  assert (Hchoose : forall k values i,
             In (k, values) catalogs ->
             change (config w) (config (choose k values i w))).
  { intros k values i Hk. unfold choose.
    destruct (nth_error values i) as [v|] eqn:E; [|constructor].
    apply nth_error_In in E. simpl. now apply (Chosen _ k values). }
  destruct ev; simpl; auto.
  - destruct (next_enabled w); [|constructor].
    destruct (next_command w); [auto|constructor].
  - destruct (back_enabled w); [auto|constructor].
  - unfold on_screen; destruct (_ =? 1)%Z; [|constructor].
    apply Hchoose. listed.
  - unfold on_screen; destruct (_ =? 2)%Z; [|constructor].
    apply Hchoose. listed.
  - unfold on_screen, on_mirror_selected; destruct (_ =? 3)%Z;
      [|constructor].
    destruct (nth_error _ i); [|constructor].
    destruct (mirror_code _) eqn:E; [|constructor].
    apply mirror_code_listed in E. simpl.
    apply (Chosen _ "mirror_country" (map snd mirrors)); [listed|assumption].
  - unfold on_screen; destruct (_ =? 4)%Z; [|constructor].
    apply Hchoose. listed.
  - unfold on_screen, on_disk_selected; destruct (_ =? 5)%Z; [|constructor].
    destruct (nth_error _ i); [|constructor].
    destruct (split _) eqn:E; [constructor|].
    apply split_head in E. simpl. now constructor.
  - unfold on_screen; destruct (_ =? 5)%Z; [|constructor].
    apply Hchoose. listed.
  - unfold on_screen; destruct (_ =? 6)%Z; [|constructor].
    apply Hchoose. listed.
  - unfold on_screen; destruct (_ =? 7)%Z; [|constructor].
    simpl. apply Toggled. listed.
  - unfold on_screen; destruct (_ =? 7)%Z; [|constructor].
    simpl. apply Toggled. listed.
  - unfold on_screen; destruct (_ =? 8)%Z; [|constructor].
    unfold on_typed. destruct (users w); constructor.
  - constructor.
Qed.

Lemma happen_changes (w : wizard) (h : happening) :
  Reach.consistent w ->
  change (config w) (config (fst (happen stale w h))).
Proof.
  intros Hw. destruct h as [ev|cl t]; simpl; [now apply step_changes|].
  destruct (dispatch_frame cl t w) as (-> & _). constructor.
Qed.

(** X4.  Whatever happens in a session changes the record in one of five
    ways or not at all: a selection widget stores a value of its own
    catalog, the disk selector a non-empty device, a check button a
    boolean, and [validate_current_step] the five account fields of entries
    that passed its checks.  No key is removed and nothing else is ever
    written. *)
Theorem record_changes_are_few (hs : list happening) (h : happening) :
  change (config (after stale hs))
         (config (fst (happen stale (after stale hs) h))).
Proof. apply happen_changes, session_consistent. Qed.

End Record.

(** ** What the record can hold *)

Lemma catalog_values (k : string) (values values' : list pystr) :
  In (k, values) catalogs -> In (k, values') catalogs -> values = values'.
Proof.
  unfold catalogs. cbn [In]. intros H H'.
  repeat match goal with
         | H : _ \/ _ |- _ => destruct H as [H|H]
         | H : False |- _ => destruct H
         end; congruence.
Qed.

Lemma catalog_is_no_flag (k : string) (values : list pystr) :
  In (k, values) catalogs -> ~ In k flags.
Proof.
  unfold catalogs, flags. cbn [In]. intros H H'.
  repeat match goal with
         | H : _ \/ _ |- _ => destruct H as [H|H]
         | H : False |- _ => destruct H
         end; congruence.
Qed.

Lemma catalogued_other (k : string) (v : value) (c : dict) :
  (forall values, ~ In (k, values) catalogs) -> ~ In k flags ->
  catalogued c -> catalogued (set k v c).
Proof.
  intros Hk Hf [Hc Hfl]. split.
  - intros k' values Hin. rewrite get_set_other; [now apply Hc|].
    intros ->. now apply (Hk values).
  - intros k' Hin. rewrite get_set_other; [now apply Hfl|].
    now intros ->.
Qed.

Lemma catalogued_chosen (k : string) (values : list pystr) (v : pystr)
      (c : dict) :
  In (k, values) catalogs -> In v values ->
  catalogued c -> catalogued (set k (PStr v) c).
Proof.
  intros Hk Hv [Hc Hfl]. split.
  - intros k' values' Hin. destruct (string_dec k k') as [<-|Hne].
    + rewrite get_set_same. exists v. split; [reflexivity|].
      now rewrite <- (catalog_values k values values').
    + rewrite get_set_other by assumption. now apply Hc.
  - intros k' Hin. rewrite get_set_other; [now apply Hfl|].
    intros ->. now apply (catalog_is_no_flag k' values).
Qed.

Lemma catalogued_toggled (k : string) (b : bool) (c : dict) :
  In k flags -> catalogued c -> catalogued (set k (PBool b) c).
Proof.
  intros Hk [Hc Hfl]. split.
  - intros k' values Hin. rewrite get_set_other; [now apply Hc|].
    intros ->. now apply (catalog_is_no_flag k' values).
  - intros k' Hin. destruct (string_dec k k') as [<-|Hne].
    + rewrite get_set_same. now exists b.
    + rewrite get_set_other by assumption. now apply Hfl.
Qed.

Ltac no_such_key :=
  match goal with
  | |- forall values, ~ In _ catalogs =>
      intros values; unfold catalogs; cbn [In]; intros H;
      repeat match goal with
             | H : _ \/ _ |- _ => destruct H as [H|H]
             | H : False |- _ => destruct H
             end; discriminate
  | |- ~ In _ flags =>
      unfold flags; cbn [In]; intros H;
      repeat match goal with
             | H : _ \/ _ |- _ => destruct H as [H|H]
             | H : False |- _ => destruct H
             end; discriminate
  end.

Lemma catalogued_initial : catalogued initial_config.
Proof.
  split.
  - intros k values H. unfold catalogs in H. cbn [In] in H.
    repeat match goal with
           | H : _ \/ _ |- _ => destruct H as [H|H]
           | H : False |- _ => destruct H
           end; injection H as <- <-;
      (eexists; split; [reflexivity|]); cbn; tauto.
  - intros k H. unfold flags in H. cbn [In] in H.
    destruct H as [<-|[<-|[]]]; now exists false.
Qed.

Lemma change_catalogued (c c' : dict) :
  change c c' -> catalogued c -> catalogued c'.
Proof.
  intros [|k values v Hk Hv|d Hd|k b Hk|e He] Hc.
  - assumption.
  - now apply (catalogued_chosen k values).
  - apply catalogued_other; [no_such_key|no_such_key|assumption].
  - now apply catalogued_toggled.
  - unfold stored_accounts.
    repeat (apply catalogued_other; [no_such_key|no_such_key|]).
    assumption.
Qed.

Lemma coherent_frame (c c' : dict) :
  (forall k, In k Reach.account_keys -> get k c' = get k c) ->
  accounts_coherent c -> accounts_coherent c'.
Proof.
  intros H. unfold accounts_coherent, Reach.recorded.
  rewrite !H by (cbn; tauto). tauto.
Qed.

Lemma coherent_other (k : string) (v : value) (c : dict) :
  ~ In k Reach.account_keys ->
  accounts_coherent c -> accounts_coherent (set k v c).
Proof.
  intros Hk. apply coherent_frame. intros k' Hk'.
  apply get_set_other. intros ->. contradiction.
Qed.

Lemma catalog_is_no_account (k : string) (values : list pystr) :
  In (k, values) catalogs -> ~ In k Reach.account_keys.
Proof.
  unfold catalogs, Reach.account_keys. cbn [In]. intros H H'.
  repeat match goal with
         | H : _ \/ _ |- _ => destruct H as [H|H]
         | H : False |- _ => destruct H
         end; congruence.
Qed.

Lemma change_coherent (c c' : dict) :
  change c c' -> accounts_coherent c -> accounts_coherent c'.
Proof.
  intros [|k values v Hk Hv|d Hd|k b Hk|e He] Hc.
  - assumption.
  - apply coherent_other; [|assumption].
    now apply (catalog_is_no_account k values).
  - apply coherent_other; [|assumption].
    cbn. intuition discriminate.
  - apply coherent_other; [|assumption].
    unfold flags in Hk. cbn in Hk |- *.
    destruct Hk as [<-|[<-|[]]]; intuition discriminate.
  - right. exists e. split; [assumption|apply recorded_stored].
Qed.

Section Invariants.

Variable stale : bool.

(** A property of the record that holds at the start and that no change
    breaks holds all along a session. *)
Lemma session_record (P : dict -> Prop) :
  P initial_config ->
  (forall c c', change c c' -> P c -> P c') ->
  forall hs, P (config (after stale hs)).
Proof.
  intros H0 Hstep hs. unfold after.
  assert (H : Reach.consistent (init stale) /\ P (config (init stale)))
    by (split; [apply init_consistent|exact H0]).
  revert H. generalize (init stale).
  induction hs as [|h hs IH]; intros w [Hw HP]; simpl; [assumption|].
  apply IH. split; [now apply happen_consistent|].
  apply (Hstep (config w)); [now apply happen_changes|assumption].
Qed.

Lemma session_catalogued (hs : list happening) :
  catalogued (config (after stale hs)).
Proof.
  apply session_record; [apply catalogued_initial|apply change_catalogued].
Qed.

Lemma session_coherent (hs : list happening) :
  accounts_coherent (config (after stale hs)).
Proof.
  apply session_record; [|apply change_coherent].
  left. repeat split.
Qed.

(** X5.  All along a session the language, the keyboard, the mirror, the
    time zone, the filesystem and the desktop in the record are values of
    the lists their widgets offer, and the two driver options are
    booleans. *)
Theorem selections_stay_in_catalogs (hs : list happening) :
  (forall k values, In (k, values) catalogs ->
     exists v, get k (config (after stale hs)) = Some (PStr v)
               /\ In v values)
  /\ (forall k, In k flags ->
        exists b, get k (config (after stale hs)) = Some (PBool b)).
Proof. exact (session_catalogued hs). Qed.

(** X6.  The account fields of the record are never half written: they are
    those of [__init__], or all five come from the same entries, which
    passed every check of the users screen. *)
Theorem account_fields_go_together (hs : list happening) :
  (get "root_password" (config (after stale hs)) = Some (PStr [])
   /\ get "user_password" (config (after stale hs)) = Some (PStr [])
   /\ get "username" (config (after stale hs)) = Some (PStr [])
   /\ get "hostname" (config (after stale hs)) = Some (PStr (str "on1os"))
   /\ get "user_fullname" (config (after stale hs)) = Some (PStr []))
  \/ exists e, Reach.passes e
               /\ Reach.recorded e (config (after stale hs)).
Proof.
  destruct (session_coherent hs) as [H|(e & Hck & Hr)]; [now left|right].
  exists e. now rewrite <- check_users_passes.
Qed.

End Invariants.

(** ** The buttons and the screens *)

Section Screens.

Variable stale : bool.

Lemma show_step_render (l : option pystr) (w : wizard) :
  (0 <= current_step w <= 10)%Z ->
  exists sc, index steps (current_step w) = Some sc
             /\ show_step stale l w = render stale sc l (buttons_for w).
Proof.
  intros Hn. pose proof (screen_at (current_step w) Hn) as Hsc.
  destruct (index steps (current_step w)) as [sc|] eqn:E; [|discriminate].
  clear Hsc. exists sc. split; [reflexivity|]. rename E into Hsc.
  unfold show_step, buttons_for, label. change len_steps with 11%Z.
  cbn [current_step with_buttons].
  destruct (current_step w =? 11 - 1)%Z eqn:E10.
  - replace (current_step w =? 10)%Z with true by lia.
    cbn [current_step with_buttons]. rewrite Hsc. reflexivity.
  - replace (current_step w =? 10)%Z with false by lia.
    destruct (current_step w =? 11 - 2)%Z eqn:E9.
    + replace (current_step w =? 9)%Z with true by lia.
      cbn [current_step with_buttons]. rewrite Hsc. reflexivity.
    + replace (current_step w =? 9)%Z with false by lia.
      cbn [current_step with_buttons]. rewrite Hsc. reflexivity.
Qed.

Lemma render_buttons (sc : screen) (l : option pystr) (w : wizard) :
  next_text (fst (render stale sc l w)) = next_text w
  /\ next_command (fst (render stale sc l w)) = next_command w.
Proof.
  destruct sc; simpl; try (split; reflexivity).
  - unfold users_step; destruct (get "hostname" (config w)); now split.
  - unfold summary_step; destruct (users w); [destruct stale|]; now split.
Qed.

Lemma render_enabled (sc : screen) (l : option pystr) (w : wizard) :
  sc <> Install ->
  next_enabled (fst (render stale sc l w)) = next_enabled w
  /\ back_enabled (fst (render stale sc l w)) = back_enabled w.
Proof.
  destruct sc; simpl; try (split; reflexivity).
  - unfold users_step; destruct (get "hostname" (config w)); now split.
  - unfold summary_step; destruct (users w); [destruct stale|]; now split.
  - intros H. now contradiction H.
Qed.

Lemma render_disks (sc : screen) (l : option pystr) (w : wizard) :
  disk_values (fst (render stale sc l w))
  = match sc with
    | Partition => available_disks l
    | _ => disk_values w
    end.
Proof.
  destruct sc; simpl; try reflexivity.
  - unfold users_step; destruct (get "hostname" (config w)); reflexivity.
  - unfold summary_step; destruct (users w); [destruct stale|]; reflexivity.
Qed.

Lemma screen_is_install (n : Z) :
  (0 <= n <= 10)%Z -> index steps n = Some Install -> n = 10%Z.
Proof.
  intros Hn. rewrite screen_at by assumption.
  repeat match goal with
         | |- context [if ?b then _ else _] => destruct b eqn:?
         end; try discriminate. lia.
Qed.

Lemma screen_is_partition (n : Z) :
  (0 <= n <= 10)%Z -> index steps n = Some Partition <-> n = 5%Z.
Proof.
  intros Hn. rewrite screen_at by assumption. split.
  - repeat match goal with
           | |- context [if ?b then _ else _] => destruct b eqn:?
           end; try discriminate. lia.
  - now intros ->.
Qed.

(** What [show_step] leaves on the Next button, and when it leaves the
    states of the two buttons to the screen. *)
Lemma show_step_buttons (l : option pystr) (w : wizard) :
  (0 <= current_step w <= 10)%Z ->
  next_text (fst (show_step stale l w)) = label (current_step w)
  /\ next_command (fst (show_step stale l w))
     = (if (current_step w =? 10)%Z then CmdReboot
        else if (current_step w =? 9)%Z then next_command w
        else CmdNextStep)
  /\ (current_step w <> 10%Z ->
      next_enabled (fst (show_step stale l w)) = next_enabled w
      /\ back_enabled (fst (show_step stale l w))
         = (0 <? current_step w)%Z).
Proof.
  intros Hn. destruct (show_step_render l w Hn) as (sc & Hsc & ->).
  destruct (render_buttons sc l (buttons_for w)) as [-> ->].
  do 2 (split; [reflexivity|]).
  intros H10.
  destruct (render_enabled sc l (buttons_for w)) as [-> ->];
    [|split; reflexivity].
  intros ->. now apply screen_is_install in Hsc.
Qed.

Lemma show_step_disks (l : option pystr) (w : wizard) :
  (0 <= current_step w <= 10)%Z ->
  disk_values (fst (show_step stale l w))
  = if (current_step w =? 5)%Z then available_disks l else disk_values w.
Proof.
  intros Hn. destruct (show_step_render l w Hn) as (sc & Hsc & ->).
  rewrite render_disks.
  destruct (current_step w =? 5)%Z eqn:E5.
  - assert (E : current_step w = 5%Z) by lia.
    apply (screen_is_partition _ Hn) in E. rewrite E in Hsc.
    now injection Hsc as <-.
  - destruct sc; try reflexivity.
    apply (screen_is_partition _ Hn) in Hsc. lia.
Qed.

Lemma show_step_blank (l : option pystr) (w : wizard) (v : value) :
  current_step w = 8%Z -> get "hostname" (config w) = Some v ->
  users (fst (show_step stale l w)) = Some (blank_entries (text_of v)).
Proof.
  intros H8 Hv.
  destruct (show_step_render l w) as (sc & Hsc & ->); [lia|].
  rewrite H8 in Hsc. injection Hsc as <-.
  simpl. unfold users_step. cbn [config buttons_for with_buttons].
  now rewrite Hv.
Qed.

Lemma show_step_shown (l : option pystr) (w : wizard) :
  (0 <= current_step w <= 10)%Z ->
  button_shown (fst (show_step stale l w)).
Proof.
  intros Hn. destruct (show_step_buttons l w Hn) as (Ht & Hc & _).
  unfold button_shown. rewrite show_step_step, Ht, Hc.
  split; [reflexivity|]. split; intros H.
  - replace (current_step w =? 10)%Z with false by lia.
    now replace (current_step w =? 9)%Z with false by lia.
  - now replace (current_step w =? 10)%Z with true by lia.
Qed.

(** The three ways [validate_current_step] ends. *)
Lemma validate_cases (w : wizard) :
  (validate_current_step w = (true, w, [])
   /\ (current_step w = 5%Z ->
       truthy (get_or_none "target_disk" (config w)) = true)
   /\ (current_step w = 8%Z -> users w = None))
  \/ (current_step w = 8%Z
      /\ exists e, users w = Some e /\ check_users e = None
           /\ validate_current_step w = (true, store_users e w, []))
  \/ (current_step w = 5%Z
      /\ truthy (get_or_none "target_disk" (config w)) = false
      /\ validate_current_step w
         = (false, w, [error "Please select a target disk."]))
  \/ (current_step w = 8%Z
      /\ exists e message, users w = Some e
           /\ check_users e = Some message
           /\ validate_current_step w = (false, w, [error message])).
Proof.
  unfold validate_current_step.
  destruct (current_step w =? 5)%Z eqn:E5.
  - destruct (truthy _) eqn:Et; simpl.
    + left. split; [reflexivity|]. split; [reflexivity|lia].
    + right. right. left. split; [lia|]. now split.
  - destruct (current_step w =? 8)%Z eqn:E8;
      [|left; split; [reflexivity|split; lia]].
    destruct (users w) as [e|] eqn:Eu;
      [|left; split; [reflexivity|split; [lia|reflexivity]]].
    destruct (check_users e) as [message|] eqn:Ec.
    + right. right. right. split; [lia|]. now exists e, message.
    + right. left. split; [lia|]. now exists e.
Qed.

(** What [next_step] does, away from the last screen. *)
Lemma advance_cases (l : option pystr) (w : wizard) :
  (exists w1, ((w1 = w
                /\ (current_step w = 5%Z ->
                    truthy (get_or_none "target_disk" (config w)) = true)
                /\ (current_step w = 8%Z -> users w = None))
               \/ (current_step w = 8%Z
                   /\ exists e, users w = Some e /\ check_users e = None
                                /\ w1 = store_users e w))
              /\ advance stale l w
                 = show_step stale l (with_step (current_step w + 1)%Z w1))
  \/ (current_step w = 5%Z
      /\ truthy (get_or_none "target_disk" (config w)) = false
      /\ advance stale l w = (w, [error "Please select a target disk."]))
  \/ (current_step w = 8%Z
      /\ exists e message, users w = Some e
           /\ check_users e = Some message
           /\ advance stale l w = (w, [error message])).
Proof.
  unfold advance.
  destruct (validate_cases w)
    as [(E & Hd & Hn)|[(H8 & e & Hu & Hck & E)
                      |[(H5 & Ht & E)|(H8 & e & m & Hu & Hck & E)]]];
    rewrite E.
  - left. exists w. split; [now left|].
    now destruct (show_step stale l _).
  - left. exists (store_users e w). split; [right; split; eauto|].
    change (current_step (store_users e w)) with (current_step w).
    now destruct (show_step stale l _).
  - right. left. auto.
  - right. right. split; [assumption|]. now exists e, m.
Qed.

Lemma next_step_advance (l : option pystr) (w : wizard) :
  current_step w <> 10%Z -> next_step stale l w = advance stale l w.
Proof.
  intros H. unfold next_step. change len_steps with 11%Z.
  destruct (current_step w =? 11 - 2)%Z; [reflexivity|].
  destruct (current_step w =? 11 - 1)%Z eqn:E; [lia|reflexivity].
Qed.

Lemma next_step_last (l : option pystr) (w : wizard) :
  current_step w = 10%Z -> next_step stale l w = (w, []).
Proof.
  intros H. unfold next_step. change len_steps with 11%Z.
  now rewrite H.
Qed.

End Screens.

(** ** Along a session *)

Section Sessions.

Variable stale : bool.

Ltac settle Hb :=
  unfold on_screen, choose, on_mirror_selected, on_disk_selected, toggle,
    on_typed;
  repeat match goal with
         | |- context [match ?x with _ => _ end] => destruct x
         end;
  exact Hb.

Lemma next_step_shown (l : option pystr) (w : wizard) :
  Reach.consistent w -> button_shown w ->
  button_shown (fst (next_step stale l w)).
Proof.
  intros (_ & Hn & _) Hb.
  destruct (Z.eq_dec (current_step w) 10) as [E|E];
    [now rewrite next_step_last|].
  rewrite next_step_advance by assumption.
  destruct (advance_cases stale l w)
    as [(w1 & _ & ->)|[(_ & _ & ->)|(_ & e & m & _ & _ & ->)]];
    try assumption.
  apply show_step_shown. cbn [current_step with_step]. lia.
Qed.

Lemma prev_step_shown (l : option pystr) (w : wizard) :
  Reach.consistent w -> button_shown w ->
  button_shown (fst (prev_step stale l w)).
Proof.
  intros (_ & Hn & _) Hb. unfold prev_step.
  destruct (current_step w >? 0)%Z eqn:E; [|assumption].
  apply show_step_shown. cbn [current_step with_step]. lia.
Qed.

Lemma step_shown (w : wizard) (ev : event) :
  Reach.consistent w -> button_shown w ->
  button_shown (fst (step stale w ev)).
Proof.
  intros Hw Hb.
  destruct ev; cbn [step]; try (settle Hb).
  - now apply next_step_shown.
  - now apply prev_step_shown.
  - destruct (next_enabled w); [|assumption].
    destruct (next_command w); [now apply next_step_shown|assumption].
  - destruct (back_enabled w); [now apply prev_step_shown|assumption].
Qed.

Lemma session_shown (hs : list happening) :
  button_shown (after stale hs).
Proof.
  unfold after.
  assert (H : Reach.consistent (init stale) /\ button_shown (init stale))
    by (split; [apply init_consistent|now repeat split]).
  revert H. generalize (init stale).
  induction hs as [|h hs IH]; intros w [Hw Hb]; simpl; [assumption|].
  apply IH. split; [now apply happen_consistent|].
  destruct h as [ev|cl t]; simpl; [now apply step_shown|].
  destruct (dispatch_frame cl t w) as (_ & Hs & _ & _ & Ht & Hc).
  unfold button_shown. now rewrite Hs, Ht, Hc.
Qed.

(** X7.  The Next button always fits the screen: it reads Restart on the
    install screen, where a click reboots, Install on the summary, and Next
    on every screen before, where a click calls [next_step]. *)
Theorem next_button_fits_screen (hs : list happening) :
  next_text (after stale hs)
  = (if (current_step (after stale hs) =? 10)%Z then "Restart"
     else if (current_step (after stale hs) =? 9)%Z then "Install"
     else "Next")
  /\ ((current_step (after stale hs) <= 8)%Z ->
      next_command (after stale hs) = CmdNextStep)
  /\ (current_step (after stale hs) = 10%Z ->
      next_command (after stale hs) = CmdReboot).
Proof. exact (session_shown hs). Qed.

(** X8.  [show_step] gives the Next button its command on every screen but
    the summary.  So when an installation has failed and the user goes back
    from the install screen to the summary, the button reads Install again
    and is enabled, and a click on it reboots the machine. *)
Theorem install_button_reboots_after_failure
        (hs : list happening) (message : pystr) (l l' : option pystr) :
  current_step (after stale hs) = 10%Z ->
  let failed := fst (installation_error message (after stale hs)) in
  let back := fst (step stale failed (ClickBack l)) in
  current_step back = 9%Z /\ next_text back = "Install"
  /\ step stale back (ClickNext l') = (back, [Reboot]).
Proof.
  intros H10 failed back.
  destruct (session_shown hs) as (_ & _ & Hc). specialize (Hc H10).
  assert (E : back = fst (show_step stale l (with_step 9 failed))).
  { subst back. cbn [step]. unfold prev_step.
    change (back_enabled failed) with true.
    change (current_step failed) with (current_step (after stale hs)).
    now rewrite H10. }
  assert (Hn : (0 <= current_step (with_step 9 failed) <= 10)%Z)
    by (cbn [current_step with_step]; lia).
  destruct (show_step_buttons stale l _ Hn) as (Ht & Hcmd & Hen).
  destruct Hen as [Hen _]; [cbn [current_step with_step]; lia|].
  rewrite <- E in Ht, Hcmd, Hen.
  split; [rewrite E; apply show_step_step|].
  split; [exact Ht|].
  cbn [step]. rewrite Hen, Hcmd.
  change (next_enabled (with_step 9 failed)) with true.
  change (next_command (with_step 9 failed))
    with (next_command (after stale hs)).
  now rewrite Hc.
Qed.

(** An event that moves the cursor ends in [show_step]. *)
Lemma step_moves (w : wizard) (ev : event) :
  Reach.consistent w ->
  current_step (fst (step stale w ev)) <> current_step w ->
  exists l w1,
    fst (step stale w ev)
    = fst (show_step stale l
             (with_step (current_step (fst (step stale w ev))) w1))
    /\ (0 <= current_step (fst (step stale w ev)) <= 10)%Z
    /\ (w1 = w
        \/ (current_step w = 8%Z
            /\ exists e, users w = Some e /\ check_users e = None
                         /\ w1 = store_users e w)).
Proof.
  intros Hw.
  assert (Hnext : forall l,
    current_step (fst (next_step stale l w)) <> current_step w ->
    exists l0 w1,
      fst (next_step stale l w)
      = fst (show_step stale l0
               (with_step (current_step (fst (next_step stale l w))) w1))
      /\ (0 <= current_step (fst (next_step stale l w)) <= 10)%Z
      /\ (w1 = w
          \/ (current_step w = 8%Z
              /\ exists e, users w = Some e /\ check_users e = None
                           /\ w1 = store_users e w))).
  { intros l. destruct Hw as (_ & Hn & _).
    destruct (Z.eq_dec (current_step w) 10) as [E|E];
      [rewrite next_step_last by assumption; now intros []|].
    rewrite next_step_advance by assumption.
    destruct (advance_cases stale l w)
      as [(w1 & Hw1 & ->)|[(_ & _ & ->)|(_ & e & m & _ & _ & ->)]];
      try (now intros []).
    intros _. exists l, w1. rewrite show_step_step.
    cbn [current_step with_step].
    split; [reflexivity|]. split; [lia|].
    destruct Hw1 as [(-> & _)|H]; [now left|now right]. }
  assert (Hprev : forall l,
    current_step (fst (prev_step stale l w)) <> current_step w ->
    exists l0 w1,
      fst (prev_step stale l w)
      = fst (show_step stale l0
               (with_step (current_step (fst (prev_step stale l w))) w1))
      /\ (0 <= current_step (fst (prev_step stale l w)) <= 10)%Z
      /\ (w1 = w
          \/ (current_step w = 8%Z
              /\ exists e, users w = Some e /\ check_users e = None
                           /\ w1 = store_users e w))).
  { intros l. destruct Hw as (_ & Hn & _). unfold prev_step.
    destruct (current_step w >? 0)%Z eqn:E; [|now intros []].
    intros _. exists l, w. rewrite show_step_step.
    cbn [current_step with_step].
    split; [reflexivity|]. split; [lia|now left]. }
  destruct ev; cbn [step]; auto;
    try (intros H; exfalso; apply H;
         unfold on_screen, choose, on_mirror_selected, on_disk_selected,
           toggle, on_typed;
         repeat match goal with
                | |- context [match ?x with _ => _ end] => destruct x
                end;
         reflexivity).
  - destruct (next_enabled w); [|now intros []].
    destruct (next_command w); [auto|now intros []].
  - destruct (back_enabled w); [auto|now intros []].
Qed.

(** X9.  Every arrival on the users screen, from either side, makes the
    entries anew: they are empty but for the computer name, taken from the
    record, so what was typed before is gone, and Next is refused until the
    passwords are typed again. *)
Theorem users_screen_starts_blank (hs : list happening) (h : happening) :
  current_step (after stale hs) <> 8%Z ->
  current_step (fst (happen stale (after stale hs) h)) = 8%Z ->
  exists host,
    get "hostname" (config (after stale hs)) = Some (PStr host)
    /\ users (fst (happen stale (after stale hs) h))
       = Some (blank_entries host)
    /\ forall l,
         next_step stale l (fst (happen stale (after stale hs) h))
         = (fst (happen stale (after stale hs) h),
            [error "Root password is required."]).
Proof.
  intros Hne H8.
  pose proof (session_consistent stale hs) as Hw.
  assert (Hhost : exists host,
             get "hostname" (config (after stale hs)) = Some (PStr host)).
  { destruct (session_coherent stale hs)
      as [(_ & _ & _ & H & _)|(e & _ & (_ & _ & _ & H & _))]; eauto. }
  destruct Hhost as (host & Hhost). exists host.
  split; [assumption|].
  set (w := after stale hs) in *.
  assert (Hu : users (fst (happen stale w h)) = Some (blank_entries host)).
  { destruct h as [ev|cl t]; cbn [happen] in *.
    - destruct (step_moves w ev Hw) as (l & w1 & E & _ & Hw1);
        [congruence|].
      destruct Hw1 as [->|(H & _)]; [|contradiction].
      rewrite E, H8.
      now apply (show_step_blank stale l (with_step 8 w) (PStr host)).
    - destruct (dispatch_frame cl t w) as (_ & Hs & _). congruence. }
  split; [assumption|]. intros l.
  rewrite next_step_advance by congruence.
  unfold advance, validate_current_step. rewrite H8, Hu. reflexivity.
Qed.

Lemma next_worker (l : option pystr) (w : wizard) (cfg : dict) :
  Reach.consistent w ->
  In (StartWorker cfg) (snd (next_step stale l w)) ->
  current_step w = 9%Z /\ cfg = config w.
Proof.
  intros (_ & Hn & _).
  destruct (Z.eq_dec (current_step w) 10) as [E|E];
    [rewrite next_step_last by assumption; intros []|].
  rewrite next_step_advance by assumption.
  destruct (advance_cases stale l w)
    as [(w1 & Hw1 & ->)|[(_ & _ & ->)|(_ & e & m & _ & _ & ->)]];
    try (intros [H|[]]; discriminate).
  intros H. apply show_step_worker in H;
    [|cbn [current_step with_step]; lia].
  cbn [current_step with_step config] in H. destruct H as [H ->].
  split; [lia|].
  destruct Hw1 as [(-> & _)|(H8 & _)]; [reflexivity|lia].
Qed.

(** X10.  A worker is started in one way only: by [next_step] on the
    summary screen, called directly or through the button, and it gets the
    record as it stood on that screen. *)
Theorem worker_starts_from_summary
        (hs : list happening) (h : happening) (cfg : dict) :
  In (StartWorker cfg) (snd (happen stale (after stale hs) h)) ->
  current_step (after stale hs) = 9%Z
  /\ cfg = config (after stale hs)
  /\ exists l, h = User (Next l) \/ h = User (ClickNext l).
Proof.
  pose proof (session_consistent stale hs) as Hw.
  set (w := after stale hs) in *.
  destruct h as [ev|cl t]; cbn [happen].
  2: { destruct t, cl; simpl; intuition discriminate. }
  assert (Hprev : forall l, ~ In (StartWorker cfg)
                              (snd (prev_step stale l w))).
  { intros l. unfold prev_step. destruct Hw as (_ & Hn & _).
    destruct (current_step w >? 0)%Z eqn:E; [|intros []].
    intros H. apply show_step_worker in H;
      cbn [current_step with_step] in *; lia. }
  destruct ev; cbn [step];
    try (unfold on_screen, choose, on_mirror_selected, on_disk_selected,
           toggle, on_typed;
         repeat match goal with
                | |- context [match ?x with _ => _ end] => destruct x
                end;
         simpl; intuition discriminate).
  - intros H. destruct (next_worker lsblk w cfg Hw H). eauto.
  - intros H. now apply Hprev in H.
  - destruct (next_enabled w); [|intros []].
    destruct (next_command w); [|simpl; intuition discriminate].
    intros H. destruct (next_worker lsblk w cfg Hw H). eauto.
  - destruct (back_enabled w); [|intros []].
    intros H. now apply Hprev in H.
Qed.

(** X11.  Before the summary, going back loses nothing: from any of the
    screens 1 to 8, Back and then Next lead to the same screen with the
    same record. *)
Theorem back_then_next_returns
        (hs : list happening) (l l' : option pystr) :
  (0 < current_step (after stale hs) <= 8)%Z ->
  current_step (fst (next_step stale l'
                       (fst (prev_step stale l (after stale hs)))))
  = current_step (after stale hs)
  /\ config (fst (next_step stale l'
                    (fst (prev_step stale l (after stale hs)))))
     = config (after stale hs).
Proof.
  intros Hn.
  destruct (session_consistent stale hs) as (_ & _ & H5 & _).
  set (w := after stale hs) in *.
  unfold prev_step. replace (current_step w >? 0)%Z with true by lia.
  set (w0 := with_step (current_step w - 1)%Z w).
  assert (Hn0 : (0 <= current_step w0 <= 10)%Z)
    by (subst w0; cbn [current_step with_step]; lia).
  pose proof (show_step_step stale l w0) as Hs.
  pose proof (show_step_config stale l w0 Hn0) as Hc.
  set (b := fst (show_step stale l w0)) in *.
  change (current_step w0) with (current_step w - 1)%Z in Hs, Hc.
  replace (current_step w - 1 =? 9)%Z with false in Hc by lia.
  change (config w0) with (config w) in Hc.
  rewrite next_step_advance by lia.
  destruct (advance_cases stale l' b)
    as [(w1 & Hw1 & ->)|[(E5 & Ht & _)|(E8 & _)]]; [| |lia].
  - destruct Hw1 as [(-> & _)|(E8 & _)]; [|lia].
    rewrite show_step_step, show_step_config
      by (cbn [current_step with_step]; lia).
    cbn [current_step with_step config]. rewrite Hs.
    replace (current_step w - 1 + 1 =? 9)%Z with false by lia.
    split; [lia|assumption].
  - exfalso. rewrite Hc in Ht.
    destruct H5 as (d & Hd & Hne); [lia|].
    unfold get_or_none in Ht. rewrite Hd in Ht.
    destruct d; [now apply Hne|discriminate].
Qed.

End Sessions.

(** X12.  When [next_step] leaves the cursor where it was, before the last
    screen, it has changed nothing at all and has shown one error dialog:
    on the partition screen because no disk is chosen, on the users screen
    with the message of the first check that failed.  No other screen ever
    holds the user back. *)
Theorem refused_next_changes_nothing
        (stale : bool) (l : option pystr) (w : wizard) :
  current_step w <> 10%Z ->
  current_step (fst (next_step stale l w)) = current_step w ->
  fst (next_step stale l w) = w
  /\ ((current_step w = 5%Z
       /\ truthy (get_or_none "target_disk" (config w)) = false
       /\ snd (next_step stale l w)
          = [error "Please select a target disk."])
      \/ (current_step w = 8%Z
          /\ exists e message,
               users w = Some e /\ check_users e = Some message
               /\ snd (next_step stale l w) = [error message])).
Proof.
  intros Hlast. rewrite next_step_advance by assumption.
  destruct (advance_cases stale l w)
    as [(w1 & Hw1 & ->)|[(E5 & Ht & ->)|(E8 & e & m & Hu & Hck & ->)]].
  - rewrite show_step_step. cbn [current_step with_step]. lia.
  - intros _. split; [reflexivity|]. left. auto.
  - intros _. split; [reflexivity|]. right. split; [assumption|].
    now exists e, m.
Qed.

(** ** The disks offered and the disk chosen *)

Lemma available_disks_spec (stdout d : pystr) :
  In d (available_disks (Some stdout)) <->
  exists line name size ty rest,
    In line (split_char 10 (strip stdout))
    /\ contains (str "disk") line = true
    /\ split line = name :: size :: ty :: rest
    /\ d = str "/dev/" ++ name ++ str " (" ++ size ++ str ")".
Proof.
  unfold available_disks. rewrite in_flat_map. split.
  - intros (line & Hin & Hd). unfold disk_of_line in Hd.
    destruct (nonempty line && contains (str "disk") line) eqn:E;
      [|destruct Hd].
    apply andb_prop in E. destruct E as [_ Hc].
    destruct (split line) as [|name [|size [|ty rest]]] eqn:Es;
      try (now destruct Hd).
    destruct Hd as [<-|[]]. exists line, name, size, ty, rest. auto.
  - intros (line & name & size & ty & rest & Hin & Hc & Hs & ->).
    exists line. split; [assumption|]. unfold disk_of_line.
    rewrite Hc, Hs.
    assert (Hne : nonempty line = true)
      by (destruct line; [discriminate Hs|reflexivity]).
    rewrite Hne. left. reflexivity.
Qed.

Lemma available_offered (l : option pystr) (v : pystr) :
  In v (available_disks l) -> offered_form v.
Proof.
  destruct l as [stdout|].
  - intros H. apply available_disks_spec in H.
    destruct H as (line & name & size & ty & rest & _ & _ & Hs & ->).
    exists name, size.
    assert (Hin : In name (split line)) by (rewrite Hs; now left).
    split; [now apply (split_from_fields line [])|].
    split; [now apply (split_solid line)|reflexivity].
  - intros [<-|[]]. exists (str "sda"), (str "Unknown size").
    split; [discriminate|]. split; reflexivity.
Qed.

Lemma offered_split (name size : pystr) :
  Reach.solid name ->
  split (str "/dev/" ++ name ++ str " (" ++ size ++ str ")")
  = (str "/dev/" ++ name) :: split (str "(" ++ size ++ str ")").
Proof.
  intros Hs.
  replace (str "/dev/" ++ name ++ str " (" ++ size ++ str ")")
    with ((str "/dev/" ++ name) ++ 32 :: (str "(" ++ size ++ str ")"))
    by (now rewrite <- app_assoc).
  apply split_first.
  - now apply solid_app.
  - discriminate.
  - reflexivity.
Qed.

Section Disks.

Variable stale : bool.

(** The values of the disk selector change when the partition screen is
    drawn, and only then. *)
Lemma step_disks (w : wizard) (ev : event) :
  Reach.consistent w ->
  disk_values (fst (step stale w ev)) = disk_values w
  \/ exists l, current_step (fst (step stale w ev)) = 5%Z
               /\ disk_values (fst (step stale w ev)) = available_disks l.
Proof.
  intros Hw.
  destruct (Z.eq_dec (current_step (fst (step stale w ev)))
                     (current_step w)) as [E|E].
  - left. revert E.
    assert (Hnext : forall l,
      current_step (fst (next_step stale l w)) = current_step w ->
      disk_values (fst (next_step stale l w)) = disk_values w).
    { intros l.
      destruct (Z.eq_dec (current_step w) 10) as [E|E];
        [now rewrite next_step_last|].
      rewrite next_step_advance by assumption.
      destruct (advance_cases stale l w)
        as [(w1 & _ & ->)|[(_ & _ & ->)|(_ & e & m & _ & _ & ->)]];
        try reflexivity.
      rewrite show_step_step. cbn [current_step with_step]. lia. }
    assert (Hprev : forall l,
      current_step (fst (prev_step stale l w)) = current_step w ->
      disk_values (fst (prev_step stale l w)) = disk_values w).
    { intros l. unfold prev_step.
      destruct (current_step w >? 0)%Z eqn:E; [|reflexivity].
      rewrite show_step_step. cbn [current_step with_step]. lia. }
    destruct ev; cbn [step]; auto;
      try (intros _;
           unfold on_screen, choose, on_mirror_selected, on_disk_selected,
             toggle, on_typed;
           repeat match goal with
                  | |- context [match ?x with _ => _ end] => destruct x
                  end;
           reflexivity).
    + destruct (next_enabled w); [|reflexivity].
      destruct (next_command w); [auto|reflexivity].
    + destruct (back_enabled w); [auto|reflexivity].
  - destruct (step_moves stale w ev Hw E) as (l & w1 & E1 & Hn & Hw1).
    set (n := current_step (fst (step stale w ev))) in *.
    assert (Hdv : disk_values (fst (step stale w ev))
                  = if (n =? 5)%Z then available_disks l
                    else disk_values w).
    { rewrite E1, show_step_disks by (cbn [current_step with_step]; lia).
      cbn [current_step with_step].
      destruct Hw1 as [->|(_ & e & _ & _ & ->)]; reflexivity. }
    rewrite Hdv. destruct (n =? 5)%Z eqn:E5.
    + right. exists l. split; [lia|reflexivity].
    + now left.
Qed.

Lemma session_offered (hs : list happening) (v : pystr) :
  In v (disk_values (after stale hs)) -> offered_form v.
Proof.
  unfold after. revert v.
  assert (H : Reach.consistent (init stale)
              /\ forall v, In v (disk_values (init stale)) ->
                           offered_form v)
    by (split; [apply init_consistent|intros v []]).
  revert H. generalize (init stale).
  induction hs as [|h hs IH]; intros w [Hw Hd]; simpl; [assumption|].
  apply IH. split; [now apply happen_consistent|].
  destruct h as [ev|cl t]; cbn [happen].
  - destruct (step_disks w ev Hw) as [->|(l & _ & ->)]; [assumption|].
    intros v. apply available_offered.
  - destruct (dispatch_frame cl t w) as (_ & _ & _ & -> & _). assumption.
Qed.

(** X14.  Selecting an entry of the disk selector never fails, and what it
    stores is read off the entry selected: the entry is [/dev/], a
    non-empty name without blanks, a blank and a size in brackets, and on
    the partition screen [target_disk] becomes [/dev/] with that name.
    Away from the partition screen, or without such an entry, nothing
    happens. *)
Theorem disk_selection_stores_device (hs : list happening) (i : nat) :
  snd (step stale (after stale hs) (SelectDisk i)) = []
  /\ match nth_error (disk_values (after stale hs)) i with
     | Some v =>
         exists name size,
           v = str "/dev/" ++ name ++ str " (" ++ size ++ str ")"
           /\ name <> [] /\ Reach.solid name
           /\ fst (step stale (after stale hs) (SelectDisk i))
              = if (current_step (after stale hs) =? 5)%Z
                then update_config "target_disk"
                       (PStr (str "/dev/" ++ name)) (after stale hs)
                else after stale hs
     | None =>
         fst (step stale (after stale hs) (SelectDisk i)) = after stale hs
     end.
Proof.
  cbn [step]. unfold on_screen, on_disk_selected.
  destruct (nth_error (disk_values (after stale hs)) i) as [v|] eqn:E.
  - apply nth_error_In, session_offered in E.
    destruct E as (name & size & Hne & Hs & ->).
    rewrite offered_split by assumption.
    destruct (current_step (after stale hs) =? 5)%Z;
      (split; [reflexivity|]); exists name, size; auto.
  - now destruct (current_step (after stale hs) =? 5)%Z.
Qed.

(** The state of a wizard that has found no disk so far. *)
Lemma step_without_disk (w : wizard) (ev : event) :
  finds_no_disk ev -> Reach.consistent w ->
  disk_values w = [] ->
  get "target_disk" (config w) = Some PNone ->
  (current_step w <= 5)%Z ->
  disk_values (fst (step stale w ev)) = []
  /\ get "target_disk" (config (fst (step stale w ev))) = Some PNone
  /\ (current_step (fst (step stale w ev)) <= 5)%Z.
Proof.
  intros Hev Hw Hd Ht H5. pose proof Hw as (_ & Hn & _).
  assert (Hnext : forall l, available_disks l = [] ->
    disk_values (fst (next_step stale l w)) = []
    /\ get "target_disk" (config (fst (next_step stale l w))) = Some PNone
    /\ (current_step (fst (next_step stale l w)) <= 5)%Z).
  { intros l Hl. rewrite next_step_advance by lia.
    destruct (advance_cases stale l w)
      as [(w1 & Hw1 & ->)|[(_ & _ & ->)|(E8 & _)]]; [|auto|lia].
    destruct Hw1 as [(-> & Hdisk & _)|(E8 & _)]; [|lia].
    assert (Hlt : (current_step w < 5)%Z).
    { destruct (Z.eq_dec (current_step w) 5) as [E|E]; [|lia].
      apply Hdisk in E. unfold get_or_none in E. rewrite Ht in E.
      discriminate. }
    rewrite show_step_step, show_step_disks, show_step_config
      by (cbn [current_step with_step]; lia).
    cbn [current_step with_step config disk_values].
    replace (current_step w + 1 =? 9)%Z with false by lia.
    split; [|split; [assumption|lia]].
    now destruct (current_step w + 1 =? 5)%Z. }
  assert (Hprev : forall l,
    disk_values (fst (prev_step stale l w)) = []
    /\ get "target_disk" (config (fst (prev_step stale l w))) = Some PNone
    /\ (current_step (fst (prev_step stale l w)) <= 5)%Z).
  { intros l. unfold prev_step.
    destruct (current_step w >? 0)%Z eqn:E; [|auto].
    rewrite show_step_step, show_step_disks, show_step_config
      by (cbn [current_step with_step]; lia).
    cbn [current_step with_step config disk_values].
    replace (current_step w - 1 =? 9)%Z with false by lia.
    replace (current_step w - 1 =? 5)%Z with false by lia.
    split; [assumption|split; [assumption|lia]]. }
  destruct ev; cbn [step]; cbn [finds_no_disk] in Hev; auto;
    try (unfold on_screen, choose, on_mirror_selected, on_disk_selected,
           toggle, on_typed; rewrite ?Hd, ?nth_error_nil;
         repeat match goal with
                | |- context [match ?x with _ => _ end] => destruct x
                end;
         cbn [fst config disk_values current_step update_config
              with_config with_users];
         rewrite ?get_set_other by discriminate; auto).
Qed.

(** X15.  Where [lsblk] runs but lists nothing that is taken for a disk,
    the wizard is a dead end: the selector stays empty, no disk can be
    chosen, and no sequence of events leads past the partition screen.
    (When [lsblk] cannot be run at all, [/dev/sda] is offered instead.) *)
Theorem no_disk_no_way_on (evs : list event) :
  Forall finds_no_disk evs ->
  (current_step (reached stale evs) <= 5)%Z
  /\ get "target_disk" (config (reached stale evs)) = Some PNone
  /\ disk_values (reached stale evs) = [].
Proof.
  unfold reached.
  assert (H : Reach.consistent (init stale)
              /\ disk_values (init stale) = []
              /\ get "target_disk" (config (init stale)) = Some PNone
              /\ (current_step (init stale) <= 5)%Z)
    by (split; [apply init_consistent|repeat split; discriminate]).
  revert H. generalize (init stale).
  induction evs as [|ev evs IH]; intros w (Hw & Hd & Ht & H5) Hall.
  - simpl. auto.
  - inversion Hall as [|? ? Hev Hrest]; subst. simpl. apply IH.
    + split; [now apply step_consistent|].
      now apply step_without_disk.
    + assumption.
Qed.

End Disks.

(** ** The worker's log lines and the end of a run *)

Lemma after_first_bracket (pre msg : pystr) :
  ~ In 93 pre -> after_first (str "] ") (pre ++ str "] " ++ msg) = Some msg.
Proof.
  change (str "] ") with [93; 32].
  induction pre as [|c pre IH]; intros Hpre; [reflexivity|].
  assert (Hc : (93 =? c) = false)
    by (apply N.eqb_neq; intros <-; apply Hpre; now left).
  cbn [app after_first startswith]. rewrite Hc. cbn [andb].
  apply IH. intros H. apply Hpre. now right.
Qed.

(** X16.  A log line of the backend, a stamp in square brackets followed by
    a blank and a message, makes the worker schedule one change of the
    status text, to the message without the blanks and the newline around
    it; the line is cut at the first [] ] it holds. *)
Theorem log_line_sets_status (pre msg : pystr) :
  ~ In 93 pre ->
  status_update (pre ++ str "] " ++ msg) = [After (SetStatus (strip msg))].
Proof.
  intros Hpre. unfold status_update.
  rewrite contains_app, after_first_bracket by assumption.
  now destruct pre.
Qed.

Lemma statuses_are_statuses (lines : list pystr) :
  forallb (fun t => negb (is_outcome t))
          (scheduled (flat_map status_update lines)) = true.
Proof.
  induction lines as [|line lines IH]; [reflexivity|].
  cbn [flat_map]. rewrite scheduled_app, forallb_app, IH, andb_true_r.
  unfold status_update. destruct (_ && _); [|reflexivity].
  now destruct (after_first _ _).
Qed.

(** X17.  Every run of the worker schedules exactly one callable that ends
    the run, and schedules it last: whatever the backend prints and however
    it ends, the callables before it only change the status text. *)
Theorem run_schedules_one_outcome (m : machine) (cfg : dict) :
  exists statuses final,
    scheduled (perform_installation m cfg) = statuses ++ [final]
    /\ forallb (fun t => negb (is_outcome t)) statuses = true
    /\ is_outcome final = true.
Proof.
  unfold perform_installation.
  destruct (backend_present m); cbn [negb];
    [|now eexists [], _].
  destruct (write_error m) as [message|]; [now eexists [], _|].
  destruct (launch m) as [message|p]; [now eexists [_], _|].
  cbn [scheduled]. unfold monitor. rewrite scheduled_app.
  eexists (_ :: scheduled (flat_map status_update (output p))), _.
  split; [|split].
  - cbn [app]. f_equal. f_equal.
    instantiate (1 := match monitor_error p with
                      | Some message => ErrorWithE message
                      | None => if (returncode p =? 0)%Z then Complete
                                else ErrorWith (unread p)
                      end).
    destruct (monitor_error p); [reflexivity|].
    now destruct (returncode p =? 0)%Z.
  - cbn [forallb is_outcome negb andb]. apply statuses_are_statuses.
  - destruct (monitor_error p); [reflexivity|].
    now destruct (returncode p =? 0)%Z.
Qed.

Lemma with_install_twice (s s' : option pystr) (b b' : bool) (w : wizard) :
  with_install s b (with_install s' b' w) = with_install s b w.
Proof. reflexivity. Qed.

(** X18.  The install screen after a run in which nothing raised: when the
    backend has exited with 0 the label reads that the installation is
    complete, the bar has stopped and the two buttons are still disabled;
    otherwise the label reads that it failed, the bar has stopped and both
    buttons are enabled.  The record and the cursor are as they were. *)
Theorem run_leaves_install_screen
        (cl : bool) (m : machine) (p : process) (w : wizard) :
  backend_present m = true -> write_error m = None ->
  launch m = inr p -> monitor_error p = None ->
  fst (installation_run cl m w)
  = if (returncode p =? 0)%Z
    then with_install (Some (str "Installation completed successfully!"))
                      false w
    else with_buttons true true (next_text w) (next_command w)
           (with_install (Some (str "Installation failed!")) false w).
Proof.
  intros Hb Hw Hl Hm. unfold installation_run, perform_installation.
  rewrite Hb, Hw, Hl. cbn [negb scheduled]. unfold monitor. rewrite Hm.
  rewrite scheduled_app. cbn [mainloop dispatch].
  set (w1 := with_install _ _ w).
  destruct (statuses_are_silent cl (output p)
              (scheduled (if (returncode p =? 0)%Z then [After Complete]
                          else [After (ErrorWith (unread p))])) w1)
    as (s & E).
  rewrite E. destruct (returncode p =? 0)%Z; reflexivity.
Qed.

(** ** The configuration file *)

Lemma hex_digit_plain (n : N) : n < 16 -> plain (hex_digit n) = true.
Proof.
  intros H. unfold hex_digit, plain.
  apply orb_true_iff. left. apply andb_true_iff.
  destruct (n <? 10) eqn:E; split; apply N.leb_le;
    try apply N.ltb_lt in E; try apply N.ltb_ge in E; lia.
Qed.

Lemma u_escape_plain (n : N) : forallb plain (u_escape n) = true.
Proof.
  unfold u_escape, hex4. cbn [forallb].
  rewrite !hex_digit_plain by (apply N.mod_lt; discriminate).
  reflexivity.
Qed.

Lemma escape_char_plain (c : N) : forallb plain (escape_char c) = true.
Proof.
  unfold escape_char.
  repeat match goal with
         | |- context [if ?b then _ else _] =>
             destruct b eqn:?; [try reflexivity|]
         end.
  - cbn [forallb]. unfold plain.
    match goal with H : (_ && _) = true |- _ => now rewrite H end.
  - apply u_escape_plain.
  - rewrite forallb_app, !u_escape_plain. reflexivity.
Qed.

Lemma dump_str_plain (s : pystr) : forallb plain (dump_str s) = true.
Proof.
  unfold dump_str. cbn [forallb]. rewrite forallb_app.
  replace (forallb plain (flat_map escape_char s)) with true;
    [reflexivity|].
  induction s as [|c s IH]; [reflexivity|].
  cbn [flat_map]. now rewrite forallb_app, escape_char_plain, <- IH.
Qed.

Lemma member_plain (kv : string * value) : forallb plain (member kv) = true.
Proof.
  unfold member. rewrite !forallb_app, dump_str_plain.
  destruct kv as [k [|[|]|s]]; cbn [snd dump_value andb];
    try reflexivity.
  now rewrite dump_str_plain.
Qed.

Lemma join_plain (sep : pystr) (l : list pystr) :
  forallb plain sep = true ->
  (forall x, In x l -> forallb plain x = true) ->
  forallb plain (join sep l) = true.
Proof.
  intros Hsep. induction l as [|x l IH]; intros Hl; [reflexivity|].
  destruct l as [|y l]; [apply Hl; now left|].
  change (join sep (x :: y :: l)) with (x ++ sep ++ join sep (y :: l)).
  rewrite !forallb_app, Hsep, (Hl x) by now left.
  rewrite IH; [reflexivity|]. intros z Hz. apply Hl. now right.
Qed.

(** X19.  Whatever the record holds, passwords in any script included, the
    configuration file is made of printable ASCII characters and newlines
    only. *)
Theorem record_file_is_plain_ascii (d : dict) :
  forallb plain (dumps_indent2 d) = true.
Proof.
  unfold dumps_indent2. destruct d as [|kv d]; [reflexivity|].
  rewrite !forallb_app. rewrite join_plain; [reflexivity|reflexivity|].
  intros x Hx. apply in_map_iff in Hx. destruct Hx as (kv' & <- & _).
  apply member_plain.
Qed.

(** ** The summary and the mirror *)

Section SummaryText.

Variable stale : bool.


End SummaryText.

(** X21.  Selecting an item of the mirror list stores the code that goes
    with the name shown: the names are distinct, so the lookup by name
    finds the item itself, and it never fails. *)
Theorem mirror_selection_stores_code (i : nat) (w : wizard) :
  on_mirror_selected i w
  = match nth_error mirrors i with
    | Some (_, code) => (update_config "mirror_country" (PStr code) w, [])
    | None => (w, [])
    end.
Proof.
  unfold on_mirror_selected.
  do 8 (destruct i as [|i]; [vm_compute; reflexivity|]).
  destruct i; vm_compute; reflexivity.
Qed.

(** ** The output of [lsblk], row by row *)

Import Lsblk.

Lemma solid_cons (c : N) (s : pystr) :
  Reach.solid (c :: s) -> isspace c = false /\ Reach.solid s.
Proof.
  unfold Reach.solid. cbn [forallb]. intros H.
  apply andb_prop in H. destruct H as [Hc Hs].
  apply negb_true_iff in Hc. now split.
Qed.

Lemma field_head (s : pystr) :
  field s -> exists c t, s = c :: t /\ isspace c = false.
Proof.
  intros [Hne Hs]. destruct s as [|c t]; [now contradiction Hne|].
  exists c, t. split; [reflexivity|]. now apply solid_cons in Hs.
Qed.

Lemma field_last (s : pystr) :
  field s -> exists t c, s = t ++ [c] /\ isspace c = false.
Proof.
  intros [Hne Hs]. destruct (exists_last Hne) as (t & c & ->).
  exists t, c. split; [reflexivity|].
  unfold Reach.solid in Hs. rewrite forallb_app in Hs.
  apply andb_prop in Hs. destruct Hs as [_ Hc]. cbn [forallb] in Hc.
  rewrite andb_true_r in Hc. now apply negb_true_iff in Hc.
Qed.

(** A line without a newline: the fields hold none, nor do the blanks. *)
Lemma solid_no_newline (s : pystr) :
  Reach.solid s -> forallb (fun c => negb (c =? 10)) s = true.
Proof.
  unfold Reach.solid. rewrite !forallb_forall. intros H c Hc.
  specialize (H c Hc). destruct (c =? 10) eqn:E; [|reflexivity].
  apply N.eqb_eq in E. subst c. discriminate H.
Qed.

Lemma blanks_no_newline (n : nat) :
  forallb (fun c => negb (c =? 10)) (blanks n) = true.
Proof.
  unfold blanks. apply forallb_forall. intros c Hc.
  apply repeat_spec in Hc. now subst c.
Qed.

Lemma line_no_newline (r : row) :
  proper r -> forallb (fun c => negb (c =? 10)) (line_of r) = true.
Proof.
  intros ((_ & H1) & (_ & H2) & (_ & H3)). unfold line_of.
  rewrite !forallb_app, (solid_no_newline _ H1), (solid_no_newline _ H2),
    (solid_no_newline _ H3), !blanks_no_newline.
  reflexivity.
Qed.

Lemma split_char_run (a cur s : pystr) :
  forallb (fun c => negb (c =? 10)) a = true ->
  split_char_from 10 cur (a ++ s) = split_char_from 10 (rev a ++ cur) s.
Proof.
  revert cur. induction a as [|c a IH]; intros cur Ha; [reflexivity|].
  cbn [forallb] in Ha. apply andb_prop in Ha. destruct Ha as [Hc Ha].
  apply negb_true_iff in Hc.
  cbn [app split_char_from]. rewrite Hc, IH by assumption.
  cbn [rev]. now rewrite <- app_assoc.
Qed.

Lemma split_char_last (a : pystr) :
  forallb (fun c => negb (c =? 10)) a = true -> split_char 10 a = [a].
Proof.
  intros Ha. unfold split_char.
  rewrite <- (app_nil_r a) at 1. rewrite split_char_run by assumption.
  cbn [split_char_from]. now rewrite app_nil_r, rev_involutive.
Qed.

Lemma split_char_first (a s : pystr) :
  forallb (fun c => negb (c =? 10)) a = true ->
  split_char 10 (a ++ 10 :: s) = a :: split_char 10 s.
Proof.
  intros Ha. unfold split_char. rewrite split_char_run by assumption.
  cbn [split_char_from N.eqb Pos.eqb].
  now rewrite app_nil_r, rev_involutive.
Qed.

(** The lines of the output, once the last newline is stripped. *)
Lemma split_char_lines (r : row) (rows : list row) :
  Forall proper (r :: rows) ->
  split_char 10 (join [10] (map line_of (r :: rows)))
  = map line_of (r :: rows).
Proof.
  revert r. induction rows as [|r' rows IH]; intros r Hall.
  - inversion Hall; subst. cbn [map join].
    now apply split_char_last, line_no_newline.
  - inversion Hall; subst.
    change (join [10] (map line_of (r :: r' :: rows)))
      with (line_of r ++ 10 :: join [10] (map line_of (r' :: rows))).
    rewrite split_char_first by now apply line_no_newline.
    now rewrite IH.
Qed.

Lemma printed_join (r : row) (rows : list row) :
  printed (r :: rows) = join [10] (map line_of (r :: rows)) ++ [10].
Proof.
  revert r. induction rows as [|r' rows IH]; intros r.
  - cbn [printed flat_map map join]. now rewrite app_nil_r.
  - change (printed (r :: r' :: rows))
      with ((line_of r ++ [10]) ++ printed (r' :: rows)).
    change (join [10] (map line_of (r :: r' :: rows)))
      with (line_of r ++ [10] ++ join [10] (map line_of (r' :: rows))).
    rewrite IH. now rewrite <- !app_assoc.
Qed.

Lemma line_head (r : row) :
  proper r -> exists c t, line_of r = c :: t /\ isspace c = false.
Proof.
  intros (H1 & _). destruct (field_head _ H1) as (c & t & E & Hc).
  unfold line_of. rewrite E. exists c. eexists.
  split; [reflexivity|assumption].
Qed.

Lemma line_last (r : row) :
  proper r -> exists t c, line_of r = t ++ [c] /\ isspace c = false.
Proof.
  intros (_ & _ & H3). destruct (field_last _ H3) as (t & c & E & Hc).
  unfold line_of. rewrite E.
  exists (row_name r ++ blanks (gap_size r) ++ row_size r
          ++ blanks (gap_type r) ++ t), c.
  split; [now rewrite <- !app_assoc|assumption].
Qed.

Lemma join_head (r : row) (rows : list row) :
  proper r ->
  exists c t, join [10] (map line_of (r :: rows)) = c :: t
              /\ isspace c = false.
Proof.
  intros Hr. destruct (line_head r Hr) as (c & t & E & Hc).
  destruct rows as [|r' rows].
  - cbn [map join]. eauto.
  - change (join [10] (map line_of (r :: r' :: rows)))
      with (line_of r ++ [10] ++ join [10] (map line_of (r' :: rows))).
    rewrite E. exists c. eexists. split; [reflexivity|assumption].
Qed.

Lemma join_last (r : row) (rows : list row) :
  Forall proper (r :: rows) ->
  exists t c, join [10] (map line_of (r :: rows)) = t ++ [c]
              /\ isspace c = false.
Proof.
  revert r. induction rows as [|r' rows IH]; intros r Hall;
    inversion Hall; subst.
  - cbn [map join]. now apply line_last.
  - destruct (IH r') as (t & c & E & Hc); [assumption|].
    change (join [10] (map line_of (r :: r' :: rows)))
      with (line_of r ++ [10] ++ join [10] (map line_of (r' :: rows))).
    rewrite E. exists (line_of r ++ [10] ++ t), c.
    split; [now rewrite <- !app_assoc|assumption].
Qed.

(** [strip] takes the last newline of the output away, and nothing else. *)
Lemma strip_printed (r : row) (rows : list row) :
  Forall proper (r :: rows) ->
  strip (printed (r :: rows)) = join [10] (map line_of (r :: rows)).
Proof.
  intros Hall. rewrite printed_join.
  assert (Hr : proper r) by now inversion Hall.
  destruct (join_head r rows Hr) as (c & t & E & Hc).
  destruct (join_last r rows Hall) as (t' & c' & E' & Hc').
  unfold strip.
  assert (H1 : lstrip (join [10] (map line_of (r :: rows)) ++ [10])
               = join [10] (map line_of (r :: rows)) ++ [10]).
  { rewrite E. cbn [app lstrip]. now rewrite Hc. }
  rewrite H1, rev_app_distr. cbn [rev app lstrip].
  replace (isspace 10) with true by reflexivity.
  rewrite E', rev_app_distr. cbn [rev app lstrip]. rewrite Hc'.
  change (c' :: rev t') with (rev [c'] ++ rev t').
  now rewrite <- rev_app_distr, rev_involutive.
Qed.

Lemma split_blanks (n : nat) (s : pystr) :
  split (repeat 32 n ++ s) = split s.
Proof. induction n as [|n IH]; [reflexivity|exact IH]. Qed.

Lemma split_word (t : pystr) : field t -> split t = [t].
Proof.
  intros [Hne Hs]. unfold split.
  rewrite <- (app_nil_r t) at 1. rewrite split_from_run by assumption.
  cbn [split_from]. rewrite app_nil_r.
  destruct (rev t) as [|x r] eqn:E.
  - apply (f_equal (@rev N)) in E. rewrite rev_involutive in E.
    now contradiction Hne.
  - now rewrite <- E, rev_involutive.
Qed.

(** The three fields of a line. *)
Lemma split_line (r : row) :
  proper r -> split (line_of r) = [row_name r; row_size r; row_type r].
Proof.
  intros ((N1 & S1) & (N2 & S2) & H3). unfold line_of, blanks.
  cbn [repeat app].
  rewrite split_first by (assumption || reflexivity).
  rewrite split_blanks.
  rewrite split_first by (assumption || reflexivity).
  now rewrite split_blanks, split_word.
Qed.

Lemma disk_of_proper_line (r : row) :
  proper r ->
  disk_of_line (line_of r)
  = if mentions_disk r then [entry_of r] else [].
Proof.
  intros Hr. unfold disk_of_line, mentions_disk.
  destruct (line_head r Hr) as (c & t & E & _).
  assert (Hne : nonempty (line_of r) = true) by now rewrite E.
  rewrite Hne, split_line by assumption. cbn [andb].
  now destruct (contains (str "disk") (line_of r)).
Qed.

Lemma disks_of_lines (rows : list row) :
  Forall proper rows ->
  flat_map disk_of_line (map line_of rows)
  = map entry_of (filter mentions_disk rows).
Proof.
  induction 1 as [|r rows Hr Hall IH]; [reflexivity|].
  cbn [map flat_map filter]. rewrite IH, disk_of_proper_line by assumption.
  now destruct (mentions_disk r).
Qed.

(** X13.  What [partition_step] offers when [lsblk] has printed its rows,
    each on a line of three fields without blanks: exactly one entry, made
    of the name and the size, for each row on whose line the letters [disk]
    stand somewhere, in the order of the rows and as often as a row is
    printed.  The type is not compared as a field: a row of another type
    is offered when its name holds these letters. *)
Theorem lsblk_rows_are_offered_in_order (rows : list row) :
  Forall proper rows ->
  available_disks (Some (printed rows))
  = map entry_of (filter mentions_disk rows).
Proof.
  intros Hall. destruct rows as [|r rows]; [reflexivity|].
  unfold available_disks.
  rewrite strip_printed, split_char_lines by assumption.
  now apply disks_of_lines.
Qed.

(** ** The record the worker gets *)

Lemma newline_breaks_hostname (s : pystr) :
  Claimed.hostname_fullmatch (s ++ [10]) = false.
Proof.
  unfold Claimed.hostname_fullmatch. rewrite forallb_app.
  cbn [forallb]. replace (in_class alnum_hyphen 10) with false by reflexivity.
  now rewrite !andb_false_r.
Qed.

Section Worker.

Variable stale : bool.

Lemma run_app (w : wizard) (evs evs' : list event) :
  run stale w (evs ++ evs') = run stale (run stale w evs) evs'.
Proof.
  revert w. induction evs as [|ev evs IH]; intros w; [reflexivity|].
  simpl. apply IH.
Qed.

(** Next on a users screen whose entries pass: the summary, with the
    entries in the record. *)
Lemma summary_after_users (l : option pystr) (w : wizard) (e : entries) :
  Reach.consistent w -> current_step w = 8%Z -> users w = Some e ->
  Reach.passes e ->
  current_step (fst (next_step stale l w)) = 9%Z
  /\ users (fst (next_step stale l w)) = Some e
  /\ config (fst (next_step stale l w)) = stored_accounts e (config w).
Proof.
  intros Hw H8 Hu Hp. apply check_users_passes in Hp.
  rewrite next_step_advance by lia.
  destruct (advance_cases stale l w)
    as [(w1 & Hw1 & ->)|[(E5 & _)|(_ & e' & m & Hu' & Hck & _)]];
    [|lia|congruence].
  destruct Hw1 as [(_ & _ & Hnone)|(_ & e' & Hu' & _ & ->)];
    [rewrite Hnone in Hu by assumption; discriminate|].
  assert (e' = e) by congruence. subst e'.
  set (w' := with_step (current_step w + 1)%Z (store_users e w)).
  assert (Hn : (0 <= current_step w' <= 10)%Z)
    by (subst w'; cbn [current_step with_step]; lia).
  pose proof (show_step_users stale l w' Hn) as Hus.
  rewrite show_step_step, show_step_config by assumption.
  subst w'. cbn [current_step with_step] in *.
  replace (current_step w + 1 =? 9)%Z with true by lia.
  replace (current_step w + 1 =? 8)%Z with false in Hus by lia.
  split; [lia|]. split.
  - rewrite Hus. exact Hu.
  - change (users (with_step (current_step w + 1)%Z (store_users e w)))
      with (users w).
    change (config (with_step (current_step w + 1)%Z (store_users e w)))
      with (config (store_users e w)).
    rewrite Hu, stored_accounts_config.
    destruct stale; [reflexivity|].
    apply collect_recorded, recorded_stored.
Qed.

(** Next on the summary starts the worker with the record as it is. *)
Lemma worker_after_summary (l : option pystr) (w : wizard) :
  current_step w = 9%Z ->
  snd (next_step stale l w) = [StartWorker (config w)].
Proof.
  intros H9. rewrite next_step_advance by lia.
  destruct (advance_cases stale l w)
    as [(w1 & Hw1 & ->)|[(E5 & _)|(E8 & _)]]; [|lia|lia].
  destruct Hw1 as [(-> & _)|(E8 & _)]; [|lia].
  destruct (show_step_render stale l (with_step (current_step w + 1)%Z w))
    as (sc & Hsc & ->); [cbn [current_step with_step]; lia|].
  cbn [current_step with_step] in Hsc. rewrite H9 in Hsc.
  injection Hsc as <-. reflexivity.
Qed.

(** C1.  The record is meant to reach the worker fully validated, with a
    user name and a computer name that match their patterns.  The checks
    of the users screen are made with [re.match] and [$], which let a final
    newline through: on any users screen whose entries pass with names that
    match in full, a newline typed after both names, Next and Next again
    start the worker, and the record it is given holds both names with
    their newlines.  Neither matches its pattern, and the record is not
    validated. *)
Theorem unmatched_names_reach_worker
        (evs : list event) (e : entries) (l1 l2 : option pystr) :
  current_step (reached stale evs) = 8%Z ->
  users (reached stale evs) = Some e -> Reach.passes e ->
  Claimed.username_fullmatch (username_entry e) = true ->
  Claimed.hostname_fullmatch (hostname_entry e) = true ->
  let summary :=
    reached stale
      (evs ++ [Type_ Username (username_entry e ++ [10]);
               Type_ Hostname (hostname_entry e ++ [10]); Next l1]) in
  snd (step stale summary (Next l2)) = [StartWorker (config summary)]
  /\ get "username" (config summary)
     = Some (PStr (username_entry e ++ [10]))
  /\ get "hostname" (config summary)
     = Some (PStr (hostname_entry e ++ [10]))
  /\ Claimed.username_fullmatch (username_entry e ++ [10]) = false
  /\ Claimed.hostname_fullmatch (hostname_entry e ++ [10]) = false
  /\ ~ Claimed.validated (config summary).
Proof.
  intros H8 Hu Hp Hname Hhost summary.
  pose proof (reachable_consistent stale evs) as Hw.
  set (w := reached stale evs) in *.
  set (e' := type_into Hostname (hostname_entry e ++ [10])
               (type_into Username (username_entry e ++ [10]) e)).
  assert (Hp' : Reach.passes e').
  { destruct Hp as (H1 & H2 & _ & H4 & H5 & _).
    unfold Reach.passes. subst e'. cbn.
    do 2 (split; [assumption|]).
    split; [apply username_re_fullmatch; right; eauto|].
    do 2 (split; [assumption|]).
    apply hostname_re_fullmatch; right; eauto. }
  assert (Hs : summary = fst (next_step stale l1 (with_users (Some e') w))).
  { assert (E1 : fst (step stale w
                        (Type_ Username (username_entry e ++ [10])))
                 = with_users
                     (Some (type_into Username (username_entry e ++ [10])
                                      e)) w).
    { cbn [step]. unfold on_screen, on_typed. now rewrite H8, Hu. }
    assert (E2 : fst (step stale
                        (with_users
                           (Some (type_into Username
                                            (username_entry e ++ [10]) e))
                           w)
                        (Type_ Hostname (hostname_entry e ++ [10])))
                 = with_users (Some e') w).
    { cbn [step]. unfold on_screen, on_typed.
      cbn [current_step users with_users]. now rewrite H8. }
    subst summary. unfold reached. rewrite run_app.
    fold (reached stale evs). fold w. cbn [run]. rewrite E1, E2.
    reflexivity. }
  assert (Hw' : Reach.consistent (with_users (Some e') w)).
  { destruct Hw as (Hc & Hn & H5 & _ & _).
    refine (conj Hc (conj Hn (conj H5 (conj _ _)))).
    - intros _. discriminate.
    - intros H. exfalso.
      change (current_step (with_users (Some e') w))
        with (current_step w) in H. lia. }
  destruct (summary_after_users l1 (with_users (Some e') w) e' Hw' H8
              eq_refl Hp') as (H9 & _ & Hcfg).
  rewrite <- Hs in H9, Hcfg.
  assert (Hun : get "username" (config summary)
                = Some (PStr (username_entry e ++ [10]))).
  { rewrite Hcfg. unfold stored_accounts.
    repeat (rewrite get_set_same || rewrite get_set_other by discriminate).
    reflexivity. }
  split; [cbn [step]; now apply worker_after_summary|].
  split; [assumption|]. split.
  { rewrite Hcfg. unfold stored_accounts.
    repeat (rewrite get_set_same || rewrite get_set_other by discriminate).
    reflexivity. }
  split; [apply newline_breaks_username|].
  split; [apply newline_breaks_hostname|].
  intros (d & r & p & u & h & _ & _ & _ & _ & _ & _ & Hu' & Hfull & _).
  rewrite Hun in Hu'. injection Hu' as <-.
  now rewrite newline_breaks_username in Hfull.
Qed.

End Worker.
(** ** Instances *)

Lemma unmatched_names_reach_worker_witness :
  ~ Claimed.validated
      (config (reached true
                 (Trial.filled
                  ++ [Type_ Username
                        (username_entry Sample.named_entries ++ [10]);
                      Type_ Hostname
                        (hostname_entry Sample.named_entries ++ [10]);
                      Next None]))).
Proof.
  refine (proj2 (proj2 (proj2 (proj2 (proj2
            (unmatched_names_reach_worker true Trial.filled
               Sample.named_entries None None _ _ _ _ _)))))).
  - vm_compute. reflexivity.
  - vm_compute. reflexivity.
  - unfold passes. simpl. repeat split; try discriminate; reflexivity.
  - reflexivity.
  - reflexivity.
Defined.

Lemma next_without_disk_stays_witness :
  next_step true None (reached true Sample.to_partition)
  = (reached true Sample.to_partition,
     [error "Please select a target disk."]).
Proof.
  refine (proj1 (next_without_disk_stays true None
                   (reached true Sample.to_partition) _ _));
    reflexivity.
Defined.

Lemma record_written_before_launch_witness :
  keys Sample.secret_record =
  ["target_disk"; "filesystem"; "desktop_environment"; "root_password";
   "username"; "user_password"; "user_fullname"; "hostname"; "language";
   "keyboard"; "timezone"; "mirror_country"; "install_nvidia";
   "install_nonfree"].
Proof.
  refine (proj2 (record_written_before_launch true
                   (Sample.to_summary (str "alice") Sample.root_secret
                                      Sample.user_secret)
                   (Next None) Sample.secret_record Sample.working_machine
                   [backend_script] Sample.quiet_backend _ _)).
  - vm_compute. left. reflexivity.
  - right. right. left. reflexivity.
Defined.

Lemma live_medium_offered_then_refused_witness :
  fst (Engine.run_engine Sample.live_usb_host
                         (Sample.request (str "/dev/sdb"))) = [].
Proof.
  refine (proj1 (proj1 (live_medium_offered_then_refused
                          Sample.live_usb_host
                          (Sample.request (str "/dev/sdb")) _))).
  reflexivity.
Defined.

Lemma final_newline_is_accepted_witness :
  fst (fst (validate_current_step
              (on_typed Username Sample.pasted_name Sample.named_screen)))
  = true.
Proof.
  refine (f_equal (fun r => fst (fst r))
            (proj1 (proj2 (final_newline_is_accepted
                             Sample.named_screen Sample.named_entries
                             _ _ _ _)))).
  - reflexivity.
  - vm_compute. reflexivity.
  - unfold passes. simpl. repeat split; try discriminate; reflexivity.
  - reflexivity.
Defined.

Lemma raised_exception_goes_unreported_witness :
  report_of (snd (installation_run true Sample.unlaunchable_machine
                                   Sample.install_screen)) = Nothing.
Proof.
  refine (proj1 (proj2 (raised_exception_goes_unreported
                          Sample.unlaunchable_machine Sample.install_screen
                          _ _))).
  - reflexivity.
  - discriminate.
Defined.

Lemma install_button_reboots_after_failure_witness :
  snd (step true
         (fst (step true
                 (fst (installation_error (str "exit status 1")
                         (after true Trial.at_install)))
                 (ClickBack None)))
         (ClickNext None))
  = [Reboot].
Proof.
  refine (f_equal snd
            (proj2 (proj2 (install_button_reboots_after_failure
                             true Trial.at_install (str "exit status 1")
                             None None _)))).
  vm_compute. reflexivity.
Defined.

Lemma users_screen_starts_blank_witness :
  exists host,
    get "hostname" (config (after true Trial.at_drivers))
    = Some (PStr host)
    /\ users (fst (happen true (after true Trial.at_drivers)
                          (User (Next None))))
       = Some (blank_entries host)
    /\ forall l,
         next_step true l
           (fst (happen true (after true Trial.at_drivers)
                        (User (Next None))))
         = (fst (happen true (after true Trial.at_drivers)
                        (User (Next None))),
            [error "Root password is required."]).
Proof.
  refine (users_screen_starts_blank true Trial.at_drivers
            (User (Next None)) _ _).
  - vm_compute. discriminate.
  - vm_compute. reflexivity.
Defined.

Lemma worker_starts_from_summary_witness :
  current_step (after true Trial.at_summary) = 9%Z.
Proof.
  refine (proj1 (worker_starts_from_summary true Trial.at_summary
                   (User (Next None))
                   (config (after true Trial.at_summary)) _)).
  vm_compute. left. reflexivity.
Defined.

Lemma back_then_next_returns_witness :
  current_step (fst (next_step true None
                       (fst (prev_step true None
                               (after true Trial.at_partition)))))
  = current_step (after true Trial.at_partition).
Proof.
  refine (proj1 (back_then_next_returns true Trial.at_partition
                   None None _)).
  vm_compute. split; [reflexivity|discriminate].
Defined.

Lemma refused_next_changes_nothing_witness :
  fst (next_step true None (reached true Sample.to_users))
  = reached true Sample.to_users.
Proof.
  refine (proj1 (refused_next_changes_nothing true None
                   (reached true Sample.to_users) _ _)).
  - vm_compute. discriminate.
  - vm_compute. reflexivity.
Defined.

Lemma no_disk_no_way_on_witness :
  (current_step (reached true Trial.stuck) <= 5)%Z.
Proof.
  refine (proj1 (no_disk_no_way_on true Trial.stuck _)).
  repeat constructor; vm_compute; reflexivity.
Defined.

Lemma log_line_sets_status_witness :
  status_update (str "[12:00:01" ++ str "] "
                 ++ str "Partitioning disk" ++ [10])
  = [After (SetStatus (strip (str "Partitioning disk" ++ [10])))].
Proof.
  refine (log_line_sets_status (str "[12:00:01")
            (str "Partitioning disk" ++ [10]) _).
  vm_compute. intuition discriminate.
Defined.

Lemma run_leaves_install_screen_witness :
  fst (installation_run false Trial.failing_machine Sample.install_screen)
  = with_buttons true true (next_text Sample.install_screen)
      (next_command Sample.install_screen)
      (with_install (Some (str "Installation failed!")) false
                    Sample.install_screen).
Proof.
  refine (run_leaves_install_screen false Trial.failing_machine
            Trial.failing_backend Sample.install_screen _ _ _ _);
    vm_compute; reflexivity.
Defined.


Lemma users_screen_accepts_witness :
  fst (fst (validate_current_step Sample.named_screen)) = true.
Proof.
  refine (proj2 (users_screen_accepts Sample.named_screen
                   Sample.named_entries _ _) _).
  - vm_compute. reflexivity.
  - vm_compute. reflexivity.
  - repeat split; try discriminate; left; reflexivity.
Defined.

Lemma quiet_run_reports_witness :
  report_of (snd (installation_run true Trial.failing_machine
                                   Sample.install_screen))
  = FailedWith (str "Installation failed with error:" ++ [10]
                ++ unread Trial.failing_backend).
Proof.
  refine (quiet_run_reports true Trial.failing_machine
            Sample.install_screen _ _ _).
  - vm_compute. reflexivity.
  - discriminate.
  - intros p H. injection H as <-. reflexivity.
Defined.

Lemma timely_call_reports_witness :
  report_of (snd (installation_run false Sample.unlaunchable_machine
                                   Sample.install_screen))
  = FailedWith (str "Installation failed with error:" ++ [10]
                ++ str "[Errno 13] Permission denied").
Proof.
  refine (timely_call_reports Sample.unlaunchable_machine
            Sample.install_screen (str "[Errno 13] Permission denied")
            _ _); vm_compute; reflexivity.
Defined.

Lemma lsblk_rows_are_offered_in_order_witness :
  available_disks (Some (Lsblk.printed Trial.some_rows))
  = [str "/dev/sda (500G)"; str "/dev/mydisk (16G)";
     str "/dev/nvme0n1 (1T)"].
Proof.
  refine (eq_trans (lsblk_rows_are_offered_in_order Trial.some_rows _) _).
  - repeat constructor; discriminate.
  - vm_compute. reflexivity.
Defined.
